(** * AWS inventory and diagram generator: a shallow embedding

    The models follow the Python sources:
    - [aws_clients/ecs.py]              module [ECSClient]
    - [models/vpc.py]                   module [Models]
    - [main.py]                         module [Inventory]
    - [diagram_generator_detailed.py]   modules [Doc], [Detailed]
    - [diagram_generator_drawio.py]     module [Drawio]
    - [diagram_generator.py]            module [Overview]
    - the [json] calls of [main.py] and of the generators: module [Json]

    Python lists are Rocq lists, [str] is [string] (one [ascii] per
    code point, each below 256), dictionaries are insertion-ordered association lists, a
    raised exception is the [Raise] branch of [result], and code that talks
    to the provider runs in a small state monad whose state is the log of
    the API calls issued so far.  The first part of the file holds the
    models, the second part the properties proved about them. *)

From Stdlib Require Import String Ascii List ZArith Arith Bool Lia.
From Stdlib Require DecimalString DecimalPos DecimalN DecimalFacts.
Import ListNotations.
Local Open Scope string_scope.
Local Open Scope list_scope.
Set Warnings "-register-all".

(** ** Python values and built-ins used by the program *)

Module Py.

(** A computation that may raise: [Raise] carries the exception's name. *)
Inductive result (A : Type) : Type :=
| Ok (a : A)
| Raise (exn : string).
Arguments Ok {A} a.
Arguments Raise {A} exn.

Definition rbind {A B : Type} (r : result A) (f : A -> result B) : result B :=
  match r with
  | Ok a => f a
  | Raise e => Raise e
  end.

(** [range(0, stop, step)] for a positive step: the starting points
    [0, step, 2*step, ...] below [stop]; there are [ceil(stop / step)] of
    them, as CPython's [range] computes its length. *)
Definition range_step (stop step : nat) : list nat :=
  map (fun k => k * step) (seq 0 ((stop + step - 1) / step)).

(** [l[i:j]] for [0 <= i <= j]: indices past the end are clipped. *)
Definition slice {A : Type} (l : list A) (i j : nat) : list A :=
  firstn (j - i) (skipn i l).

(** [d.get(key, default)] once the lookup has been done. *)
Definition get_default {A : Type} (o : option A) (d : A) : A :=
  match o with
  | Some v => v
  | None => d
  end.

(** *** Strings *)

(** A string holds the code points of a Python [str], each below 256. *)

(** The code points that [str.lower] changes: A to Z, and U+00C0 to U+00DE
    without the multiplication sign U+00D7. *)
Definition is_upper (c : ascii) : bool :=
  let n := nat_of_ascii c in
  (((65 <=? n) && (n <=? 90))
   || ((192 <=? n) && (n <=? 222) && negb (n =? 215)))%nat.

(** Each of them has its lower-case letter 32 places further. *)
Definition lower_char (c : ascii) : ascii :=
  if is_upper c then ascii_of_nat (nat_of_ascii c + 32) else c.

(** [s.lower()] *)
Fixpoint lower (s : string) : string :=
  match s with
  | EmptyString => EmptyString
  | String c s' => String (lower_char c) (lower s')
  end.

(** [s.replace(old, new)] where [old] is a single character. *)
Fixpoint replace (old : ascii) (new : string) (s : string) : string :=
  match s with
  | EmptyString => EmptyString
  | String c s' =>
    if Ascii.eqb c old then (new ++ replace old new s')%string
    else String c (replace old new s')
  end.

(** [sub in s]: some suffix of [s] starts with [sub]. *)
Fixpoint contains (sub s : string) : bool :=
  String.prefix sub s ||
  match s with
  | EmptyString => false
  | String _ s' => contains sub s'
  end.

(** [sub] occurs in [s]. *)
Definition infix (sub s : string) : Prop :=
  exists pre post, s = (pre ++ sub ++ post)%string.

(** The code points [str.isspace] accepts, which [str.split] cuts at:
    9 to 13, 28 to 32, U+0085 and U+00A0. *)
Definition is_space (c : ascii) : bool :=
  let n := nat_of_ascii c in
  (((9 <=? n) && (n <=? 13)) || ((28 <=? n) && (n <=? 32))
   || (n =? 133) || (n =? 160))%nat.

(** [s.split()]: the maximal runs of characters that are not whitespace.
    [cur] holds the run being read, in reverse. *)
Fixpoint rev_string (acc : string) (s : string) : string :=
  match s with
  | EmptyString => acc
  | String c s' => rev_string (String c acc) s'
  end.

Definition flush (cur : string) (out : list string) : list string :=
  match cur with
  | EmptyString => out
  | _ => out ++ [rev_string EmptyString cur]
  end.

Fixpoint split_loop (s : string) (cur : string) (out : list string)
  : list string :=
  match s with
  | EmptyString => flush cur out
  | String c s' =>
    if is_space c then split_loop s' EmptyString (flush cur out)
    else split_loop s' (String c cur) out
  end.

Definition split (s : string) : list string := split_loop s EmptyString [].

(** The first [n] characters. *)
Fixpoint take (n : nat) (s : string) : string :=
  match n, s with
  | O, _ => EmptyString
  | S _, EmptyString => EmptyString
  | S n', String c s' => String c (take n' s')
  end.

(** [s[:k]] for any integer [k]: a negative [k] counts from the end. *)
Definition slice_to (s : string) (k : Z) : string :=
  if (k <? 0)%Z then take (Z.to_nat (Z.of_nat (String.length s) + k)) s
  else take (Z.to_nat k) s.

(** *** Dictionaries: association lists in insertion order *)

Section Dict.
Context {V : Type}.

Definition dict : Type := list (string * V).

Fixpoint dict_get (d : dict) (k : string) : option V :=
  match d with
  | [] => None
  | (k', v) :: d' => if String.eqb k' k then Some v else dict_get d' k
  end.

(** [k in d] *)
Definition dict_mem (d : dict) (k : string) : bool :=
  match dict_get d k with
  | Some _ => true
  | None => false
  end.

(** [d[k] = v]: an existing key keeps its place, a new one goes last. *)
Fixpoint dict_set (d : dict) (k : string) (v : V) : dict :=
  match d with
  | [] => [(k, v)]
  | (k', v') :: d' =>
    if String.eqb k' k then (k', v) :: d' else (k', v') :: dict_set d' k v
  end.

Definition dict_keys (d : dict) : list string := map fst d.

End Dict.
Arguments dict V : clear implicits.

(** Values of the inventory document: what [json] can write natively, and
    [VObj] for any other object (a [datetime], say), kept as its [str()]. *)
Inductive value : Type :=
| VNone
| VBool (b : bool)
| VInt (n : Z)
| VStr (s : string)
| VList (l : list value)
| VDict (d : list (string * value))
| VObj (repr : string).

Definition str_list (l : list string) : value := VList (map VStr l).

Definition opt_str (o : option string) : value :=
  match o with
  | Some s => VStr s
  | None => VNone
  end.

Definition str_dict (d : dict string) : value :=
  VDict (map (fun kv => (fst kv, VStr (snd kv))) d).

(** [x in l] for a list of strings. *)
Definition mem (x : string) (l : list string) : bool :=
  existsb (String.eqb x) l.

End Py.

(** ** aws_clients/ecs.py *)

Module ECSClient.

(** One call to the provider's ECS API, with the identifiers it carries. *)
Inductive api_call : Type :=
| DescribeClusters (clusters : list string)
| DescribeServices (cluster : string) (services : list string)
| DescribeTasks (cluster : string) (tasks : list string).

(** The identifiers sent in one call. *)
Definition call_ids (c : api_call) : list string :=
  match c with
  | DescribeClusters ids => ids
  | DescribeServices _ ids => ids
  | DescribeTasks _ ids => ids
  end.

(** Code that uses the boto3 client: the state is the log of calls. *)
Definition M (A : Type) : Type := list api_call -> A * list api_call.

Definition ret {A : Type} (a : A) : M A := fun log => (a, log).

Definition bind {A B : Type} (m : M A) (f : A -> M B) : M B :=
  fun log => let (a, log') := m log in f a log'.

Notation "x <- m ;; k" := (bind m (fun x => k))
  (at level 61, m at next level, right associativity).

(** [for x in xs: acc = body(x, acc)] *)
Fixpoint for_each {A B : Type} (xs : list A) (body : A -> B -> M B) (acc : B)
  : M B :=
  match xs with
  | [] => ret acc
  | x :: xs' => acc' <- body x acc ;; for_each xs' body acc'
  end.

Section Client.

(** Description records returned by the provider ([Dict[str, Any]]). *)
Variable Desc : Type.

(** The provider: for a call, the list stored under the response's result
    key ("clusters", "services" or "tasks"), when the key is present. *)
Variable respond : api_call -> option (list Desc).

Definition client_call (c : api_call) : M (option (list Desc)) :=
  fun log => (respond c, log ++ [c]).

Definition describe_clusters (cluster_arns : list string) : M (list Desc) :=
  match cluster_arns with
  | [] => ret []
  | _ =>
    for_each (Py.range_step (length cluster_arns) 100)
      (fun i all_clusters =>
         let batch := Py.slice cluster_arns i (i + 100) in
         response <- client_call (DescribeClusters batch) ;;
         ret (all_clusters ++ Py.get_default response []))
      []
  end.

Definition describe_services (cluster_arn : string)
    (service_arns : list string) : M (list Desc) :=
  match service_arns with
  | [] => ret []
  | _ =>
    for_each (Py.range_step (length service_arns) 10)
      (fun i all_services =>
         let batch := Py.slice service_arns i (i + 10) in
         response <- client_call (DescribeServices cluster_arn batch) ;;
         ret (all_services ++ Py.get_default response []))
      []
  end.

Definition describe_tasks (cluster_arn : string)
    (task_arns : list string) : M (list Desc) :=
  match task_arns with
  | [] => ret []
  | _ =>
    for_each (Py.range_step (length task_arns) 100)
      (fun i all_tasks =>
         let batch := Py.slice task_arns i (i + 100) in
         response <- client_call (DescribeTasks cluster_arn batch) ;;
         ret (all_tasks ++ Py.get_default response []))
      []
  end.

End Client.

(** The batches a loop with the given cap cuts an identifier list into. *)
Definition batches (cap : nat) (ids : list string) : list (list string) :=
  map (fun i => Py.slice ids i (i + cap)) (Py.range_step (length ids) cap).

End ECSClient.

(** ** models/vpc.py *)

Module Models.
Import Py.

(** An AWS tag list: [{"Key": k, "Value": v}, ...]. *)
Definition aws_tags : Type := list (string * string).

(** [get_name_from_tags]: the value of the first tag whose key is "Name". *)
Fixpoint get_name_from_tags (tags : aws_tags) : option string :=
  match tags with
  | [] => None
  | (k, v) :: tags' =>
    if String.eqb k "Name" then Some v else get_name_from_tags tags'
  end.

(** [{t["Key"]: t["Value"] for t in tags}] *)
Definition tags_dict (tags : aws_tags) : dict string :=
  fold_left (fun d kv => dict_set d (fst kv) (snd kv)) tags [].

Module SubnetModel.

Record t : Type := {
  subnet_id : string;
  vpc_id : string;
  cidr_block : string;
  availability_zone : string;
  availability_zone_id : string;
  state : string;
  map_public_ip_on_launch : bool;
  name : option string;
  tags : dict string
}.

(** The fields of a [describe_subnets] entry that the model reads. *)
Record aws_response : Type := {
  SubnetId : string;
  VpcId : string;
  CidrBlock : string;
  AvailabilityZone : string;
  AvailabilityZoneId : string;
  State : string;
  MapPublicIpOnLaunch : option bool;
  Tags : aws_tags
}.

Definition from_aws_response (data : aws_response) : t :=
  {| subnet_id := SubnetId data;
     vpc_id := VpcId data;
     cidr_block := CidrBlock data;
     availability_zone := AvailabilityZone data;
     availability_zone_id := AvailabilityZoneId data;
     state := State data;
     map_public_ip_on_launch := get_default (MapPublicIpOnLaunch data) false;
     name := get_name_from_tags (Tags data);
     tags := tags_dict (Tags data) |}.

(** [asdict(self)]: the fields in declaration order. *)
Definition to_dict (self : t) : value :=
  VDict [
    ("subnet_id", VStr (subnet_id self));
    ("vpc_id", VStr (vpc_id self));
    ("cidr_block", VStr (cidr_block self));
    ("availability_zone", VStr (availability_zone self));
    ("availability_zone_id", VStr (availability_zone_id self));
    ("state", VStr (state self));
    ("map_public_ip_on_launch", VBool (map_public_ip_on_launch self));
    ("name", opt_str (name self));
    ("tags", str_dict (tags self))
  ].

End SubnetModel.

Module VPCModel.

Record t : Type := {
  vpc_id : string;
  cidr_block : string;
  state : string;
  is_default : bool;
  region : string;
  name : option string;
  tags : dict string;
  subnets : list SubnetModel.t;
  internet_gateways : list value;
  nat_gateways : list value;
  route_tables : list value;
  security_groups : list value;
  vpc_endpoints : list value
}.

Definition to_dict (self : t) : value :=
  VDict [
    ("vpc_id", VStr (vpc_id self));
    ("cidr_block", VStr (cidr_block self));
    ("state", VStr (state self));
    ("is_default", VBool (is_default self));
    ("region", VStr (region self));
    ("name", opt_str (name self));
    ("tags", str_dict (tags self));
    ("subnets", VList (map SubnetModel.to_dict (subnets self)));
    ("internet_gateways", VList (internet_gateways self));
    ("nat_gateways", VList (nat_gateways self));
    ("route_tables", VList (route_tables self));
    ("security_groups", VList (security_groups self));
    ("vpc_endpoints", VList (vpc_endpoints self))
  ].

End VPCModel.

End Models.

(** ** main.py *)

Module Inventory.
Import Py.

(** What the collectors of one region do when they are run: each returns
    its collection or raises.  The ECS and EKS entries are the cluster
    models after [to_dict]. *)
Record collectors : Type := {
  vpc_collect : result (list Models.VPCModel.t);
  collect_ec2_instances : result value;
  ecs_collect : result (list value);
  eks_collect : result (list value);
  rds_collect : result value;
  redis_collect : result value;
  elb_collect : result value;
  eb_collect : result value;
  redshift_collect : result value
}.

(** The empty documents written when a collector raises. *)
Definition empty_lists (keys : list string) : value :=
  VDict (map (fun k => (k, VList [])) keys).

Definition rds_default : value := empty_lists ["instances"; "clusters"].

Definition elasticache_default : value :=
  empty_lists ["clusters"; "replication_groups"; "serverless_caches"].

Definition load_balancers_default : value :=
  empty_lists ["application_load_balancers"; "network_load_balancers";
               "classic_load_balancers"; "target_groups"].

Definition elasticbeanstalk_default : value :=
  empty_lists ["applications"; "environments"].

Definition redshift_default : value :=
  empty_lists ["clusters"; "serverless_workgroups"; "serverless_namespaces"].

(** [try: region_data[key] = collect() except Exception: region_data[key] =
    empty], guarded by the service selection. *)
Definition try_collect (selected : bool) (key : string) (r : result value)
    (empty : value) (region_data : dict value) : dict value :=
  if selected then
    match r with
    | Ok v => dict_set region_data key v
    | Raise _ => dict_set region_data key empty
    end
  else region_data.

(** The VPC and EC2 block: one [try] around both collections. *)
Definition collect_vpc_ec2 (cs : collectors) (collect_all : bool)
    (services : list string) (region_data : dict value) : dict value :=
  if collect_all || mem "vpc" services || mem "ec2" services then
    let failed :=
      dict_set (dict_set region_data "vpcs" (VList []))
               "ec2_instances" (VList []) in
    match vpc_collect cs with
    | Ok vpcs =>
      let region_data :=
        dict_set region_data "vpcs"
                 (VList (map Models.VPCModel.to_dict vpcs)) in
      if collect_all || mem "ec2" services then
        match collect_ec2_instances cs with
        | Ok instances => dict_set region_data "ec2_instances" instances
        | Raise _ =>
          dict_set (dict_set region_data "vpcs" (VList []))
                   "ec2_instances" (VList [])
        end
      else region_data
    | Raise _ => failed
    end
  else region_data.

Definition list_result (r : result (list value)) : result value :=
  rbind r (fun l => Ok (VList l)).

(** [collected_at] is the clock reading when the region is started. *)
Definition collect_region_resources (cs : collectors) (collected_at : string)
    (region : string) (services : list string) : dict value :=
  let region_data :=
    [("region", VStr region); ("collected_at", VStr collected_at)] in
  let collect_all := mem "all" services in
  let region_data := collect_vpc_ec2 cs collect_all services region_data in
  let region_data :=
    try_collect (collect_all || mem "ecs" services) "ecs_clusters"
                (list_result (ecs_collect cs)) (VList []) region_data in
  let region_data :=
    try_collect (collect_all || mem "eks" services) "eks_clusters"
                (list_result (eks_collect cs)) (VList []) region_data in
  let region_data :=
    try_collect (collect_all || mem "rds" services) "rds"
                (rds_collect cs) rds_default region_data in
  let region_data :=
    try_collect (collect_all || mem "elasticache" services) "elasticache"
                (redis_collect cs) elasticache_default region_data in
  let region_data :=
    try_collect (collect_all || mem "elb" services) "load_balancers"
                (elb_collect cs) load_balancers_default region_data in
  let region_data :=
    try_collect (collect_all || mem "elasticbeanstalk" services)
                "elasticbeanstalk"
                (eb_collect cs) elasticbeanstalk_default region_data in
  let region_data :=
    try_collect (collect_all || mem "redshift" services) "redshift"
                (redshift_collect cs) redshift_default region_data in
  region_data.

(** The provider as [main] sees it: opening the session of a region returns
    or raises, and a region that opens has its collectors. *)
Record provider : Type := {
  open_session : string -> result unit;
  region_collectors : string -> collectors;
  now : string
}.

(** One turn of the region loop of [main]. *)
Definition region_entry (p : provider) (services : list string)
    (region : string) : dict value :=
  match open_session p region with
  | Ok _ =>
    collect_region_resources (region_collectors p region) (now p)
                             region services
  | Raise e => [("region", VStr region); ("error", VStr e)]
  end.

(** [inventory["regions"]] after the region loop. *)
Definition collect_regions (p : provider) (services : list string)
    (regions : list string) : dict (dict value) :=
  fold_left
    (fun inventory_regions region =>
       dict_set inventory_regions region (region_entry p services region))
    regions [].

(** The CloudFront block of [main]. *)
Definition cloudfront_default : value :=
  VDict [("distributions", VList [])].

(** The document [main] hands to [json.dump]. *)
Definition inventory_document (p : provider) (account_id generated_at : string)
    (role_arn : option string) (cloudfront : result value)
    (regions services : list string) : value :=
  let inventory :=
    [ ("metadata",
       VDict [ ("account_id", VStr account_id);
               ("generated_at", VStr generated_at);
               ("regions_scanned", str_list regions);
               ("services_collected", str_list services);
               ("role_arn", opt_str role_arn) ]);
      ("regions",
       VDict (map (fun kv => (fst kv, VDict (snd kv)))
                  (collect_regions p services regions))) ] in
  let collect_all := mem "all" services in
  VDict (try_collect (collect_all || mem "cloudfront" services) "cloudfront"
                     cloudfront cloudfront_default inventory).

(** The services collected per region, the key each one fills in, and the
    empty document of that key. *)
Definition regional_services : list (string * (string * value)) :=
  [ ("vpc", ("vpcs", VList []));
    ("ec2", ("ec2_instances", VList []));
    ("ecs", ("ecs_clusters", VList []));
    ("eks", ("eks_clusters", VList []));
    ("rds", ("rds", rds_default));
    ("elasticache", ("elasticache", elasticache_default));
    ("elb", ("load_balancers", load_balancers_default));
    ("elasticbeanstalk", ("elasticbeanstalk", elasticbeanstalk_default));
    ("redshift", ("redshift", redshift_default)) ].

Definition is_raise {A : Type} (r : result A) : bool :=
  match r with
  | Ok _ => false
  | Raise _ => true
  end.

(** Whether the collection of a service raised.  The VPC block has one
    [try] for the network collection and the instance collection: the
    instances are collected only after the networks. *)
Definition collection_raised (cs : collectors) (service : string) : bool :=
  if String.eqb service "vpc" then is_raise (vpc_collect cs)
  else if String.eqb service "ec2" then
    is_raise (vpc_collect cs) || is_raise (collect_ec2_instances cs)
  else if String.eqb service "ecs" then is_raise (ecs_collect cs)
  else if String.eqb service "eks" then is_raise (eks_collect cs)
  else if String.eqb service "rds" then is_raise (rds_collect cs)
  else if String.eqb service "elasticache" then is_raise (redis_collect cs)
  else if String.eqb service "elb" then is_raise (elb_collect cs)
  else if String.eqb service "elasticbeanstalk" then is_raise (eb_collect cs)
  else if String.eqb service "redshift" then is_raise (redshift_collect cs)
  else false.

Definition selected (services : list string) (service : string) : bool :=
  mem "all" services || mem service services.

(** What the region loop of [main] stores for a region: collections and no
    [error] key, or the region name and an [error] string. *)
Definition entry_shape (item : string * dict value) : Prop :=
  let region := fst item in
  let entry := snd item in
  (dict_mem entry "error" = false
   /\ dict_get entry "region" = Some (VStr region))
  \/ (exists e, entry = [("region", VStr region); ("error", VStr e)]).

(** The entries a guarded region loop hands to its body. *)
Definition readable (regions : dict (dict value)) : dict (dict value) :=
  filter (fun item => negb (dict_mem (snd item) "error")) regions.

End Inventory.

(** ** The inventory as the diagram generators read it

    The records below are the dictionaries of the inventory file, with the
    keys the generators look at.  An optional field holds [None] where the
    collector wrote [None] (JSON [null]); every key is present, since the
    collectors always write it. *)

Module Doc.
Import Py.

Module Instance.
(** An entry of [ec2_instances], as [_simplify_ec2_instances] writes it:
    [name] is the value of the Name tag, or [None] without one. *)
Record t : Type := {
  instance_id : string;
  state : option string;
  vpc_id : option string;
  private_ip : option string;
  name : option string;
  tags : dict string
}.
End Instance.

Module Service.
Record t : Type := {
  service_name : string;
  subnets : list string
}.
End Service.

Module ECSCluster.
Record t : Type := {
  cluster_name : string;
  services : list Service.t
}.
End ECSCluster.

Module NodeGroup.
Record t : Type := {
  nodegroup_name : string
}.
End NodeGroup.

Module EKSCluster.
Record t : Type := {
  cluster_name : string;
  vpc_id : option string;
  node_groups : list NodeGroup.t
}.
End EKSCluster.

Module Subnet.
Record t : Type := {
  subnet_id : string
}.
End Subnet.

Module Vpc.
Record t : Type := {
  vpc_id : string;
  name : option string;
  tags : dict string;
  subnets : list Subnet.t
}.
End Vpc.

Module Environment.
Record t : Type := {
  environment_name : string;
  application_name : string
}.
End Environment.

Module Pod.
Record t : Type := {
  pod_name : string;
  namespace : option string;
  status : option string
}.
End Pod.

End Doc.

(** ** diagram_generator_detailed.py *)

Module Detailed.
Import Py Doc.

(** Truth value of an optional string: [None] and [""] are false. *)
Definition truthy (o : option string) : bool :=
  match o with
  | Some EmptyString => false
  | Some _ => true
  | None => false
  end.

(** [a or b] *)
Definition py_or (a b : option string) : option string :=
  if truthy a then a else b.

(** [get_resource_name(vpc, "vpc_id", fallback)]: the key [vpc_id] is
    there, so the fallback is never used. *)
Definition get_resource_name (resource : Vpc.t) : string :=
  let name := py_or (Vpc.name resource) (dict_get (Vpc.tags resource) "Name") in
  match name with
  | Some n => if truthy name then take 35 n else take 35 (Vpc.vpc_id resource)
  | None => take 35 (Vpc.vpc_id resource)
  end.

Definition format_label (name : string) (max_len : Z) : string :=
  if (Z.of_nat (String.length name) <=? max_len)%Z then name
  else (slice_to name (max_len - 2) ++ "..")%string.

(** *** categorize_ec2_instances *)

(** [s.add(x)] on a set kept as a list without repetition. *)
Definition set_add (x : string) (s : list string) : list string :=
  if mem x s then s else s ++ [x].

Definition eks_patterns_of (eks_clusters : list EKSCluster.t) : list string :=
  fold_left
    (fun pats cluster =>
       fold_left
         (fun pats ng => set_add (lower (NodeGroup.nodegroup_name ng)) pats)
         (EKSCluster.node_groups cluster)
         (set_add (lower (EKSCluster.cluster_name cluster)) pats))
    eks_clusters [].

Definition ecs_patterns_of (ecs_clusters : list ECSCluster.t) : list string :=
  fold_left
    (fun pats cluster => set_add (lower (ECSCluster.cluster_name cluster)) pats)
    ecs_clusters [].

Record categories : Type := {
  standalone : list Instance.t;
  ecs : list Instance.t;
  eks : list Instance.t
}.

(** [" ".join(f"{k}={v}" for k, v in tags.items()).lower()] *)
Definition all_tags_of (tags : dict string) : string :=
  lower (String.concat " "
           (map (fun kv => (fst kv ++ "=" ++ snd kv)%string) tags)).

Definition nonempty (p : string) : bool :=
  negb (String.eqb p "").

Definition is_eks (eks_patterns : list string) (name all_tags : string)
  : bool :=
  contains "kubernetes.io" all_tags
  || contains "eks" all_tags
  || contains "karpenter" all_tags
  || existsb (fun p => contains p name || contains p all_tags)
             (filter nonempty eks_patterns).

Definition is_ecs (ecs_patterns : list string) (name all_tags : string)
  : bool :=
  contains "ecs" all_tags
  || contains "ecs:cluster" all_tags
  || existsb (fun p => contains p name) (filter nonempty ecs_patterns).

Definition is_running (instance : Instance.t) : bool :=
  match Instance.state instance with
  | Some s => String.eqb s "running"
  | None => false
  end.

(** The body of the loop over the instances.  [instance.get("name", "")]
    finds the key and returns its value: on [None] the call of [lower]
    raises. *)
Definition categorize_step (eks_patterns ecs_patterns : list string)
    (categorized : categories) (instance : Instance.t)   : result categories :=
  if negb (is_running instance) then Ok categorized
  else
    match Instance.name instance with
    | None => Raise "AttributeError"
    | Some n =>
      let name := lower n in
      let all_tags := all_tags_of (Instance.tags instance) in
      if is_eks eks_patterns name all_tags then
        Ok {| standalone := standalone categorized;
              ecs := ecs categorized;
              eks := eks categorized ++ [instance] |}
      else if is_ecs ecs_patterns name all_tags then
        Ok {| standalone := standalone categorized;
              ecs := ecs categorized ++ [instance];
              eks := eks categorized |}
      else
        Ok {| standalone := standalone categorized ++ [instance];
              ecs := ecs categorized;
              eks := eks categorized |}
    end.

Fixpoint categorize_loop (eks_patterns ecs_patterns : list string)
    (instances : list Instance.t) (categorized : categories)
    : result categories :=
  match instances with
  | [] => Ok categorized
  | instance :: rest =>
    rbind (categorize_step eks_patterns ecs_patterns categorized instance)
          (categorize_loop eks_patterns ecs_patterns rest)
  end.

Definition categorize_ec2_instances (ec2_instances : list Instance.t)
    (ecs_clusters : list ECSCluster.t) (eks_clusters : list EKSCluster.t)
    : result categories :=
  categorize_loop (eks_patterns_of eks_clusters) (ecs_patterns_of ecs_clusters)
    ec2_instances
    {| standalone := []; ecs := []; eks := [] |}.

(** The bucket of an instance, read off the branches of the loop body; an
    instance without a name is given the empty name here. *)
Definition in_eks (eks_patterns : list string) (instance : Instance.t) : bool :=
  is_running instance
  && is_eks eks_patterns (lower (get_default (Instance.name instance) ""))
            (all_tags_of (Instance.tags instance)).

Definition in_ecs (eks_patterns ecs_patterns : list string)
    (instance : Instance.t) : bool :=
  is_running instance
  && negb (in_eks eks_patterns instance)
  && is_ecs ecs_patterns (lower (get_default (Instance.name instance) ""))
            (all_tags_of (Instance.tags instance)).

Definition in_standalone (eks_patterns ecs_patterns : list string)
    (instance : Instance.t) : bool :=
  is_running instance
  && negb (in_eks eks_patterns instance)
  && negb (in_ecs eks_patterns ecs_patterns instance).

(** Every running instance has a name. *)
Definition all_named (instances : list Instance.t) : Prop :=
  Forall (fun i => is_running i = true -> Instance.name i <> None) instances.

(** *** Matching resources to a VPC in generate_detailed_vpc_diagram *)

Definition strip (c : ascii) (s : string) : string := replace c "" s.

(** The Beanstalk filter. *)
Definition beanstalk_match (vpc_name : string) (env : Environment.t) : bool :=
  let env_name := lower (Environment.environment_name env) in
  let app_name := lower (Environment.application_name env) in
  contains (strip "-" (lower vpc_name)) (strip "-" env_name)
  || contains (strip "-" (lower vpc_name)) (strip "-" app_name).

Definition vpc_beanstalk_envs (vpc_name : string)
    (environments : list Environment.t) : list Environment.t :=
  filter (beanstalk_match vpc_name) environments.

Definition vpc_subnet_ids (vpc_data : Vpc.t) : list string :=
  map Subnet.subnet_id (Vpc.subnets vpc_data).

Definition name_lower (name : string) : string :=
  strip "_" (strip "-" (lower name)).

Definition name_match (vpc_name : string) (cluster : ECSCluster.t) : bool :=
  let vpc_name_lower := name_lower vpc_name in
  let cluster_name_lower := name_lower (ECSCluster.cluster_name cluster) in
  contains cluster_name_lower vpc_name_lower
  || contains vpc_name_lower cluster_name_lower
  || existsb (fun part => contains part cluster_name_lower)
       (filter (fun part => (3 <? String.length part)%nat)
               (split vpc_name_lower)).

Definition subnet_match (subnet_ids : list string) (cluster : ECSCluster.t)
  : bool :=
  existsb (fun svc => existsb (fun s => mem s subnet_ids) (Service.subnets svc))
          (ECSCluster.services cluster).

Definition vpc_ecs (vpc_data : Vpc.t) (ecs_clusters : list ECSCluster.t)
  : list ECSCluster.t :=
  let vpc_name := get_resource_name vpc_data in
  filter (fun cluster =>
            name_match vpc_name cluster
            || subnet_match (vpc_subnet_ids vpc_data) cluster)
         ecs_clusters.

(** Fuzzy name matching as the specification words it: both names
    lower-cased and stripped of hyphens, underscores and spaces; a match
    when one normalized name occurs in the other, or when a token of the
    VPC name longer than 3 characters occurs in the candidate name. *)
Definition spec_normalize (s : string) : string :=
  strip " " (strip "_" (strip "-" (lower s))).

Definition spec_fuzzy_match (vpc_name candidate : string) : bool :=
  contains (spec_normalize vpc_name) (spec_normalize candidate)
  || contains (spec_normalize candidate) (spec_normalize vpc_name)
  || existsb (fun token => contains token candidate)
       (filter (fun token => (3 <? String.length token)%nat)
               (split vpc_name)).

(** *** Pods of an EKS node *)

(** [f"ip-{inst.get('private_ip', '').replace('.', '-')}.{region}.compute.internal"] *)
Definition private_dns (inst : Instance.t) (region : string) : result string :=
  match Instance.private_ip inst with
  | None => Raise "AttributeError"
  | Some private_ip =>
    Ok ("ip-" ++ replace "." "-" private_ip ++ "." ++ region
             ++ ".compute.internal")%string
  end.

Definition node_pods (pods_by_node : dict (list Pod.t)) (inst : Instance.t)
    (region : string) : result (list Pod.t) :=
  rbind (private_dns inst region)
        (fun key => Ok (get_default (dict_get pods_by_node key) [])).

Definition system_namespaces : list string :=
  ["kube-system"; "amazon-cloudwatch"; "amazon-guardduty"].

Definition is_app_pod (p : Pod.t) : bool :=
  match Pod.namespace p with
  | Some ns => negb (mem ns system_namespaces)
  | None => true
  end.

Definition is_running_pod (p : Pod.t) : bool :=
  match Pod.status p with
  | Some s => String.eqb s "Running"
  | None => false
  end.

(** The pods shown on a node: running and outside the system namespaces. *)
Definition app_pods (pods_by_node : dict (list Pod.t)) (inst : Instance.t)
    (region : string) : result (list Pod.t) :=
  rbind (node_pods pods_by_node inst region)
        (fun pods => Ok (filter is_app_pod (filter is_running_pod pods))).

(** The three lines of a node's label: the instance name cut to 15
    characters, the private IP and the number of pods shown.
    [inst.get("name", ...)] finds the key: on [None] the [len] call of
    [format_label] raises. *)
Definition node_label (pods_by_node : dict (list Pod.t)) (inst : Instance.t)
    (region : string) : result (string * string * nat) :=
  match Instance.name inst with
  | None => Raise "TypeError"
  | Some n =>
    let inst_name := format_label n 15 in
    match Instance.private_ip inst with
    | None => Raise "AttributeError"
    | Some private_ip =>
      rbind (app_pods pods_by_node inst region)
            (fun pods => Ok (inst_name, private_ip, length pods))
    end
  end.

(** [total_pods] of a node group. *)
Fixpoint total_pods (pods_by_node : dict (list Pod.t))
    (ng_instances : list Instance.t) (region : string) (total : nat)
  : result nat :=
  match ng_instances with
  | [] => Ok total
  | inst :: rest =>
    rbind (node_pods pods_by_node inst region)
          (fun pods => total_pods pods_by_node rest region (total + length pods))
  end.

(** *** The region loop of [main]: [body] is the rest of the loop, run on
    the regions that pass the guard. *)
Definition main_loop {S : Type} (body : string -> dict value -> S -> S)
    (regions : dict (dict value)) (s : S) : S :=
  fold_left
    (fun s item =>
       let region_name := fst item in
       let region_data := snd item in
       if dict_mem region_data "error" then s
       else body region_name region_data s)
    regions s.

End Detailed.

(** ** Labels

    What a label function has to do at a budget of [max_len] characters. *)
Definition label_spec (format_label : string -> Z -> string)
    (name : string) (max_len : Z) : Prop :=
  ((Z.of_nat (String.length name) <= max_len)%Z ->
   format_label name max_len = name)
  /\ ((max_len < Z.of_nat (String.length name))%Z ->
      exists head,
        format_label name max_len = (head ++ "..")%string
        /\ String.prefix head name = true
        /\ Z.of_nat (String.length head) = (max_len - 2)%Z
        /\ Z.of_nat (String.length (format_label name max_len)) = max_len)
  /\ (Z.of_nat (String.length (format_label name max_len)) <= max_len)%Z.

(** ** diagram_generator_drawio.py *)

Module Drawio.
Import Py Doc.

Definition format_label (name : string) (max_len : Z) : string :=
  if (Z.of_nat (String.length name) <=? max_len)%Z then name
  else (slice_to name (max_len - 2) ++ "..")%string.

Definition main_loop {S : Type} (body : string -> dict value -> S -> S)
    (regions : dict (dict value)) (s : S) : S :=
  fold_left
    (fun s item =>
       let region_name := fst item in
       let region_data := snd item in
       if dict_mem region_data "error" then s
       else body region_name region_data s)
    regions s.

End Drawio.

(** ** diagram_generator.py *)

Module Overview.
Import Py.

(** The region loop of [generate_overview_diagram]. *)
Definition overview_loop {S : Type} (body : string -> dict value -> S -> S)
    (regions : dict (dict value)) (s : S) : S :=
  fold_left
    (fun s item =>
       let region_name := fst item in
       let region_data := snd item in
       if dict_mem region_data "error" then s
       else body region_name region_data s)
    regions s.

(** The per-VPC loop of [main]. *)
Definition main_loop {S : Type} (body : string -> dict value -> S -> S)
    (regions : dict (dict value)) (s : S) : S :=
  fold_left
    (fun s item =>
       let region_name := fst item in
       let region_data := snd item in
       if dict_mem region_data "error" then s
       else body region_name region_data s)
    regions s.

End Overview.

(** ** The persisted format: [json.dump(inventory, f, indent=2, default=str)]
    and [json.load(f)]

    The writer and the reader follow the [json] module of the Python
    standard library on the values of [Py.value].  A [string] holds code
    points below 256, so the writer's [\uXXXX] escapes stay below [\u0100];
    the reader leaves floats and larger escapes outside the model (it
    answers [None] on them). *)

Module Json.
Import Py.

Definition dquote : ascii := "034"%char.
Definition backslash : ascii := "092"%char.
Definition newline : ascii := "010"%char.

(** *** The writer *)

Definition hex_digit (n : nat) : ascii :=
  nth n ["0"; "1"; "2"; "3"; "4"; "5"; "6"; "7"; "8"; "9";
         "a"; "b"; "c"; "d"; "e"; "f"]%char "0"%char.

(** [ESCAPE_ASCII]: the quote, the backslash and everything outside
    [' '..'~'] is escaped, by a short escape where [ESCAPE_DCT] has one. *)
Definition escape_char (c : ascii) : string :=
  let n := nat_of_ascii c in
  if Ascii.eqb c dquote then String backslash (String dquote "")
  else if Ascii.eqb c backslash then String backslash (String backslash "")
  else if Ascii.eqb c "008" then String backslash "b"
  else if Ascii.eqb c "012" then String backslash "f"
  else if Ascii.eqb c "010" then String backslash "n"
  else if Ascii.eqb c "013" then String backslash "r"
  else if Ascii.eqb c "009" then String backslash "t"
  else if ((32 <=? n) && (n <=? 126))%nat then String c ""
  else String backslash
         (String "u" (String "0" (String "0"
            (String (hex_digit (n / 16)) (String (hex_digit (n mod 16)) ""))))).

Fixpoint escape (s : string) : string :=
  match s with
  | EmptyString => EmptyString
  | String c s' => (escape_char c ++ escape s')%string
  end.

Definition encode_string (s : string) : string :=
  String dquote (escape s ++ String dquote "").

(** [int.__repr__] *)
Definition encode_int (n : Z) : string :=
  match n with
  | Z0 => "0"
  | Zpos p => DecimalString.NilEmpty.string_of_uint (Pos.to_uint p)
  | Zneg p => String "-" (DecimalString.NilEmpty.string_of_uint (Pos.to_uint p))
  end.

Fixpoint spaces (n : nat) : string :=
  match n with
  | O => EmptyString
  | S n' => String " " (spaces n')
  end.

(** ['\n' + ' ' * (indent * level)] with [indent=2] *)
Definition newline_indent (level : nat) : string :=
  String newline (spaces (2 * level)).

(** The items after the first one, each behind its separator. *)
Fixpoint encode_rest (level : nat) (items : list string) : string :=
  match items with
  | [] => EmptyString
  | item :: others =>
    ("," ++ newline_indent level ++ item ++ encode_rest level others)%string
  end.

(** A list whose items are written already. *)
Definition encode_items (level : nat) (items : list string) : string :=
  match items with
  | [] => "[]"
  | first :: others =>
    ("[" ++ newline_indent (S level) ++ first
         ++ encode_rest (S level) others
         ++ newline_indent level ++ "]")%string
  end.

Definition encode_member (member : string * string) : string :=
  (encode_string (fst member) ++ ": " ++ snd member)%string.

(** A dictionary whose values are written already. *)
Definition encode_members (level : nat) (members : list (string * string))
  : string :=
  match map encode_member members with
  | [] => "{}"
  | first :: others =>
    ("{" ++ newline_indent (S level) ++ first
         ++ encode_rest (S level) others
         ++ newline_indent level ++ "}")%string
  end.

(** [_iterencode] at a nesting level; an object that [json] does not know
    goes through [default=str] and is written as the string. *)
Fixpoint encode (level : nat) (v : value) : string :=
  match v with
  | VNone => "null"
  | VBool true => "true"
  | VBool false => "false"
  | VInt n => encode_int n
  | VStr s => encode_string s
  | VList l => encode_items level (map (encode (S level)) l)
  | VDict d =>
    encode_members level
      (map (fun kv => (fst kv, encode (S level) (snd kv))) d)
  | VObj repr => encode_string repr
  end.

Definition dumps (v : value) : string := encode 0 v.

(** *** The reader *)

Definition is_ws (c : ascii) : bool :=
  Ascii.eqb c " " || Ascii.eqb c "009" || Ascii.eqb c "010" || Ascii.eqb c "013".

Fixpoint skip_ws (s : string) : string :=
  match s with
  | EmptyString => EmptyString
  | String c s' => if is_ws c then skip_ws s' else s
  end.

Definition hex_value (c : ascii) : option nat :=
  let n := nat_of_ascii c in
  if ((48 <=? n) && (n <=? 57))%nat then Some (n - 48)
  else if ((97 <=? n) && (n <=? 102))%nat then Some (n - 87)
  else if ((65 <=? n) && (n <=? 70))%nat then Some (n - 55)
  else None.

(** The character of [\uXXXX], when it is below 256. *)
Definition unicode_escape (h1 h2 h3 h4 : ascii) : option ascii :=
  match hex_value h1, hex_value h2, hex_value h3, hex_value h4 with
  | Some a, Some b, Some c, Some d =>
    if ((a =? 0) && (b =? 0))%nat then Some (ascii_of_nat (16 * c + d))
    else None
  | _, _, _, _ => None
  end.

Definition simple_escape (c : ascii) : option ascii :=
  if Ascii.eqb c dquote then Some dquote
  else if Ascii.eqb c backslash then Some backslash
  else if Ascii.eqb c "/" then Some "/"%char
  else if Ascii.eqb c "b" then Some "008"%char
  else if Ascii.eqb c "f" then Some "012"%char
  else if Ascii.eqb c "n" then Some "010"%char
  else if Ascii.eqb c "r" then Some "013"%char
  else if Ascii.eqb c "t" then Some "009"%char
  else None.

Definition cons_char (c : ascii) (r : option (string * string))
  : option (string * string) :=
  match r with
  | Some (str, rest) => Some (String c str, rest)
  | None => None
  end.

(** [scanstring] after the opening quote: the string and the text after
    its closing quote.  A raw control character is refused. *)
Fixpoint parse_string (s : string) : option (string * string) :=
  match s with
  | EmptyString => None
  | String c rest =>
    if Ascii.eqb c dquote then Some (EmptyString, rest)
    else if Ascii.eqb c backslash then
      match rest with
      | EmptyString => None
      | String e rest' =>
        if Ascii.eqb e "u" then
          match rest' with
          | String h1 (String h2 (String h3 (String h4 rest''))) =>
            match unicode_escape h1 h2 h3 h4 with
            | Some x => cons_char x (parse_string rest'')
            | None => None
            end
          | _ => None
          end
        else
          match simple_escape e with
          | Some x => cons_char x (parse_string rest')
          | None => None
          end
      end
    else if (nat_of_ascii c <? 32)%nat then None
    else cons_char c (parse_string rest)
  end.

Definition is_digit (c : ascii) : bool :=
  ((48 <=? nat_of_ascii c) && (nat_of_ascii c <=? 57))%nat.

(** The longest run of digits at the start of the text. *)
Fixpoint parse_digits (s : string) : Decimal.uint * string :=
  match s with
  | EmptyString => (Decimal.Nil, s)
  | String c rest =>
    if is_digit c then
      let (d, rest') := parse_digits rest in
      match DecimalString.uint_of_char c (Some d) with
      | Some d' => (d', rest')
      | None => (Decimal.Nil, s)
      end
    else (Decimal.Nil, s)
  end.

(** What may not follow the integer part: a fraction or an exponent would
    make the number a float. *)
Definition starts_float_part (s : string) : bool :=
  match s with
  | EmptyString => false
  | String c _ => Ascii.eqb c "." || Ascii.eqb c "e" || Ascii.eqb c "E"
  end.

(** [NUMBER_RE] without fraction and exponent: [0] or a digit run that
    does not start with [0]. *)
Definition parse_nat (s : string) : option (N * string) :=
  let (d, rest) := parse_digits s in
  match d with
  | Decimal.Nil => None
  | Decimal.D0 Decimal.Nil =>
    if starts_float_part rest then None else Some (0%N, rest)
  | Decimal.D0 _ => None
  | _ => if starts_float_part rest then None else Some (N.of_uint d, rest)
  end.

Definition parse_number (s : string) : option (value * string) :=
  match s with
  | EmptyString => None
  | String c rest =>
    if Ascii.eqb c "-" then
      match parse_nat rest with
      | Some (n, rest') => Some (VInt (- Z.of_N n), rest')
      | None => None
      end
    else
      match parse_nat s with
      | Some (n, rest') => Some (VInt (Z.of_N n), rest')
      | None => None
      end
  end.

(** The text after [word], when the text starts with it. *)
Fixpoint strip_prefix (word s : string) : option string :=
  match word with
  | EmptyString => Some s
  | String w word' =>
    match s with
    | EmptyString => None
    | String c s' => if Ascii.eqb w c then strip_prefix word' s' else None
    end
  end.

(** A literal: the text has to go on with [word]. *)
Definition literal (word : string) (v : value) (s : string)
  : option (value * string) :=
  match strip_prefix word s with
  | Some rest => Some (v, rest)
  | None => None
  end.

(** [dict(pairs)]: a repeated key keeps its first place and its last
    value. *)
Definition dict_of_pairs (pairs : list (string * value)) : list (string * value) :=
  fold_left (fun d kv => dict_set d (fst kv) (snd kv)) pairs [].

(** [scan_once], [JSONArray] and [JSONObject].  [fuel] bounds the nesting
    and the number of items read on the way. *)
Fixpoint parse_value (fuel : nat) (s : string) {struct fuel}
  : option (value * string) :=
  match fuel with
  | O => None
  | S fuel' =>
    match s with
    | EmptyString => None
    | String c rest =>
      if Ascii.eqb c dquote then
        match parse_string rest with
        | Some (str, rest') => Some (VStr str, rest')
        | None => None
        end
      else if Ascii.eqb c "{" then
        match skip_ws rest with
        | EmptyString => None
        | String c' rest' =>
          if Ascii.eqb c' "}" then Some (VDict [], rest')
          else
            match parse_members fuel' (String c' rest') [] with
            | Some (pairs, rest'') => Some (VDict (dict_of_pairs pairs), rest'')
            | None => None
            end
        end
      else if Ascii.eqb c "[" then
        match skip_ws rest with
        | EmptyString => None
        | String c' rest' =>
          if Ascii.eqb c' "]" then Some (VList [], rest')
          else
            match parse_items fuel' (String c' rest') [] with
            | Some (items, rest'') => Some (VList items, rest'')
            | None => None
            end
        end
      else if Ascii.eqb c "n" then literal "null" VNone s
      else if Ascii.eqb c "t" then literal "true" (VBool true) s
      else if Ascii.eqb c "f" then literal "false" (VBool false) s
      else parse_number s
    end
  end

with parse_items (fuel : nat) (s : string) (items : list value) {struct fuel}
  : option (list value * string) :=
  match fuel with
  | O => None
  | S fuel' =>
    match parse_value fuel' s with
    | None => None
    | Some (v, rest) =>
      match skip_ws rest with
      | EmptyString => None
      | String c rest' =>
        if Ascii.eqb c "," then parse_items fuel' (skip_ws rest') (items ++ [v])
        else if Ascii.eqb c "]" then Some (items ++ [v], rest')
        else None
      end
    end
  end

with parse_members (fuel : nat) (s : string) (pairs : list (string * value))
    {struct fuel} : option (list (string * value) * string) :=
  match fuel with
  | O => None
  | S fuel' =>
    match s with
    | EmptyString => None
    | String q rest =>
      if negb (Ascii.eqb q dquote) then None
      else
        match parse_string rest with
        | None => None
        | Some (key, rest1) =>
          match skip_ws rest1 with
          | EmptyString => None
          | String colon rest2 =>
            if negb (Ascii.eqb colon ":") then None
            else
              match parse_value fuel' (skip_ws rest2) with
              | None => None
              | Some (v, rest3) =>
                match skip_ws rest3 with
                | EmptyString => None
                | String c rest4 =>
                  if Ascii.eqb c "," then
                    parse_members fuel' (skip_ws rest4) (pairs ++ [(key, v)])
                  else if Ascii.eqb c "}" then Some (pairs ++ [(key, v)], rest4)
                  else None
                end
              end
          end
        end
    end
  end.

(** [json.loads]: blanks, one value, blanks, and nothing more. *)
Definition loads (text : string) : option value :=
  let s := skip_ws text in
  match parse_value (String.length s) s with
  | Some (v, rest) =>
    match skip_ws rest with
    | EmptyString => Some v
    | _ => None
    end
  | None => None
  end.

(** *** Values that [json] writes natively *)

Fixpoint distinct (keys : list string) : bool :=
  match keys with
  | [] => true
  | k :: keys' => negb (mem k keys') && distinct keys'
  end.

(** No object goes through [default=str], and the keys of a dictionary
    differ from each other. *)
Fixpoint native (v : value) : bool :=
  match v with
  | VNone | VBool _ | VInt _ | VStr _ => true
  | VList l => forallb native l
  | VDict d => distinct (map fst d) && forallb (fun kv => native (snd kv)) d
  | VObj _ => false
  end.

(** Fuel that reading a value back takes: one unit per value and per item. *)
Fixpoint cost (v : value) : nat :=
  match v with
  | VList l => S (fold_right (fun x n => S (cost x + n)) 0 l)
  | VDict d => S (fold_right (fun kv n => S (cost (snd kv) + n)) 0 d)
  | _ => 1
  end.

(** Text that ends a number written before it. *)
Definition ends_value (rest : string) : bool :=
  match rest with
  | EmptyString => true
  | String c _ => negb (is_digit c) && negb (starts_float_part rest)
  end.

(** Text that starts with the first character of a value. *)
Definition starts_value (s : string) : bool :=
  match s with
  | EmptyString => false
  | String c _ =>
    negb (is_ws c) && negb (Ascii.eqb c "]") && negb (Ascii.eqb c "}")
  end.

(** Reading back what was written gives the value and the text behind. *)
Definition reads_back (v : value) : Prop :=
  forall level rest fuel,
    cost v <= fuel -> ends_value rest = true ->
    parse_value fuel (encode level v ++ rest) = Some (v, rest).

(** *** What the collectors hand over

    The typed fields of the VPC and subnet models are native by their
    types; their tag dictionaries have distinct keys, and the gateway, route
    table, security group and endpoint entries are native values.  The
    other collectors return native values. *)

Definition native_subnet (s : Models.SubnetModel.t) : bool :=
  distinct (map fst (Models.SubnetModel.tags s)).

Definition native_vpc (v : Models.VPCModel.t) : bool :=
  distinct (map fst (Models.VPCModel.tags v))
  && forallb native_subnet (Models.VPCModel.subnets v)
  && forallb native (Models.VPCModel.internet_gateways v)
  && forallb native (Models.VPCModel.nat_gateways v)
  && forallb native (Models.VPCModel.route_tables v)
  && forallb native (Models.VPCModel.security_groups v)
  && forallb native (Models.VPCModel.vpc_endpoints v).

Definition native_result (r : result value) : bool :=
  match r with
  | Ok v => native v
  | Raise _ => true
  end.

Definition native_list_result (r : result (list value)) : bool :=
  match r with
  | Ok l => forallb native l
  | Raise _ => true
  end.

Definition native_collectors (cs : Inventory.collectors) : bool :=
  match Inventory.vpc_collect cs with
  | Ok vpcs => forallb native_vpc vpcs
  | Raise _ => true
  end
  && native_result (Inventory.collect_ec2_instances cs)
  && native_list_result (Inventory.ecs_collect cs)
  && native_list_result (Inventory.eks_collect cs)
  && native_result (Inventory.rds_collect cs)
  && native_result (Inventory.redis_collect cs)
  && native_result (Inventory.elb_collect cs)
  && native_result (Inventory.eb_collect cs)
  && native_result (Inventory.redshift_collect cs).

(** A dictionary as [native] wants it. *)
Definition native_dict (d : dict value) : Prop :=
  NoDup (map fst d) /\ Forall (fun kv => native (snd kv) = true) d.

End Json.

(** ** Scenarios *)

Module Scenario.

(** The scenario of the specification: a service in [subnet-a] of
    [vpc-1], in a cluster whose name has nothing of the VPC's name. *)
Definition vpc1 : Doc.Vpc.t :=
  {| Doc.Vpc.vpc_id := "vpc-1";
     Doc.Vpc.name := Some "payments";
     Doc.Vpc.tags := [("Name", "payments")];
     Doc.Vpc.subnets := [ {| Doc.Subnet.subnet_id := "subnet-a" |} ] |}.

Definition api : Doc.Service.t :=
  {| Doc.Service.service_name := "api";
     Doc.Service.subnets := ["subnet-a"] |}.

Definition blue : Doc.ECSCluster.t :=
  {| Doc.ECSCluster.cluster_name := "blue";
     Doc.ECSCluster.services := [api] |}.

(** An EKS worker whose Kubernetes node is registered under a name of its
    own, not the default private DNS name. *)
Definition worker : Doc.Instance.t :=
  {| Doc.Instance.instance_id := "i-0abc";
     Doc.Instance.state := Some "running";
     Doc.Instance.vpc_id := Some "vpc-1";
     Doc.Instance.private_ip := Some "10.0.1.5";
     Doc.Instance.name := Some "worker";
     Doc.Instance.tags :=
       [("eks:cluster-name", "prod"); ("eks:nodegroup-name", "ng1")] |}.

Definition custom_named_nodes : Py.dict (list Doc.Pod.t) :=
  [("node-a.internal.example",
    [ {| Doc.Pod.pod_name := "web-1";
         Doc.Pod.namespace := Some "default";
         Doc.Pod.status := Some "Running" |} ])].

(** A region where the RDS collector raises and the others return. *)
Definition rds_down : Inventory.collectors :=
  {| Inventory.vpc_collect := Py.Ok [];
     Inventory.collect_ec2_instances := Py.Ok (Py.VList []);
     Inventory.ecs_collect := Py.Ok [];
     Inventory.eks_collect := Py.Ok [];
     Inventory.rds_collect := Py.Raise "AccessDenied";
     Inventory.redis_collect := Py.Ok (Py.VDict []);
     Inventory.elb_collect := Py.Ok (Py.VDict []);
     Inventory.eb_collect := Py.Ok (Py.VDict []);
     Inventory.redshift_collect := Py.Ok (Py.VDict []) |}.

(** A collection run over two regions: the first has one VPC with a
    subnet and an internet gateway, the session of the second fails. *)
Definition subnet_a : Models.SubnetModel.t :=
  Models.SubnetModel.from_aws_response
    {| Models.SubnetModel.SubnetId := "subnet-a";
       Models.SubnetModel.VpcId := "vpc-1";
       Models.SubnetModel.CidrBlock := "10.0.1.0/24";
       Models.SubnetModel.AvailabilityZone := "eu-west-1a";
       Models.SubnetModel.AvailabilityZoneId := "euw1-az1";
       Models.SubnetModel.State := "available";
       Models.SubnetModel.MapPublicIpOnLaunch := Some true;
       Models.SubnetModel.Tags := [("Name", "public a"); ("env", "prod")] |}.

Definition vpc1_model : Models.VPCModel.t :=
  {| Models.VPCModel.vpc_id := "vpc-1";
     Models.VPCModel.cidr_block := "10.0.0.0/16";
     Models.VPCModel.state := "available";
     Models.VPCModel.is_default := false;
     Models.VPCModel.region := "eu-west-1";
     Models.VPCModel.name := Some "payments";
     Models.VPCModel.tags := Models.tags_dict [("Name", "payments")];
     Models.VPCModel.subnets := [subnet_a];
     Models.VPCModel.internet_gateways :=
       [ Py.VDict
           [ ("internet_gateway_id", Py.VStr "igw-1");
             ("attachments",
              Py.VList [ Py.VDict [ ("State", Py.VStr "available");
                                    ("VpcId", Py.VStr "vpc-1") ] ]);
             ("tags", Py.VDict []) ] ];
     Models.VPCModel.nat_gateways := [];
     Models.VPCModel.route_tables := [];
     Models.VPCModel.security_groups :=
       [ Py.VDict
           [ ("group_id", Py.VStr "sg-1");
             ("group_name", Py.VStr "default");
             ("description", Py.VNone);
             ("vpc_id", Py.VStr "vpc-1");
             ("ingress_rules_count", Py.VInt 2);
             ("egress_rules_count", Py.VInt 1);
             ("tags", Py.VDict []) ] ];
     Models.VPCModel.vpc_endpoints := [] |}.

Definition vpc_only : Inventory.collectors :=
  {| Inventory.vpc_collect := Py.Ok [vpc1_model];
     Inventory.collect_ec2_instances := Py.Ok (Py.VList []);
     Inventory.ecs_collect := Py.Ok [];
     Inventory.eks_collect := Py.Ok [];
     Inventory.rds_collect := Py.Raise "AccessDenied";
     Inventory.redis_collect := Py.Ok (Py.VDict []);
     Inventory.elb_collect := Py.Ok (Py.VDict []);
     Inventory.eb_collect := Py.Ok (Py.VDict []);
     Inventory.redshift_collect := Py.Ok (Py.VDict []) |}.

Definition two_regions : Inventory.provider :=
  {| Inventory.open_session :=
       fun region =>
         if String.eqb region "eu-west-1" then Py.Ok tt
         else Py.Raise "InvalidClientTokenId";
     Inventory.region_collectors := fun _ => vpc_only;
     Inventory.now := "2024-05-01T10:00:00+00:00" |}.

Definition two_region_document : Py.value :=
  Inventory.inventory_document two_regions "123456789012"
    "2024-05-01T10:00:02+00:00" None (Py.Raise "AccessDenied")
    ["eu-west-1"; "us-east-1"] ["vpc"; "rds"].

End Scenario.

(** ** Auxiliary notions for the orchestrator *)

Module Orchestration.
Import Py.

(** What a result or its replacement is. *)
Definition or_default (r : result value) (empty : value) : value :=
  match r with
  | Ok v => v
  | Raise _ => empty
  end.

End Orchestration.

(** ** collectors/vpc_collector.py: the instance entries *)

Module VPCCollector.
Import Py.

(** The fields of a [describe_instances] entry that end up in the keys the
    generators read: [StateName] is [i.get("State", {}).get("Name")]. *)
Record aws_instance : Type := {
  InstanceId : string;
  StateName : option string;
  VpcId : option string;
  PrivateIpAddress : option string;
  Tags : Models.aws_tags
}.

(** One entry of [_simplify_ec2_instances]: the name is the value of the
    first tag whose key is "Name", or [None]. *)
Definition simplify_instance (i : aws_instance) : Doc.Instance.t :=
  {| Doc.Instance.instance_id := InstanceId i;
     Doc.Instance.state := StateName i;
     Doc.Instance.vpc_id := VpcId i;
     Doc.Instance.private_ip := PrivateIpAddress i;
     Doc.Instance.name := Models.get_name_from_tags (Tags i);
     Doc.Instance.tags := Models.tags_dict (Tags i) |}.

Definition simplify_ec2_instances (instances : list aws_instance)
  : list Doc.Instance.t :=
  map simplify_instance instances.

(** A running instance that carries no Name tag. *)
Definition running_without_name (i : aws_instance) : bool :=
  match StateName i with
  | Some s => String.eqb s "running"
  | None => false
  end
  && negb (mem "Name" (map fst (Tags i))).

End VPCCollector.

(** ** More of diagram_generator_detailed.py *)

Module Helpers.
Import Py Doc.

(** *** extract_service_name *)

(** The text after [word], when the text starts with it. *)
Fixpoint drop_prefix (word s : string) : option string :=
  match word with
  | EmptyString => Some s
  | String w word' =>
    match s with
    | EmptyString => None
    | String c s' => if Ascii.eqb w c then drop_prefix word' s' else None
    end
  end.

(** The longest run of characters other than [sep] at the start: what
    [[^:]+] takes, and what [split(':')[0]] returns. *)
Fixpoint until (sep : ascii) (s : string) : string :=
  match s with
  | EmptyString => EmptyString
  | String c s' => if Ascii.eqb c sep then EmptyString else String c (until sep s')
  end.

(** A match of [task-definition/([^:]+)] that starts at the start of the
    text: its group. *)
Definition match_here (s : string) : option string :=
  match drop_prefix "task-definition/" s with
  | Some rest =>
    match until ":" rest with
    | EmptyString => None
    | group => Some group
    end
  | None => None
  end.

(** [re.search]: the leftmost match. *)
Fixpoint search (s : string) : option string :=
  match match_here s with
  | Some group => Some group
  | None =>
    match s with
    | EmptyString => None
    | String _ s' => search s'
    end
  end.

Fixpoint has_char (c : ascii) (s : string) : bool :=
  match s with
  | EmptyString => false
  | String x s' => Ascii.eqb x c || has_char c s'
  end.

(** [s.split(sep)[-1]]: the text after the last [sep], or all of it. *)
Fixpoint after_last (sep : ascii) (s : string) : string :=
  match s with
  | EmptyString => EmptyString
  | String c s' =>
    if has_char sep s' then after_last sep s'
    else if Ascii.eqb c sep then s' else s
  end.

Definition extract_service_name (task_def_arn : option string) : string :=
  match task_def_arn with
  | None => "unknown"
  | Some EmptyString => "unknown"
  | Some arn =>
    match search arn with
    | Some group => group
    | None => until ":" (after_last "/" arn)
    end
  end.

(** *** The output file of a VPC's diagram in [main] *)

Definition safe_name (vpc_name : string) : string :=
  replace "-" "_" (replace "/" "_" (replace " " "_" vpc_name)).

Definition output_file (output region_name vpc_name : string) : string :=
  (output ++ "_" ++ region_name ++ "_" ++ safe_name vpc_name)%string.

(** The characters [safe_name] replaces. *)
Definition unsafe_char (c : ascii) : bool :=
  Ascii.eqb c " " || Ascii.eqb c "/" || Ascii.eqb c "-".

(** *** get_eks_node_instances *)

Definition tag (inst : Instance.t) (key : string) : string :=
  get_default (dict_get (Instance.tags inst) key) "".

(** [d.setdefault(key, []).append(x)] *)
Definition setdefault_append {A : Type} (d : dict (list A)) (key : string)
    (x : A) : dict (list A) :=
  dict_set d key (get_default (dict_get d key) [] ++ [x]).

Definition get_eks_node_instances (ec2_list : list Instance.t)
    (cluster_name : string) : dict (list Instance.t) :=
  fold_left
    (fun ng_instances inst =>
       if negb (Detailed.is_running inst) then ng_instances
       else
         let inst_cluster := tag inst "eks:cluster-name" in
         let inst_ng := tag inst "eks:nodegroup-name" in
         if String.eqb inst_cluster cluster_name && Detailed.nonempty inst_ng
         then setdefault_append ng_instances inst_ng inst
         else ng_instances)
    ec2_list [].

(** The instances of a node group of a cluster, as the loop selects them. *)
Definition in_node_group (cluster_name ng_name : string) (inst : Instance.t)
  : bool :=
  Detailed.is_running inst
  && String.eqb (tag inst "eks:cluster-name") cluster_name
  && Detailed.nonempty (tag inst "eks:nodegroup-name")
  && String.eqb (tag inst "eks:nodegroup-name") ng_name.

(** *** get_pods_for_cluster *)

(** An entry of the workload file: [pods_by_node] when the key is there. *)
Record workload : Type := {
  pods_by_node : option (dict (list Pod.t))
}.

(** [k8s_workloads] is [None] when the caller passes nothing. *)
Definition get_pods_for_cluster (k8s_workloads : option (dict workload))
    (cluster_name : string) : dict (list Pod.t) :=
  match k8s_workloads with
  | None => []
  | Some [] => []
  | Some workloads =>
    match dict_get workloads cluster_name with
    | None => []
    | Some cluster_data => get_default (pods_by_node cluster_data) []
    end
  end.

(** The key under which the pods of an instance are looked up. *)
Definition dns_key (private_ip region : string) : string :=
  ("ip-" ++ replace "." "-" private_ip ++ "." ++ region
         ++ ".compute.internal")%string.

(** The pods counted for an instance: none without a private IP (the
    count is not reached then). *)
Definition pods_counted (pods_by_node : dict (list Pod.t)) (region : string)
    (inst : Instance.t) : nat :=
  match Instance.private_ip inst with
  | Some ip => length (get_default (dict_get pods_by_node (dns_key ip region)) [])
  | None => 0
  end.

Definition has_private_ip (inst : Instance.t) : bool :=
  match Instance.private_ip inst with
  | Some _ => true
  | None => false
  end.

End Helpers.

(** ** collectors/k8s_collector.py: pods by node *)

Module K8sCollector.
Import Py.

(** What the collector reads of a pod of the cluster. *)
Record pod : Type := {
  name : string;
  namespace : string;
  node_name : option string;
  phase : option string
}.

(** [pod.spec.node_name or "unscheduled"] *)
Definition group_of (p : pod) : string :=
  match node_name p with
  | None => "unscheduled"
  | Some EmptyString => "unscheduled"
  | Some n => n
  end.

Definition pod_info (p : pod) : Doc.Pod.t :=
  {| Doc.Pod.pod_name := name p;
     Doc.Pod.namespace := Some (namespace p);
     Doc.Pod.status := phase p |}.

(** The loop over [pod_list.items] that fills [pods_by_node]. *)
Definition pods_by_node (items : list pod) : dict (list Doc.Pod.t) :=
  fold_left
    (fun by_node p => Helpers.setdefault_append by_node (group_of p) (pod_info p))
    items [].

End K8sCollector.

(** ** More of diagram_generator_drawio.py *)

Module DrawioFilters.
Import Py Doc.

Definition name_lower (name : string) : string :=
  Detailed.strip " " (Detailed.strip "_" (Detailed.strip "-" (lower name))).

Definition name_match (vpc_name : string) (cluster : ECSCluster.t) : bool :=
  let vpc_name_lower := name_lower vpc_name in
  let cluster_name_lower := name_lower (ECSCluster.cluster_name cluster) in
  contains cluster_name_lower vpc_name_lower
  || contains vpc_name_lower cluster_name_lower.

Definition subnet_match (subnet_ids : list string) (cluster : ECSCluster.t)
  : bool :=
  existsb (fun svc => existsb (fun s => mem s subnet_ids) (Service.subnets svc))
          (ECSCluster.services cluster).

Definition vpc_ecs (vpc_data : Vpc.t) (ecs_clusters : list ECSCluster.t)
  : list ECSCluster.t :=
  let vpc_name := Detailed.get_resource_name vpc_data in
  filter (fun cluster =>
            name_match vpc_name cluster
            || subnet_match (Detailed.vpc_subnet_ids vpc_data) cluster)
         ecs_clusters.

(** No whitespace character in the text. *)
Fixpoint no_blank (s : string) : bool :=
  match s with
  | EmptyString => true
  | String c s' => negb (is_space c) && no_blank s'
  end.

End DrawioFilters.

(** ** The parts [str.split()] returns, as Python documents them *)

Module Tokens.
Import Py.

Definition first_char (s : string) : option ascii :=
  match s with
  | EmptyString => None
  | String c _ => Some c
  end.

Fixpoint last_char (s : string) : option ascii :=
  match s with
  | EmptyString => None
  | String c s' =>
    match last_char s' with
    | Some d => Some d
    | None => Some c
    end
  end.

(** What stands next to a part: a whitespace character, or nothing at an
    end of the text. *)
Definition edge (o : option ascii) : bool :=
  match o with
  | Some c => is_space c
  | None => true
  end.

(** [part] is a whitespace-delimited part of [s]: a run of characters of
    [s] that is not empty, holds no whitespace character, and has one, or
    an end of the text, on each side. *)
Definition token (part s : string) : Prop :=
  part <> EmptyString
  /\ DrawioFilters.no_blank part = true
  /\ exists pre post,
       s = (pre ++ part ++ post)%string
       /\ edge (last_char pre) = true
       /\ edge (first_char post) = true.

End Tokens.

(** ** What [json.dump(..., default=str)] does to a value *)

Module JsonLaws.
Import Py.

(** The value with every object replaced by its [str()]. *)
Fixpoint stringify (v : value) : value :=
  match v with
  | VObj repr => VStr repr
  | VList l => VList (map stringify l)
  | VDict d => VDict (map (fun kv => (fst kv, stringify (snd kv))) d)
  | _ => v
  end.

(** The keys of every dictionary differ from each other. *)
Fixpoint distinct_keys (v : value) : bool :=
  match v with
  | VList l => forallb distinct_keys l
  | VDict d =>
    Json.distinct (map fst d) && forallb (fun kv => distinct_keys (snd kv)) d
  | _ => true
  end.

End JsonLaws.

(** ** models/ecs.py and collectors/ecs_collector.py *)

Module ECSModels.
Import Py.

(** ECS tags come as [{"key": k, "value": v}]. *)
Definition ecs_tags : Type := list (string * string).

(** [{t["key"]: t["value"] for t in tags} if tags else {}] *)
Definition tags_dict (tags : ecs_tags) : dict string :=
  fold_left (fun d kv => dict_set d (fst kv) (snd kv)) tags [].

(** The fields of a [describe_services] entry that the model reads;
    [subnets] and [securityGroups] are those of
    [networkConfiguration.awsvpcConfiguration], when they are there. *)
Record aws_service : Type := {
  serviceName : string;
  serviceArn : string;
  s_clusterArn : string;
  s_status : string;
  desiredCount : option Z;
  runningCount : option Z;
  pendingCount : option Z;
  launchType : option string;
  taskDefinition : option string;
  loadBalancers : option (list value);
  awsvpc_subnets : option (list string);
  awsvpc_securityGroups : option (list string);
  s_tags : ecs_tags
}.

Record ECSServiceModel : Type := {
  service_name : string;
  service_arn : string;
  service_cluster_arn : string;
  service_status : string;
  desired_count : Z;
  running_count : Z;
  pending_count : Z;
  launch_type : option string;
  task_definition : option string;
  load_balancers : list value;
  subnets : list string;
  security_groups : list string;
  service_tags : dict string
}.

Definition service_from_aws_response (data : aws_service) : ECSServiceModel :=
  {| service_name := serviceName data;
     service_arn := serviceArn data;
     service_cluster_arn := s_clusterArn data;
     service_status := s_status data;
     desired_count := get_default (desiredCount data) 0%Z;
     running_count := get_default (runningCount data) 0%Z;
     pending_count := get_default (pendingCount data) 0%Z;
     launch_type := launchType data;
     task_definition := taskDefinition data;
     load_balancers := get_default (loadBalancers data) [];
     subnets := get_default (awsvpc_subnets data) [];
     security_groups := get_default (awsvpc_securityGroups data) [];
     service_tags := tags_dict (s_tags data) |}.

(** The fields of a [describe_clusters] entry that the model reads. *)
Record aws_cluster : Type := {
  clusterName : string;
  clusterArn : string;
  c_status : string;
  registeredContainerInstancesCount : option Z;
  runningTasksCount : option Z;
  pendingTasksCount : option Z;
  activeServicesCount : option Z;
  capacityProviders : option (list string);
  c_tags : ecs_tags
}.

Record ECSClusterModel : Type := {
  cluster_name : string;
  cluster_arn : string;
  status : string;
  region : string;
  registered_container_instances_count : Z;
  running_tasks_count : Z;
  pending_tasks_count : Z;
  active_services_count : Z;
  capacity_providers : list string;
  services : list ECSServiceModel;
  tags : dict string
}.

Definition cluster_from_aws_response (data : aws_cluster) (region : string)
  : ECSClusterModel :=
  {| cluster_name := clusterName data;
     cluster_arn := clusterArn data;
     status := c_status data;
     region := region;
     registered_container_instances_count :=
       get_default (registeredContainerInstancesCount data) 0%Z;
     running_tasks_count := get_default (runningTasksCount data) 0%Z;
     pending_tasks_count := get_default (pendingTasksCount data) 0%Z;
     active_services_count := get_default (activeServicesCount data) 0%Z;
     capacity_providers := get_default (capacityProviders data) [];
     services := [];
     tags := tags_dict (c_tags data) |}.

(** [cluster.services = ...] *)
Definition with_services (cluster : ECSClusterModel)
    (services : list ECSServiceModel) : ECSClusterModel :=
  {| cluster_name := cluster_name cluster;
     cluster_arn := cluster_arn cluster;
     status := status cluster;
     region := region cluster;
     registered_container_instances_count :=
       registered_container_instances_count cluster;
     running_tasks_count := running_tasks_count cluster;
     pending_tasks_count := pending_tasks_count cluster;
     active_services_count := active_services_count cluster;
     capacity_providers := capacity_providers cluster;
     services := services;
     tags := tags cluster |}.

End ECSModels.

Module ECSCollector.
Import Py ECSClient ECSModels.

Section Collect.

(** The provider: what the paginated list operations return (their pages
    put together), and what it answers to the describe calls.  The log
    holds the describe calls. *)
Variable list_clusters : list string.
Variable list_services : string -> list string.
Variable respond_clusters : api_call -> option (list aws_cluster).
Variable respond_services : api_call -> option (list aws_service).

(** The body of the loop over [raw_clusters]. *)
Definition collect_cluster (region : string) (raw_cluster : aws_cluster)
    (clusters : list ECSClusterModel) : M (list ECSClusterModel) :=
  let cluster := cluster_from_aws_response raw_cluster region in
  let service_arns := list_services (cluster_arn cluster) in
  match service_arns with
  | [] => ret (clusters ++ [cluster])
  | _ =>
    raw_services <- describe_services aws_service respond_services
                      (cluster_arn cluster) service_arns ;;
    ret (clusters
         ++ [with_services cluster
               (map service_from_aws_response raw_services)])
  end.

Definition collect (region : string) : M (list ECSClusterModel) :=
  let cluster_arns := list_clusters in
  match cluster_arns with
  | [] => ret []
  | _ =>
    raw_clusters <- describe_clusters aws_cluster respond_clusters
                      cluster_arns ;;
    for_each raw_clusters (collect_cluster region) []
  end.

(** What the provider describes: the clusters, and the services of a
    cluster. *)
Definition described_clusters : list aws_cluster :=
  flat_map (fun b => get_default (respond_clusters (DescribeClusters b)) [])
           (batches 100 list_clusters).

Definition described_services (arn : string) : list aws_service :=
  flat_map
    (fun b => get_default (respond_services (DescribeServices arn b)) [])
    (batches 10 (list_services arn)).

(** The cluster model that [collect] builds from a description. *)
Definition collected_cluster (region : string) (raw : aws_cluster)
  : ECSClusterModel :=
  with_services (cluster_from_aws_response raw region)
    (map service_from_aws_response (described_services (clusterArn raw))).

(** The describe calls for the services of a cluster. *)
Definition service_calls (raw : aws_cluster) : list api_call :=
  map (DescribeServices (clusterArn raw))
      (batches 10 (list_services (clusterArn raw))).

End Collect.

(** The provider's cap on the identifiers of a call. *)
Definition cap (c : api_call) : nat :=
  match c with
  | DescribeClusters _ => 100
  | DescribeServices _ _ => 10
  | DescribeTasks _ _ => 100
  end.

End ECSCollector.

(** ** collectors/vpc_collector.py: [collect] *)

Module VPCCollect.
Import Py Models.

(** The fields of a [describe_vpcs] entry that the model reads. *)
Record aws_vpc : Type := {
  VpcId : string;
  CidrBlock : string;
  State : string;
  IsDefault : option bool;
  Tags : aws_tags
}.

(** [VPCModel.from_aws_response] *)
Definition from_aws_response (data : aws_vpc) (region : string)
  : VPCModel.t :=
  {| VPCModel.vpc_id := VpcId data;
     VPCModel.cidr_block := CidrBlock data;
     VPCModel.state := State data;
     VPCModel.is_default := get_default (IsDefault data) false;
     VPCModel.region := region;
     VPCModel.name := get_name_from_tags (Tags data);
     VPCModel.tags := tags_dict (Tags data);
     VPCModel.subnets := [];
     VPCModel.internet_gateways := [];
     VPCModel.nat_gateways := [];
     VPCModel.route_tables := [];
     VPCModel.security_groups := [];
     VPCModel.vpc_endpoints := [] |}.

Section Collect.

(** The provider: the VPCs of the region and the subnets of a VPC; the
    other resources of a VPC are taken as [_simplify_*] returns them. *)
Variable describe_vpcs : list aws_vpc.
Variable describe_subnets : string -> list SubnetModel.aws_response.
Variable simplified_igws : string -> list value.
Variable simplified_nat_gws : string -> list value.
Variable simplified_route_tables : string -> list value.
Variable simplified_security_groups : string -> list value.
Variable simplified_vpc_endpoints : string -> list value.

(** The body of the loop over [raw_vpcs]. *)
Definition collect_vpc (region : string) (raw_vpc : aws_vpc) : VPCModel.t :=
  let vpc := from_aws_response raw_vpc region in
  let vpc_id := VPCModel.vpc_id vpc in
  {| VPCModel.vpc_id := VPCModel.vpc_id vpc;
     VPCModel.cidr_block := VPCModel.cidr_block vpc;
     VPCModel.state := VPCModel.state vpc;
     VPCModel.is_default := VPCModel.is_default vpc;
     VPCModel.region := VPCModel.region vpc;
     VPCModel.name := VPCModel.name vpc;
     VPCModel.tags := VPCModel.tags vpc;
     VPCModel.subnets :=
       map SubnetModel.from_aws_response (describe_subnets vpc_id);
     VPCModel.internet_gateways := simplified_igws vpc_id;
     VPCModel.nat_gateways := simplified_nat_gws vpc_id;
     VPCModel.route_tables := simplified_route_tables vpc_id;
     VPCModel.security_groups := simplified_security_groups vpc_id;
     VPCModel.vpc_endpoints := simplified_vpc_endpoints vpc_id |}.

Definition collect (region : string) : list VPCModel.t :=
  map (collect_vpc region) describe_vpcs.

End Collect.

(** The entry of [vpcs] as the generators read it: the keys of [to_dict]
    that they look at. *)
Definition document (self : VPCModel.t) : Doc.Vpc.t :=
  {| Doc.Vpc.vpc_id := VPCModel.vpc_id self;
     Doc.Vpc.name := VPCModel.name self;
     Doc.Vpc.tags := VPCModel.tags self;
     Doc.Vpc.subnets :=
       map (fun s => {| Doc.Subnet.subnet_id := SubnetModel.subnet_id s |})
           (VPCModel.subnets self) |}.

(** The Name tag when it is there and not empty, else the identifier. *)
Definition name_or_id (tags : aws_tags) (id : string) : string :=
  match get_name_from_tags tags with
  | Some EmptyString => id
  | Some n => n
  | None => id
  end.

End VPCCollect.

(** ** More inputs *)

Module Provider.
Import Models.

(** A subnet of vpc-1, as [describe_subnets] returns it. *)
Definition subnet_a_response : SubnetModel.aws_response :=
  {| SubnetModel.SubnetId := "subnet-a";
     SubnetModel.VpcId := "vpc-1";
     SubnetModel.CidrBlock := "10.0.1.0/24";
     SubnetModel.AvailabilityZone := "eu-west-1a";
     SubnetModel.AvailabilityZoneId := "euw1-az1";
     SubnetModel.State := "available";
     SubnetModel.MapPublicIpOnLaunch := None;
     SubnetModel.Tags := [] |}.

(** A VPC tagged Name = payments and env = prod. *)
Definition vpc_response : VPCCollect.aws_vpc :=
  {| VPCCollect.VpcId := "vpc-1";
     VPCCollect.CidrBlock := "10.0.0.0/16";
     VPCCollect.State := "available";
     VPCCollect.IsDefault := None;
     VPCCollect.Tags := [("env", "prod"); ("Name", "payments")] |}.

(** An EKS worker that carries no Name tag, as [describe_instances]
    returns it. *)
Definition nameless_worker : VPCCollector.aws_instance :=
  {| VPCCollector.InstanceId := "i-0abc";
     VPCCollector.StateName := Some "running";
     VPCCollector.VpcId := Some "vpc-1";
     VPCCollector.PrivateIpAddress := Some "10.0.1.5";
     VPCCollector.Tags :=
       [("eks:cluster-name", "prod"); ("eks:nodegroup-name", "ng1")] |}.

End Provider.

(** ** collect_k8s_workloads.py *)

Module K8sWorkloads.
Import Py.

(** What the script reads of a region entry of the inventory: whether it
    has an [error] key, and the cluster names under [eks_clusters] when the
    key is there (a cluster without a [cluster_name] key has no name). *)
Record region_data : Type := {
  has_error : bool;
  eks_clusters : option (list (option string))
}.

(** A cluster of the inventory with its [region] key set. *)
Record cluster : Type := {
  cluster_name : option string;
  region : string
}.

Definition get_eks_clusters_from_inventory (regions : dict region_data)
  : list cluster :=
  fold_left
    (fun clusters item =>
       let region_name := fst item in
       let region_data := snd item in
       if has_error region_data then clusters
       else
         fold_left
           (fun clusters name =>
              clusters ++ [{| cluster_name := name; region := region_name |}])
           (get_default (eks_clusters region_data) [])
           clusters)
    regions [].

(** [cluster.get("cluster_name", "unknown")] *)
Definition key_of (c : cluster) : string :=
  get_default (cluster_name c) "unknown".

(** [c.get("cluster_name") in args.clusters] *)
Definition requested (names : list string) (c : cluster) : bool :=
  match cluster_name c with
  | Some n => mem n names
  | None => false
  end.

(** The filter of [main]: [args.clusters] is [None] without the option. *)
Definition filter_clusters (args_clusters : option (list string))
    (eks_clusters : list cluster) : list cluster :=
  match args_clusters with
  | None => eks_clusters
  | Some [] => eks_clusters
  | Some names => filter (requested names) eks_clusters
  end.

Section Main.

(** What collecting from a cluster gives: the [pods_by_node] of the
    collector's result, or an exception. *)
Variable collect_cluster_workloads : cluster -> result (dict (list Doc.Pod.t)).

(** The entry written for a cluster, as the generators read it: the
    entry written after an exception has no [pods_by_node] key. *)
Definition entry_of (c : cluster) : Helpers.workload :=
  match collect_cluster_workloads c with
  | Ok pods_by_node => {| Helpers.pods_by_node := Some pods_by_node |}
  | Raise _ => {| Helpers.pods_by_node := None |}
  end.

(** The loop of [main] over the clusters. *)
Definition collect_loop (eks_clusters : list cluster)
    (all_workloads : dict Helpers.workload) : dict Helpers.workload :=
  fold_left (fun all c => dict_set all (key_of c) (entry_of c))
            eks_clusters all_workloads.

(** The document [main] writes, or [None] when it returns before writing
    because no cluster is left. *)
Definition main (args_clusters : option (list string))
    (regions : dict region_data) : option (dict Helpers.workload) :=
  let eks_clusters :=
    filter_clusters args_clusters (get_eks_clusters_from_inventory regions) in
  match eks_clusters with
  | [] => None
  | _ => Some (collect_loop eks_clusters [])
  end.

End Main.

(** The last cluster of the list that is filed under the name. *)
Definition last_named (name : string) (eks_clusters : list cluster)
  : option cluster :=
  find (fun c => String.eqb (key_of c) name) (rev eks_clusters).

(** The clusters of the regions without error, region by region. *)
Definition listed_clusters (regions : dict region_data) : list cluster :=
  flat_map
    (fun item =>
       if has_error (snd item) then []
       else map (fun name => {| cluster_name := name; region := fst item |})
                (get_default (eks_clusters (snd item)) []))
    regions.

End K8sWorkloads.

(** * Properties *)

(** ** Batching in the ECS client *)

Section Batching.

Import ECSClient.

Variable Desc : Type.
Variable respond : api_call -> option (list Desc).

Lemma for_each_calls (mk : list string -> api_call) (ids : list string)
    (cap : nat) (starts : list nat) (acc : list Desc) (log : list api_call) :
  for_each starts
    (fun i all =>
       response <- client_call Desc respond (mk (Py.slice ids i (i + cap))) ;;
       ret (all ++ Py.get_default response []))
    acc log
  = (acc ++ flat_map (fun b => Py.get_default (respond (mk b)) [])
              (map (fun i => Py.slice ids i (i + cap)) starts),
     log ++ map mk (map (fun i => Py.slice ids i (i + cap)) starts)).
Proof.
  revert acc log.
  induction starts as [|i starts IH]; intros acc log; simpl.
  - unfold ret. now rewrite !app_nil_r.
  - unfold bind at 1. unfold client_call at 1. unfold bind at 1. unfold ret at 1.
    rewrite IH. now rewrite <- !app_assoc.
Qed.

Lemma batches_nil (cap : nat) : 0 < cap -> batches cap [] = [].
Proof.
  intros Hc. unfold batches, Py.range_step. simpl.
  replace ((cap - 1) / cap) with 0; [reflexivity|].
  symmetry. apply Nat.div_small. lia.
Qed.

Lemma firstn_skipn_add {A : Type} (a b : nat) (l : list A) :
  firstn a l ++ firstn b (skipn a l) = firstn (a + b) l.
Proof.
  revert l. induction a as [|a IH]; intros l; simpl.
  - reflexivity.
  - destruct l as [|x l]; simpl.
    + now rewrite firstn_nil.
    + now rewrite IH.
Qed.

Lemma slice_step {A : Type} (l : list A) (i cap : nat) :
  Py.slice l i (i + cap) = firstn cap (skipn i l).
Proof. unfold Py.slice. f_equal. lia. Qed.

Lemma concat_slices (cap m : nat) (ids : list string) :
  concat (map (fun i => Py.slice ids i (i + cap))
              (map (fun k => k * cap) (seq 0 m)))
  = firstn (m * cap) ids.
Proof.
  induction m as [|m IH].
  - reflexivity.
  - rewrite seq_S, !map_app, concat_app, IH. simpl.
    rewrite app_nil_r, slice_step, firstn_skipn_add.
    f_equal. lia.
Qed.

Lemma ceil_div_covers (n cap : nat) :
  0 < cap -> n <= (n + cap - 1) / cap * cap.
Proof.
  intros Hc.
  pose proof (Nat.div_mod_eq (n + cap - 1) cap) as E.
  pose proof (Nat.mod_upper_bound (n + cap - 1) cap ltac:(lia)) as U.
  nia.
Qed.

Lemma ceil_div_tight (n cap k : nat) :
  0 < cap -> k < (n + cap - 1) / cap -> k * cap < n.
Proof.
  intros Hc Hk.
  pose proof (Nat.div_mod_eq (n + cap - 1) cap) as E.
  nia.
Qed.

Lemma concat_batches (cap : nat) (ids : list string) :
  0 < cap -> concat (batches cap ids) = ids.
Proof.
  intros Hc. unfold batches, Py.range_step.
  rewrite concat_slices. apply firstn_all2.
  now apply ceil_div_covers.
Qed.

Lemma batches_bounded (cap : nat) (ids : list string) :
  0 < cap ->
  Forall (fun b => 0 < length b <= cap) (batches cap ids).
Proof.
  intros Hc. unfold batches, Py.range_step.
  rewrite Forall_forall. intros b Hb.
  rewrite map_map in Hb. apply in_map_iff in Hb.
  destruct Hb as [k [<- Hk]]. apply in_seq in Hk.
  rewrite slice_step, length_firstn, length_skipn.
  assert (k * cap < length ids) by (apply ceil_div_tight; lia).
  lia.
Qed.

Lemma batches_lengths (cap : nat) (ids : list string) :
  map (@length string) (batches cap ids)
  = map (fun i => Nat.min cap (length ids - i))
        (Py.range_step (length ids) cap).
Proof.
  unfold batches. rewrite map_map. apply map_ext. intros i.
  now rewrite slice_step, length_firstn, length_skipn.
Qed.

Lemma batched_loop (mk : list string -> api_call) (cap : nat)
    (ids : list string) (log : list api_call) :
  for_each (Py.range_step (length ids) cap)
    (fun i all =>
       response <- client_call Desc respond (mk (Py.slice ids i (i + cap))) ;;
       ret (all ++ Py.get_default response []))
    [] log
  = (flat_map (fun b => Py.get_default (respond (mk b)) []) (batches cap ids),
     log ++ map mk (batches cap ids)).
Proof. now rewrite for_each_calls. Qed.

Lemma describe_clusters_run (ids : list string) (log : list api_call) :
  describe_clusters Desc respond ids log
  = (flat_map (fun b => Py.get_default (respond (DescribeClusters b)) [])
       (batches 100 ids),
     log ++ map DescribeClusters (batches 100 ids)).
Proof.
  destruct ids as [|a ids].
  - rewrite batches_nil by lia. simpl. unfold ret. now rewrite app_nil_r.
  - unfold describe_clusters. apply (batched_loop DescribeClusters 100).
Qed.

Lemma describe_services_run (c : string) (ids : list string)
    (log : list api_call) :
  describe_services Desc respond c ids log
  = (flat_map (fun b => Py.get_default (respond (DescribeServices c b)) [])
       (batches 10 ids),
     log ++ map (DescribeServices c) (batches 10 ids)).
Proof.
  destruct ids as [|a ids].
  - rewrite batches_nil by lia. simpl. unfold ret. now rewrite app_nil_r.
  - unfold describe_services. apply (batched_loop (DescribeServices c) 10).
Qed.

Lemma describe_tasks_run (c : string) (ids : list string)
    (log : list api_call) :
  describe_tasks Desc respond c ids log
  = (flat_map (fun b => Py.get_default (respond (DescribeTasks c b)) [])
       (batches 100 ids),
     log ++ map (DescribeTasks c) (batches 100 ids)).
Proof.
  destruct ids as [|a ids].
  - rewrite batches_nil by lia. simpl. unfold ret. now rewrite app_nil_r.
  - unfold describe_tasks. apply (batched_loop (DescribeTasks c) 100).
Qed.

Lemma flat_map_elementwise (mk : list string -> api_call)
    (d : string -> Desc) (bs : list (list string)) :
  (forall b, respond (mk b) = Some (map d b)) ->
  flat_map (fun b => Py.get_default (respond (mk b)) []) bs
  = map d (concat bs).
Proof.
  intros H. induction bs as [|b bs IH]; simpl.
  - reflexivity.
  - now rewrite H, IH, map_app.
Qed.

(** C1. Each batched describe operation issues one call per batch, in
    order, and extends its result with each response in turn; the batches
    are consecutive pieces of the input (their concatenation is the input),
    none is empty and none exceeds the cap: 100 for [describe_clusters] and
    [describe_tasks], 10 for [describe_services].  When the provider
    describes every identifier of a batch in order, the result describes the
    input in order.  An input of 247 identifiers at cap 100 gives batches of
    sizes 100, 100 and 47. *)
Theorem ecs_batches_respect_caps :
  (forall ids log,
      describe_clusters Desc respond ids log
      = (flat_map (fun b => Py.get_default (respond (DescribeClusters b)) [])
           (batches 100 ids),
         log ++ map DescribeClusters (batches 100 ids)))
  /\ (forall c ids log,
      describe_services Desc respond c ids log
      = (flat_map (fun b => Py.get_default (respond (DescribeServices c b)) [])
           (batches 10 ids),
         log ++ map (DescribeServices c) (batches 10 ids)))
  /\ (forall c ids log,
      describe_tasks Desc respond c ids log
      = (flat_map (fun b => Py.get_default (respond (DescribeTasks c b)) [])
           (batches 100 ids),
         log ++ map (DescribeTasks c) (batches 100 ids)))
  /\ (forall ids,
      concat (batches 100 ids) = ids
      /\ Forall (fun b => 0 < length b <= 100) (batches 100 ids))
  /\ (forall ids,
      concat (batches 10 ids) = ids
      /\ Forall (fun b => 0 < length b <= 10) (batches 10 ids))
  /\ (forall d ids log,
      (forall b, respond (DescribeClusters b) = Some (map d b)) ->
      fst (describe_clusters Desc respond ids log) = map d ids)
  /\ (forall ids log,
      length ids = 247 ->
      map (fun c => length (call_ids c))
          (skipn (length log) (snd (describe_clusters Desc respond ids log)))
      = [100; 100; 47]).
Proof.
  split; [exact describe_clusters_run|].
  split; [exact describe_services_run|].
  split; [exact describe_tasks_run|].
  split; [intros ids; split;
          [apply concat_batches | apply batches_bounded]; lia|].
  split; [intros ids; split;
          [apply concat_batches | apply batches_bounded]; lia|].
  split.
  - intros d ids log H. rewrite describe_clusters_run. simpl.
    rewrite (flat_map_elementwise DescribeClusters d) by exact H.
    now rewrite concat_batches by lia.
  - intros ids log H. rewrite describe_clusters_run. simpl.
    rewrite skipn_app, skipn_all, Nat.sub_diag. simpl.
    rewrite map_map. simpl.
    change (map (fun x : list string => length x) (batches 100 ids))
      with (map (@length string) (batches 100 ids)).
    rewrite batches_lengths, H. reflexivity.
Qed.

(** C9. On the empty identifier list each describe operation returns the
    empty list and leaves the call log as it was: no call is issued. *)
Theorem ecs_describe_empty_no_call :
  forall (c : string) (log : list api_call),
    describe_clusters Desc respond [] log = ([], log)
    /\ describe_services Desc respond c [] log = ([], log)
    /\ describe_tasks Desc respond c [] log = ([], log).
Proof. intros c log. repeat split. Qed.

End Batching.

(** A run on 247 identifiers: three calls, of 100, 100 and 47 identifiers. *)
Example describe_clusters_247 :
  map (fun c => length (ECSClient.call_ids c))
      (snd (ECSClient.describe_clusters unit (fun _ => None)
              (repeat "arn" 247) []))
  = [100; 100; 47].
Proof. vm_compute. reflexivity. Qed.
(** ** Dictionaries *)

Section DictFacts.
Import Py.
Context {V : Type}.

Lemma dict_get_set_same (d : dict V) (k : string) (v : V) :
  dict_get (dict_set d k v) k = Some v.
Proof.
  induction d as [|[k' v'] d IH]; simpl.
  - now rewrite String.eqb_refl.
  - destruct (String.eqb k' k) eqn:E; simpl; rewrite E; auto.
Qed.

Lemma dict_get_set_other (d : dict V) (k k' : string) (v : V) :
  k <> k' -> dict_get (dict_set d k v) k' = dict_get d k'.
Proof.
  intros N. induction d as [|[k0 v0] d IH]; simpl.
  - destruct (String.eqb_spec k k'); congruence.
  - destruct (String.eqb_spec k0 k) as [->|]; simpl.
    + destruct (String.eqb_spec k k'); congruence.
    + now rewrite IH.
Qed.

Lemma dict_mem_set (d : dict V) (k k' : string) (v : V) :
  dict_mem (dict_set d k v) k' = String.eqb k k' || dict_mem d k'.
Proof.
  unfold dict_mem. destruct (String.eqb_spec k k') as [->|N].
  - now rewrite dict_get_set_same.
  - now rewrite dict_get_set_other.
Qed.

End DictFacts.

(** ** The orchestrator: [collect_region_resources] and the region loop *)

Section Orchestrator.
Import Py Inventory.

Lemma try_collect_other sel k r e d key :
  k <> key -> dict_get (try_collect sel k r e d) key = dict_get d key.
Proof.
  intros N. unfold try_collect.
  destruct sel; [destruct r|]; auto using dict_get_set_other.
Qed.

Lemma try_collect_raised sel k r e d :
  sel = true -> is_raise r = true ->
  dict_get (try_collect sel k r e d) k = Some e.
Proof.
  intros -> R. unfold try_collect. destruct r; [discriminate|].
  apply dict_get_set_same.
Qed.

Lemma try_collect_present sel k r e d :
  sel = true -> dict_mem (try_collect sel k r e d) k = true.
Proof.
  intros ->. unfold try_collect, dict_mem.
  destruct r; now rewrite dict_get_set_same.
Qed.

Lemma try_collect_mem sel k r e d key :
  dict_mem (try_collect sel k r e d) key
  = (sel && String.eqb k key) || dict_mem d key.
Proof.
  unfold try_collect. destruct sel; [destruct r|]; simpl;
    now rewrite ?dict_mem_set.
Qed.

Lemma list_result_raise (r : result (list value)) :
  is_raise (list_result r) = is_raise r.
Proof. now destruct r. Qed.

Lemma collect_vpc_ec2_other cs all services d key :
  key <> "vpcs" -> key <> "ec2_instances" ->
  dict_get (collect_vpc_ec2 cs all services d) key = dict_get d key.
Proof.
  intros N1 N2. unfold collect_vpc_ec2.
  repeat match goal with
         | |- context [if ?b then _ else _] => destruct b
         | |- context [match ?r with Ok _ => _ | Raise _ => _ end] => destruct r
         end;
    rewrite ?dict_get_set_other by congruence; reflexivity.
Qed.

Lemma collect_vpc_ec2_vpcs cs all services d :
  all || mem "vpc" services || mem "ec2" services = true ->
  dict_mem (collect_vpc_ec2 cs all services d) "vpcs" = true
  /\ (is_raise (vpc_collect cs) = true ->
      dict_get (collect_vpc_ec2 cs all services d) "vpcs" = Some (VList [])
      /\ dict_get (collect_vpc_ec2 cs all services d) "ec2_instances"
         = Some (VList [])).
Proof.
  intros S. unfold collect_vpc_ec2, dict_mem. rewrite S.
  destruct (vpc_collect cs) as [vpcs|e]; simpl.
  - split; [|discriminate].
    destruct (all || mem "ec2" services);
      [destruct (collect_ec2_instances cs)|];
      rewrite ?(dict_get_set_other _ "ec2_instances" "vpcs") by discriminate;
      now rewrite dict_get_set_same.
  - rewrite dict_get_set_other by discriminate.
    rewrite !dict_get_set_same. auto.
Qed.

Lemma collect_vpc_ec2_instances cs all services d :
  all || mem "ec2" services = true ->
  dict_mem (collect_vpc_ec2 cs all services d) "ec2_instances" = true
  /\ (is_raise (vpc_collect cs) || is_raise (collect_ec2_instances cs) = true ->
      dict_get (collect_vpc_ec2 cs all services d) "ec2_instances"
      = Some (VList [])).
Proof.
  intros S. unfold collect_vpc_ec2, dict_mem.
  assert (S' : all || mem "vpc" services || mem "ec2" services = true).
  { destruct all; simpl in *; [reflexivity|]. rewrite S. apply orb_true_r. }
  rewrite S', S.
  destruct (vpc_collect cs) as [vpcs|e]; simpl.
  - destruct (collect_ec2_instances cs); simpl;
      rewrite dict_get_set_same; split; auto; discriminate.
  - rewrite dict_get_set_same. auto.
Qed.

Lemma get_present {V : Type} (d : dict V) (k : string) (v : V) :
  dict_get d k = Some v -> dict_mem d k = true.
Proof. unfold dict_mem. now intros ->. Qed.

(** Steps after the one that fills [key] leave [key] alone. *)
Ltac skip_later_steps :=
  unfold collect_region_resources, selected, dict_mem in *; cbv zeta;
  rewrite ?try_collect_other by discriminate.

Ltac own_step S :=
  split;
  [ fold (@dict_mem value); apply try_collect_present; exact S
  | intros R; apply try_collect_raised;
    [ exact S | rewrite ?list_result_raise; exact R ] ].

(** C2. When a service is selected, its key is in the region entry, and
    when its collection raised the key holds the empty document of its
    shape. *)
Theorem failed_collection_keeps_key
    (cs : collectors) (t region : string) (services : list string)
    (service key : string) (empty : value) :
  In (service, (key, empty)) regional_services ->
  selected services service = true ->
  dict_mem (collect_region_resources cs t region services) key = true
  /\ (collection_raised cs service = true ->
      dict_get (collect_region_resources cs t region services) key
      = Some empty).
Proof.
  intros I S. simpl in I.
  repeat (destruct I as [I|I]; [injection I as <- <- <- | ]);
    try contradiction; simpl collection_raised; skip_later_steps;
    try (own_step S).
  - (* vpc *)
    assert (S' : mem "all" services || mem "vpc" services
                 || mem "ec2" services = true) by (rewrite S; reflexivity).
    destruct (collect_vpc_ec2_vpcs cs (mem "all" services) services
                [("region", VStr region); ("collected_at", VStr t)] S')
      as [P Q].
    split; [exact P | intros R; apply Q, R].
  - (* ec2 *)
    destruct (collect_vpc_ec2_instances cs (mem "all" services) services
                [("region", VStr region); ("collected_at", VStr t)] S)
      as [P Q].
    split; [exact P | exact Q].
Qed.

Lemma failed_collection_keeps_key_witness :
  dict_mem (collect_region_resources Scenario.rds_down "t0" "eu-west-1"
              ["rds"; "ecs"]) "rds" = true
  /\ dict_get (collect_region_resources Scenario.rds_down "t0" "eu-west-1"
                ["rds"; "ecs"]) "rds"
     = Some (VDict [("instances", VList []); ("clusters", VList [])]).
Proof.
  destruct (failed_collection_keeps_key Scenario.rds_down "t0" "eu-west-1"
              ["rds"; "ecs"] "rds" "rds" rds_default)
    as [P Q].
  - simpl. auto 10.
  - reflexivity.
  - split; [exact P | apply Q; reflexivity].
Defined.

Lemma collect_vpc_ec2_mem_other cs all services d key :
  key <> "vpcs" -> key <> "ec2_instances" ->
  dict_mem (collect_vpc_ec2 cs all services d) key = dict_mem d key.
Proof.
  intros N1 N2. unfold dict_mem. now rewrite collect_vpc_ec2_other.
Qed.

Lemma collected_region_no_error cs t region services :
  dict_mem (collect_region_resources cs t region services) "error" = false
  /\ dict_get (collect_region_resources cs t region services) "region"
     = Some (VStr region).
Proof.
  split.
  - unfold collect_region_resources. cbv zeta.
    rewrite !try_collect_mem.
    rewrite collect_vpc_ec2_mem_other by discriminate.
    simpl. now rewrite !andb_false_r.
  - unfold collect_region_resources. cbv zeta.
    rewrite !try_collect_other by discriminate.
    now rewrite collect_vpc_ec2_other by discriminate.
Qed.

Lemma region_entry_shape p services region :
  entry_shape (region, region_entry p services region).
Proof.
  unfold entry_shape, region_entry. simpl.
  destruct (open_session p region) as [u|e].
  - left. apply collected_region_no_error.
  - right. now exists e.
Qed.

Lemma dict_set_Forall {V : Type} (P : string * V -> Prop) (d : dict V)
    (k : string) (v : V) :
  Forall P d -> P (k, v) -> Forall P (dict_set d k v).
Proof.
  intros F H. induction F as [|[k' v'] d Hx F IH]; simpl.
  - auto.
  - destruct (String.eqb_spec k' k) as [->|N]; constructor; auto.
Qed.

Lemma collect_regions_shape p services regions :
  Forall entry_shape (collect_regions p services regions).
Proof.
  unfold collect_regions.
  assert (G : forall acc, Forall entry_shape acc ->
               Forall entry_shape
                 (fold_left
                    (fun inv region =>
                       dict_set inv region (region_entry p services region))
                    regions acc)).
  { induction regions as [|r regions IH]; intros acc F; simpl.
    - exact F.
    - apply IH. apply dict_set_Forall; [exact F|].
      apply region_entry_shape. }
  apply G. constructor.
Qed.

Lemma guarded_loop {S : Type} (body : string -> dict value -> S -> S)
    (regions : dict (dict value)) (s : S) :
  fold_left
    (fun s item =>
       if dict_mem (snd item) "error" then s
       else body (fst item) (snd item) s)
    regions s
  = fold_left (fun s item => body (fst item) (snd item) s)
      (readable regions) s.
Proof.
  revert s. induction regions as [|[n d] regions IH]; intros s; simpl.
  - reflexivity.
  - destruct (dict_mem d "error"); simpl; apply IH.
Qed.

(** C6. After the region loop of [main] every region entry either has no
    [error] key and carries the region's collections, or is exactly the
    pair of the region name and an [error] string; and each region loop of
    the diagram generators runs its body on the entries without an [error]
    key only, none of which is a failed region's entry. *)
Theorem error_regions_are_skipped :
  (forall p services regions,
      Forall entry_shape (collect_regions p services regions))
  /\ (forall (S : Type) body regions (s : S),
      Detailed.main_loop body regions s
      = fold_left (fun s item => body (fst item) (snd item) s)
          (readable regions) s
      /\ Drawio.main_loop body regions s
        = fold_left (fun s item => body (fst item) (snd item) s)
            (readable regions) s
      /\ Overview.overview_loop body regions s
        = fold_left (fun s item => body (fst item) (snd item) s)
            (readable regions) s
      /\ Overview.main_loop body regions s
        = fold_left (fun s item => body (fst item) (snd item) s)
            (readable regions) s)
  /\ (forall regions,
      Forall (fun item => dict_mem (snd item) "error" = false)
             (readable regions))
  /\ (forall region e,
      readable [(region, [("region", VStr region); ("error", VStr e)])] = []).
Proof.
  split; [exact collect_regions_shape|].
  split.
  - intros S body regions s.
    repeat split; apply guarded_loop.
  - split.
    + intros regions. unfold readable. apply Forall_forall.
      intros item I. apply filter_In in I. destruct I as [_ I].
      now apply negb_true_iff in I.
    + reflexivity.
Qed.

End Orchestrator.
(** ** Strings *)

Section StringFacts.
Import Py.

Lemma append_assoc (a b c : string) :
  ((a ++ b) ++ c = a ++ (b ++ c))%string.
Proof. induction a as [|x a IH]; simpl; congruence. Qed.

Lemma append_nil_r (a : string) : (a ++ "")%string = a.
Proof. induction a as [|x a IH]; simpl; congruence. Qed.

Lemma length_append (s1 s2 : string) :
  String.length (s1 ++ s2) = String.length s1 + String.length s2.
Proof. induction s1 as [|c s1 IH]; simpl; auto. Qed.

Lemma length_take (n : nat) (s : string) :
  String.length (take n s) = Nat.min n (String.length s).
Proof.
  revert s. induction n as [|n IH]; intros [|c s]; simpl; auto.
Qed.

Lemma take_prefix (n : nat) (s : string) :
  String.prefix (take n s) s = true.
Proof.
  revert s. induction n as [|n IH]; intros [|c s]; simpl; auto.
  destruct (ascii_dec c c); [apply IH | congruence].
Qed.

Lemma prefix_iff (p s : string) :
  String.prefix p s = true <-> exists post, s = (p ++ post)%string.
Proof.
  revert s. induction p as [|c p IH]; intros s.
  - split; [intros _; now exists s | intros _; now destruct s].
  - destruct s as [|c' s]; simpl.
    + split; [discriminate | intros [post E]; discriminate].
    + destruct (ascii_dec c c') as [->|N].
      * rewrite IH. split; intros [post E]; exists post; congruence.
      * split; [discriminate | intros [post E]; congruence].
Qed.

Lemma contains_nil (sub : string) :
  contains sub "" = String.prefix sub "".
Proof. simpl. apply orb_false_r. Qed.

Lemma contains_cons (sub : string) (c : ascii) (s : string) :
  contains sub (String c s) = String.prefix sub (String c s) || contains sub s.
Proof. reflexivity. Qed.

Lemma contains_iff (sub s : string) :
  contains sub s = true <-> infix sub s.
Proof.
  unfold infix. induction s as [|c s IH].
  - rewrite contains_nil, prefix_iff. split.
    + intros [post E]. now exists "", post.
    + intros [pre [post E]]. destruct pre; simpl in E; [now exists post|].
      discriminate.
  - rewrite contains_cons, orb_true_iff, prefix_iff, IH. split.
    + intros [[post E]|[pre [post E]]].
      * now exists "", post.
      * exists (String c pre), post. simpl. now rewrite E.
    + intros [pre [post E]]. destruct pre as [|c' pre]; simpl in E.
      * left. now exists post.
      * right. exists pre, post. congruence.
Qed.

End StringFacts.

(** ** Labels *)

Section Labels.
Import Py.

Lemma truncate_spec (name : string) (max_len : Z) :
  (2 <= max_len)%Z ->
  label_spec
    (fun name max_len =>
       if (Z.of_nat (String.length name) <=? max_len)%Z then name
       else (slice_to name (max_len - 2) ++ "..")%string)
    name max_len.
Proof.
  intros H. unfold label_spec.
  destruct (Z.leb_spec (Z.of_nat (String.length name)) max_len) as [L|G].
  - repeat split; auto. intros; lia.
  - assert (E : slice_to name (max_len - 2)
                = take (Z.to_nat (max_len - 2)) name).
    { unfold slice_to. destruct (Z.ltb_spec (max_len - 2) 0); [lia|auto]. }
    assert (Len : String.length (take (Z.to_nat (max_len - 2)) name)
                  = Z.to_nat (max_len - 2)).
    { rewrite length_take. lia. }
    rewrite E. repeat split.
    + intros; lia.
    + intros _. exists (take (Z.to_nat (max_len - 2)) name).
      repeat split.
      * apply take_prefix.
      * rewrite Len. lia.
      * rewrite length_append, Len. simpl. lia.
    + rewrite length_append, Len. simpl. lia.
Qed.

(** C10. With a budget of at least 2, both [format_label] functions return
    a name within the budget unchanged, and cut a longer one to a prefix of
    [max_len - 2] characters followed by "..", [max_len] characters in all;
    so a label is never longer than the budget. *)
Theorem format_label_within_budget (name : string) (max_len : Z) :
  (2 <= max_len)%Z ->
  label_spec Detailed.format_label name max_len
  /\ label_spec Drawio.format_label name max_len.
Proof.
  intros H. split; apply truncate_spec; exact H.
Qed.

Lemma format_label_within_budget_witness :
  (2 <= 5)%Z
  /\ label_spec Detailed.format_label "production" 5
  /\ label_spec Drawio.format_label "production" 5.
Proof.
  split; [lia | apply (format_label_within_budget "production" 5); lia].
Defined.

Example format_label_cut :
  Detailed.format_label "production" 5 = "pro.."
  /\ Detailed.format_label "prod" 5 = "prod".
Proof. split; reflexivity. Qed.

End Labels.
(** ** Categories of EC2 instances *)

Section Categorize.
Import Py Doc Detailed.

Variables eks_patterns ecs_patterns : list string.

Lemma categorize_step_named (c : categories) (i : Instance.t) :
  (is_running i = true -> Instance.name i <> None) ->
  categorize_step eks_patterns ecs_patterns c i
  = Ok {| standalone :=
            standalone c
            ++ filter (in_standalone eks_patterns ecs_patterns) [i];
          ecs := ecs c ++ filter (in_ecs eks_patterns ecs_patterns) [i];
          eks := eks c ++ filter (in_eks eks_patterns) [i] |}.
Proof.
  intros N. unfold categorize_step, in_standalone, in_ecs, in_eks.
  cbn [filter].
  destruct (is_running i) eqn:R; cbn [negb andb].
  - destruct (Instance.name i) as [n|]; [|now destruct N].
    cbn [get_default]. destruct (is_eks _ _ _); cbn [negb andb].
    + now rewrite !app_nil_r.
    + destruct (is_ecs _ _ _); cbn [negb andb]; now rewrite !app_nil_r.
  - destruct c. cbn. now rewrite !app_nil_r.
Qed.

Lemma categorize_loop_named (instances : list Instance.t) (c : categories) :
  all_named instances ->
  categorize_loop eks_patterns ecs_patterns instances c
  = Ok {| standalone :=
            standalone c
            ++ filter (in_standalone eks_patterns ecs_patterns) instances;
          ecs := ecs c ++ filter (in_ecs eks_patterns ecs_patterns) instances;
          eks := eks c ++ filter (in_eks eks_patterns) instances |}.
Proof.
  intros F. revert c. induction F as [|i instances N F IH]; intros c.
  - simpl. destruct c. simpl. now rewrite !app_nil_r.
  - cbn [categorize_loop]. rewrite (categorize_step_named c i N).
    cbn [rbind]. rewrite IH. cbn [standalone ecs eks].
    rewrite <- !app_assoc.
    change (i :: instances) with ([i] ++ instances).
    now rewrite !filter_app.
Qed.

(** A running instance without a name stops the loop with an exception. *)
Lemma categorize_loop_nameless (instances : list Instance.t) (c : categories)
    (i : Instance.t) :
  In i instances -> is_running i = true -> Instance.name i = None ->
  exists e, categorize_loop eks_patterns ecs_patterns instances c = Raise e.
Proof.
  intros I R N. revert c.
  induction instances as [|j instances IH]; intros c; [contradiction|].
  cbn [categorize_loop].
  destruct (categorize_step eks_patterns ecs_patterns c j) as [c'|e] eqn:E.
  - cbn [rbind]. destruct I as [->|I]; [|now apply IH].
    unfold categorize_step in E. rewrite R, N in E. discriminate.
  - now exists e.
Qed.

(** The three buckets do not overlap, and a running instance is in one. *)
Lemma buckets_exclusive (i : Instance.t) :
  (in_eks eks_patterns i = true ->
   in_ecs eks_patterns ecs_patterns i = false
   /\ in_standalone eks_patterns ecs_patterns i = false)
  /\ (in_ecs eks_patterns ecs_patterns i = true ->
      in_standalone eks_patterns ecs_patterns i = false)
  /\ (is_running i = true ->
      in_eks eks_patterns i = true
      \/ in_ecs eks_patterns ecs_patterns i = true
      \/ in_standalone eks_patterns ecs_patterns i = true)
  /\ (is_running i = false ->
      in_eks eks_patterns i = false
      /\ in_ecs eks_patterns ecs_patterns i = false
      /\ in_standalone eks_patterns ecs_patterns i = false).
Proof.
  unfold in_standalone, in_ecs, in_eks.
  destruct (is_running i), (is_eks _ _ _), (is_ecs _ _ _); simpl; intuition.
Qed.

End Categorize.

(** On instances that all have names, [categorize_ec2_instances] returns
    the three filters of its input. *)
Lemma categorize_named (ec2_instances : list Doc.Instance.t)
    (ecs_clusters : list Doc.ECSCluster.t)
    (eks_clusters : list Doc.EKSCluster.t) :
  Detailed.all_named ec2_instances ->
  Detailed.categorize_ec2_instances ec2_instances ecs_clusters eks_clusters
  = Py.Ok
      {| Detailed.standalone :=
           filter (Detailed.in_standalone
                     (Detailed.eks_patterns_of eks_clusters)
                     (Detailed.ecs_patterns_of ecs_clusters)) ec2_instances;
         Detailed.ecs :=
           filter (Detailed.in_ecs
                     (Detailed.eks_patterns_of eks_clusters)
                     (Detailed.ecs_patterns_of ecs_clusters)) ec2_instances;
         Detailed.eks :=
           filter (Detailed.in_eks (Detailed.eks_patterns_of eks_clusters))
                  ec2_instances |}.
Proof.
  intros F. unfold Detailed.categorize_ec2_instances.
  now rewrite categorize_loop_named.
Qed.

Section TagSignals.
Import Py Doc Detailed.

Lemma infix_refl (s : string) : infix s s.
Proof. exists "", "". simpl. now rewrite append_nil_r. Qed.

Lemma infix_trans (a b c : string) : infix a b -> infix b c -> infix a c.
Proof.
  intros [p1 [q1 ->]] [p2 [q2 ->]].
  exists (p2 ++ p1)%string, (q1 ++ q2)%string.
  now rewrite !append_assoc.
Qed.

Lemma infix_app_l (a b : string) : infix a (a ++ b).
Proof. now exists "", b. Qed.

Lemma infix_app_r (a b c : string) : infix a c -> infix a (b ++ c).
Proof.
  intros [p [q ->]]. exists (b ++ p)%string, q. now rewrite append_assoc.
Qed.

Lemma lower_append (a b : string) :
  lower (a ++ b) = (lower a ++ lower b)%string.
Proof. induction a as [|c a IH]; simpl; congruence. Qed.

Lemma infix_lower (a b : string) : infix a b -> infix (lower a) (lower b).
Proof.
  intros [p [q ->]]. exists (lower p), (lower q).
  now rewrite !lower_append.
Qed.

Lemma infix_concat (sep x : string) (l : list string) :
  In x l -> infix x (String.concat sep l).
Proof.
  induction l as [|y l IH]; [contradiction|].
  intros [->|I].
  - destruct l; [apply infix_refl | apply infix_app_l].
  - destruct l as [|z l]; [contradiction|].
    change (String.concat sep (y :: z :: l))
      with (y ++ sep ++ String.concat sep (z :: l))%string.
    now apply infix_app_r, infix_app_r, IH.
Qed.

(** A tag whose key holds "eks" is an EKS signal. *)
Lemma eks_key_signal (eks_patterns : list string) (name k v : string)
    (tags : dict string) :
  In (k, v) tags -> contains "eks" (lower k) = true ->
  is_eks eks_patterns name (all_tags_of tags) = true.
Proof.
  intros I K. unfold is_eks.
  assert (C : contains "eks" (all_tags_of tags) = true).
  { apply contains_iff. apply contains_iff in K.
    apply (infix_trans _ (lower k)); [exact K|].
    apply (infix_trans _ (lower (k ++ "=" ++ v))).
    - apply infix_lower, infix_app_l.
    - unfold all_tags_of. apply infix_lower, infix_concat.
      apply in_map_iff. now exists (k, v). }
  rewrite C. now rewrite orb_true_r.
Qed.

Lemma filter_three_lengths {A : Type} (p q r run : A -> bool) (l : list A) :
  (forall x, run x = true ->
             (p x = true /\ q x = false /\ r x = false)
             \/ (p x = false /\ q x = true /\ r x = false)
             \/ (p x = false /\ q x = false /\ r x = true)) ->
  (forall x, run x = false -> p x = false /\ q x = false /\ r x = false) ->
  length (filter p l) + length (filter q l) + length (filter r l)
  = length (filter run l).
Proof.
  intros One None. induction l as [|x l IH]; [reflexivity|].
  cbn [filter]. destruct (run x) eqn:R.
  - destruct (One x R) as [(-> & -> & ->)|[(-> & -> & ->)|(-> & -> & ->)]];
      cbn [length]; lia.
  - destruct (None x R) as (-> & -> & ->). exact IH.
Qed.

(** X1. When every running instance has a name, the categorization returns,
    the three buckets are the running instances cut three ways, no
    instance is in two buckets, and an instance carrying a tag key such as
    [eks:cluster-name] is in the [eks] bucket. *)
Theorem categorize_named_partition (ec2_instances : list Instance.t)
    (ecs_clusters : list ECSCluster.t) (eks_clusters : list EKSCluster.t) :
  all_named ec2_instances ->
  exists c,
    categorize_ec2_instances ec2_instances ecs_clusters eks_clusters = Ok c
    /\ (forall i, In i (standalone c ++ ecs c ++ eks c) <->
                  In i ec2_instances /\ is_running i = true)
    /\ (forall i, ~ (In i (eks c) /\ In i (ecs c))
                  /\ ~ (In i (eks c) /\ In i (standalone c))
                  /\ ~ (In i (ecs c) /\ In i (standalone c)))
    /\ length (standalone c) + length (ecs c) + length (eks c)
       = length (filter is_running ec2_instances)
    /\ (forall i k v,
           In i ec2_instances -> is_running i = true ->
           In (k, v) (Instance.tags i) -> contains "eks" (lower k) = true ->
           In i (eks c)).
Proof.
  intros F. eexists. split; [apply categorize_named; exact F|].
  cbn [standalone ecs eks].
  set (ep := eks_patterns_of eks_clusters).
  set (cp := ecs_patterns_of ecs_clusters).
  split; [|split; [|split]].
  - intros i. rewrite !in_app_iff, !filter_In.
    destruct (buckets_exclusive ep cp i) as (_ & _ & R & NR).
    destruct (is_running i).
    + specialize (R eq_refl). tauto.
    + destruct (NR eq_refl) as (-> & -> & ->). intuition discriminate.
  - intros i. rewrite !filter_In.
    destruct (buckets_exclusive ep cp i) as (A & B & _ & _).
    repeat split; intros [[_ X] [_ Y]].
    + destruct (A X) as [Z _]. congruence.
    + destruct (A X) as [_ Z]. congruence.
    + specialize (B X). congruence.
  - rewrite <- (filter_three_lengths (in_standalone ep cp) (in_ecs ep cp)
                  (in_eks ep) is_running ec2_instances).
    + reflexivity.
    + intros x R. unfold in_standalone, in_ecs, in_eks. rewrite R.
      destruct (is_eks _ _ _), (is_ecs _ _ _); simpl; tauto.
    + intros x R. unfold in_standalone, in_ecs, in_eks. rewrite R. auto.
  - intros i k v I R T K. apply filter_In. split; [exact I|].
    unfold in_eks. rewrite R. cbn [andb].
    now apply (eks_key_signal ep _ k v).
Qed.

End TagSignals.

Lemma categorize_named_partition_witness :
  exists c,
    Detailed.categorize_ec2_instances [Scenario.worker] [] [] = Py.Ok c
    /\ In Scenario.worker (Detailed.eks c)
    /\ ~ In Scenario.worker (Detailed.standalone c).
Proof.
  destruct (categorize_named_partition [Scenario.worker] [] [])
    as [c (E & _ & D & _ & T)].
  - repeat constructor. discriminate.
  - assert (I : In Scenario.worker (Detailed.eks c)).
    { apply (T Scenario.worker "eks:cluster-name" "prod");
        simpl; auto. }
    exists c. split; [exact E|]. split; [exact I|].
    intros S. destruct (D Scenario.worker) as (_ & N & _). now apply N.
Defined.

(** C3. A running instance tagged [eks:cluster-name] that has no Name tag,
    as the collector writes it: the categorization raises instead of
    placing the instance in the [eks] bucket. *)
Theorem categorize_nameless_instance_raises :
  Detailed.categorize_ec2_instances
    [ {| Doc.Instance.instance_id := "i-0abc";
         Doc.Instance.state := Some "running";
         Doc.Instance.vpc_id := Some "vpc-1";
         Doc.Instance.private_ip := Some "10.0.1.5";
         Doc.Instance.name := None;
         Doc.Instance.tags :=
           [("eks:cluster-name", "prod"); ("eks:nodegroup-name", "ng1")] |} ]
    [] []
  = Py.Raise "AttributeError".
Proof. reflexivity. Qed.

(** The same instance with a Name tag goes to the [eks] bucket. *)
Example categorize_named_eks_instance :
  let i :=
    {| Doc.Instance.instance_id := "i-0abc";
       Doc.Instance.state := Some "running";
       Doc.Instance.vpc_id := Some "vpc-1";
       Doc.Instance.private_ip := Some "10.0.1.5";
       Doc.Instance.name := Some "worker";
       Doc.Instance.tags :=
         [("eks:cluster-name", "prod"); ("eks:nodegroup-name", "ng1")] |} in
  Detailed.categorize_ec2_instances [i] [] []
  = Py.Ok {| Detailed.standalone := []; Detailed.ecs := [];
             Detailed.eks := [i] |}.
Proof. reflexivity. Qed.
(** ** What [split] returns *)

Section TokenFacts.
Import Py DrawioFilters Tokens.

Lemma no_blank_append (a b : string) :
  no_blank (a ++ b) = no_blank a && no_blank b.
Proof.
  induction a as [|x a IH]; cbn [append no_blank]; [reflexivity|].
  now rewrite IH, andb_assoc.
Qed.

Lemma last_char_append (a b : string) :
  last_char (a ++ b)
  = match last_char b with
    | Some c => Some c
    | None => last_char a
    end.
Proof.
  induction a as [|x a IH]; cbn [append last_char].
  - now destruct (last_char b).
  - rewrite IH. destruct (last_char b); [reflexivity|].
    now destruct (last_char a).
Qed.

Lemma blank_free_no_edge_last (pre : string) :
  no_blank pre = true -> edge (last_char pre) = true -> pre = "".
Proof.
  induction pre as [|c pre IH]; cbn [no_blank last_char]; [reflexivity|].
  intros B E. apply andb_true_iff in B. destruct B as [C B].
  apply negb_true_iff in C.
  destruct (last_char pre) as [d|] eqn:L.
  - specialize (IH B E). subst pre. discriminate L.
  - cbn [edge] in E. congruence.
Qed.

Lemma blank_free_no_edge_first (post : string) :
  no_blank post = true -> edge (first_char post) = true -> post = "".
Proof.
  destruct post as [|c post]; cbn [no_blank first_char edge]; [reflexivity|].
  intros B E. apply andb_true_iff in B. destruct B as [C _].
  apply negb_true_iff in C. congruence.
Qed.

(** Two ways to cut one text: one of the first pieces starts the other. *)
Lemma append_eq_append (a b c d : string) :
  (a ++ b = c ++ d)%string ->
  exists e,
    (a = c ++ e /\ d = e ++ b)%string \/ (c = a ++ e /\ b = e ++ d)%string.
Proof.
  revert c. induction a as [|x a IH]; intros c E.
  - exists c. right. split; [reflexivity | exact E].
  - destruct c as [|y c].
    + exists (String x a). left. split; [reflexivity|]. symmetry. exact E.
    + cbn [append] in E. injection E as -> E.
      destruct (IH _ E) as [e [[-> ->]|[-> ->]]]; exists e; auto.
Qed.

(** After a run [w] without a blank that is followed by a blank or by the
    end of the text, the parts of the text are [w] itself, when it is not
    empty, and the parts of what follows the blank. *)
Lemma token_after_run (w r part : string) :
  no_blank w = true -> edge (first_char r) = true ->
  token part (w ++ r)
  <-> (w <> "" /\ part = w)
      \/ exists c r', r = String c r' /\ token part r'.
Proof.
  intros W R. split.
  - intros [N [B [pre [post [E [E1 E2]]]]]].
    apply append_eq_append in E. destruct E as [e [[Ew Ep]|[Ep Er]]].
    + left.
      assert (P : pre = "").
      { apply blank_free_no_edge_last; [|exact E1].
        rewrite Ew, no_blank_append in W.
        now apply andb_true_iff in W. }
      subst pre. cbn [append] in Ew. subst e.
      apply append_eq_append in Ep.
      destruct Ep as [e' [[Ea Eb]|[Ea Eb]]].
      * assert (Z : e' = "").
        { destruct e' as [|x e']; [reflexivity|].
          rewrite Ea, no_blank_append in B.
          apply andb_true_iff in B. destruct B as [_ B].
          cbn [no_blank] in B. apply andb_true_iff in B.
          destruct B as [X _]. apply negb_true_iff in X.
          rewrite Eb in R. cbn [append first_char edge] in R. congruence. }
        subst e'. rewrite append_nil_r in Ea. subst part. auto.
      * assert (Z : e' = "").
        { destruct e' as [|x e']; [reflexivity|].
          rewrite Ea, no_blank_append in W.
          apply andb_true_iff in W. destruct W as [_ W].
          cbn [no_blank] in W. apply andb_true_iff in W.
          destruct W as [X _]. apply negb_true_iff in X.
          rewrite Eb in E2. cbn [append first_char edge] in E2. congruence. }
        subst e'. rewrite append_nil_r in Ea. subst w. auto.
    + right. destruct e as [|c e].
      * exfalso. cbn [append] in Er. destruct part as [|x part]; [congruence|].
        cbn [no_blank] in B. apply andb_true_iff in B. destruct B as [X _].
        apply negb_true_iff in X.
        rewrite Er in R. cbn [append first_char edge] in R. congruence.
      * exists c, (e ++ part ++ post)%string. split; [exact Er|].
        split; [exact N|]. split; [exact B|].
        exists e, post. split; [reflexivity|]. split; [|exact E2].
        rewrite Ep, last_char_append in E1. cbn [last_char] in E1.
        destruct (last_char e); [exact E1 | reflexivity].
  - intros [[N ->]|[c [r' [-> [N [B [pre [post [E [E1 E2]]]]]]]]]].
    + split; [exact N|]. split; [exact W|].
      exists "", r. auto.
    + split; [exact N|]. split; [exact B|].
      exists (w ++ String c pre)%string, post. split; [|split].
      * rewrite E, append_assoc. reflexivity.
      * rewrite last_char_append. cbn [last_char].
        destruct (last_char pre); [exact E1 | exact R].
      * exact E2.
Qed.

Lemma rev_string_append (s acc : string) :
  rev_string acc s = (rev_string "" s ++ acc)%string.
Proof.
  revert acc. induction s as [|c s IH]; intros acc; cbn [rev_string].
  - reflexivity.
  - rewrite (IH (String c acc)), (IH (String c "")), append_assoc.
    reflexivity.
Qed.

Lemma no_blank_rev (s : string) :
  no_blank (rev_string "" s) = no_blank s.
Proof.
  induction s as [|c s IH]; cbn [rev_string no_blank]; [reflexivity|].
  rewrite rev_string_append, no_blank_append, IH. cbn [no_blank].
  now rewrite andb_true_r, andb_comm.
Qed.

Lemma flush_In (cur : string) (out : list string) (part : string) :
  In part (flush cur out)
  <-> In part out
      \/ (rev_string "" cur <> "" /\ part = rev_string "" cur).
Proof.
  destruct cur as [|c cur]; cbn [flush].
  - cbn [rev_string]. split; [auto | intros [I|[N _]]; [exact I | congruence]].
  - rewrite in_app_iff. cbn [In]. split.
    + intros [I|[<-|[]]]; [auto|]. right. split; [|reflexivity].
      cbn [rev_string]. rewrite rev_string_append.
      destruct (rev_string "" cur); discriminate.
    + intros [I|[_ ->]]; auto.
Qed.

Lemma split_loop_spec (s cur : string) (out : list string) (part : string) :
  no_blank cur = true ->
  In part (split_loop s cur out)
  <-> In part out \/ token part (rev_string "" cur ++ s).
Proof.
  revert cur out. induction s as [|c s IH]; intros cur out B.
  - cbn [split_loop]. rewrite flush_In.
    rewrite (token_after_run (rev_string "" cur) "" part);
      [|now rewrite no_blank_rev | reflexivity].
    split.
    + intros [I|H]; auto.
    + intros [I|[H|[c [r' [E _]]]]]; auto. discriminate E.
  - cbn [split_loop]. destruct (is_space c) eqn:C.
    + rewrite (IH "" (flush cur out) eq_refl), flush_In.
      rewrite (token_after_run (rev_string "" cur) (String c s) part);
        [|now rewrite no_blank_rev | exact C].
      cbn [rev_string append]. split.
      * intros [[I|H]|T]; auto. right. right. now exists c, s.
      * intros [I|[H|[c' [r' [E T]]]]]; auto.
        injection E as <- <-. auto.
    + rewrite (IH (String c cur) out).
      * cbn [rev_string].
        rewrite (rev_string_append cur (String c "")), append_assoc.
        reflexivity.
      * cbn [no_blank]. now rewrite C, B.
Qed.

(** [split] returns the whitespace-delimited parts of the text, and only
    them. *)
Lemma split_spec (s part : string) :
  In part (split s) <-> token part s.
Proof.
  unfold split. rewrite (split_loop_spec s "" [] part eq_refl).
  cbn [rev_string append In]. tauto.
Qed.

Lemma is_space_codes (c : ascii) :
  is_space c
  = existsb (Nat.eqb (nat_of_ascii c))
            [9; 10; 11; 12; 13; 28; 29; 30; 31; 32; 133; 160].
Proof. destruct c as [[|] [|] [|] [|] [|] [|] [|] [|]]; reflexivity. Qed.

Lemma lower_chars (s : string) :
  list_ascii_of_string (lower s) = map lower_char (list_ascii_of_string s).
Proof.
  induction s as [|c s IH]; cbn [lower list_ascii_of_string map];
    [reflexivity | now rewrite IH].
Qed.

End TokenFacts.

(** ** Matching resources to a VPC *)

Section Matching.
Import Py Doc Detailed.

Lemma mem_iff (x : string) (l : list string) :
  mem x l = true <-> In x l.
Proof.
  unfold mem. rewrite existsb_exists. split.
  - intros [y [I E]]. apply String.eqb_eq in E. now subst.
  - intros I. exists x. split; [exact I | apply String.eqb_refl].
Qed.

(** [strip] removes every occurrence of the character and nothing else. *)
Lemma strip_chars (c : ascii) (s : string) :
  list_ascii_of_string (strip c s)
  = filter (fun x => negb (Ascii.eqb x c)) (list_ascii_of_string s).
Proof.
  unfold strip. induction s as [|x s IH]; simpl.
  - reflexivity.
  - destruct (Ascii.eqb x c); simpl; now rewrite IH.
Qed.

(** C4 (as amended). The ECS filter lower-cases both names and removes
    hyphens and underscores, keeping whitespace; it matches when one
    normalized name occurs in the other, or when a whitespace-delimited
    part of the normalized VPC name longer than 3 characters occurs in the
    normalized cluster name.  The Beanstalk filter lower-cases and removes
    hyphens only; it matches when the normalized VPC name occurs in the
    normalized environment name or application name, in that direction
    only and without a rule on parts.  Normalizing maps each character to
    its lower-case letter and drops the removed characters, nothing
    else; the whitespace characters are the code points 9 to 13, 28 to 32,
    133 and 160. *)
Theorem name_matching_rules (vpc_name : string) (cluster : ECSCluster.t)
    (env : Environment.t) :
  (name_match vpc_name cluster = true <->
   infix (name_lower (ECSCluster.cluster_name cluster)) (name_lower vpc_name)
   \/ infix (name_lower vpc_name) (name_lower (ECSCluster.cluster_name cluster))
   \/ exists part,
       Tokens.token part (name_lower vpc_name)
       /\ 3 < String.length part
       /\ infix part (name_lower (ECSCluster.cluster_name cluster)))
  /\ (beanstalk_match vpc_name env = true <->
      infix (strip "-" (lower vpc_name))
            (strip "-" (lower (Environment.environment_name env)))
      \/ infix (strip "-" (lower vpc_name))
               (strip "-" (lower (Environment.application_name env))))
  /\ (forall s,
         list_ascii_of_string (name_lower s)
         = filter (fun x => negb (Ascii.eqb x "_"))
             (filter (fun x => negb (Ascii.eqb x "-"))
                (map lower_char (list_ascii_of_string s))))
  /\ (forall s,
         list_ascii_of_string (strip "-" (lower s))
         = filter (fun x => negb (Ascii.eqb x "-"))
             (map lower_char (list_ascii_of_string s)))
  /\ (forall c,
         is_space c = true <->
         In (nat_of_ascii c)
            [9; 10; 11; 12; 13; 28; 29; 30; 31; 32; 133; 160]).
Proof.
  split; [|split; [|split; [|split]]].
  - unfold name_match. cbv zeta.
    rewrite !orb_true_iff, !contains_iff, existsb_exists.
    split.
    + intros [[H|H]|[part [I H]]]; auto.
      right. right. exists part. apply filter_In in I. destruct I as [I L].
      apply Nat.ltb_lt in L. apply contains_iff in H.
      apply split_spec in I. auto.
    + intros [H|[H|[part [I [L H]]]]]; auto.
      right. exists part. split.
      * apply filter_In. split; [now apply split_spec | now apply Nat.ltb_lt].
      * now apply contains_iff.
  - unfold beanstalk_match. cbv zeta.
    now rewrite orb_true_iff, !contains_iff.
  - intros s. unfold name_lower. now rewrite !strip_chars, lower_chars.
  - intros s. now rewrite strip_chars, lower_chars.
  - intros c. rewrite is_space_codes, existsb_exists. split.
    + intros [n [I E]]. apply Nat.eqb_eq in E. now rewrite E.
    + intros I. exists (nat_of_ascii c). split; [exact I|].
      apply Nat.eqb_refl.
Qed.

(** C4 (as stated) fails on each point of the amendment.  The ECS filter
    keeps whitespace: the stated rule matches "a b" and "ab", the filter
    does not.  The stated rule looks for a part of the VPC name in the
    candidate name, the ECS filter for a part of the normalized VPC name in
    the normalized cluster name: it matches "prod-main x" and
    "prodmain-api", the stated rule does not.  The Beanstalk filter keeps
    underscores ("my_vpc" and "myvpc") and whitespace ("a b" and "ab"),
    looks for the VPC name in the candidate and not for the candidate in
    the VPC name ("payments-prod" and "prod"), and has no rule on parts
    ("prod main" and "prod-api", where the part "prod" occurs in the
    candidate): the stated rule matches each pair, the filter none. *)
Lemma fuzzy_match_not_as_stated :
  (spec_fuzzy_match "a b" "ab" = true
   /\ name_match "a b"
        {| ECSCluster.cluster_name := "ab"; ECSCluster.services := [] |}
      = false)
  /\ (spec_fuzzy_match "prod-main x" "prodmain-api" = false
      /\ name_match "prod-main x"
           {| ECSCluster.cluster_name := "prodmain-api";
              ECSCluster.services := [] |} = true)
  /\ (spec_fuzzy_match "my_vpc" "myvpc" = true
      /\ beanstalk_match "my_vpc"
           {| Environment.environment_name := "myvpc";
              Environment.application_name := "shop" |} = false)
  /\ (spec_fuzzy_match "a b" "ab" = true
      /\ beanstalk_match "a b"
           {| Environment.environment_name := "ab";
              Environment.application_name := "shop" |} = false)
  /\ (spec_fuzzy_match "payments-prod" "prod" = true
      /\ beanstalk_match "payments-prod"
           {| Environment.environment_name := "prod";
              Environment.application_name := "shop" |} = false)
  /\ (spec_fuzzy_match "prod main" "prod-api" = true
      /\ beanstalk_match "prod main"
           {| Environment.environment_name := "prod-api";
              Environment.application_name := "shop" |} = false).
Proof. repeat split; vm_compute; reflexivity. Qed.

Lemma subnet_match_iff (subnet_ids : list string) (cluster : ECSCluster.t) :
  subnet_match subnet_ids cluster = true <->
  exists svc s,
    In svc (ECSCluster.services cluster)
    /\ In s (Service.subnets svc) /\ In s subnet_ids.
Proof.
  unfold subnet_match. rewrite existsb_exists. split.
  - intros [svc [I H]]. apply existsb_exists in H. destruct H as [s [J M]].
    exists svc, s. rewrite mem_iff in M. auto.
  - intros [svc [s [I [J M]]]]. exists svc. split; [exact I|].
    apply existsb_exists. exists s. rewrite mem_iff. auto.
Qed.

(** C5. A cluster with a service placed in one of the VPC's subnets is in
    the VPC's filtered ECS list, whatever the names are. *)
Theorem subnet_member_cluster_is_attributed (vpc_data : Vpc.t)
    (ecs_clusters : list ECSCluster.t) (cluster : ECSCluster.t)
    (svc : Service.t) (s : string) :
  In cluster ecs_clusters ->
  In svc (ECSCluster.services cluster) ->
  In s (Service.subnets svc) ->
  In s (vpc_subnet_ids vpc_data) ->
  In cluster (vpc_ecs vpc_data ecs_clusters).
Proof.
  intros I J K M. unfold vpc_ecs. cbv zeta. apply filter_In.
  split; [exact I|]. apply orb_true_iff. right.
  apply subnet_match_iff. now exists svc, s.
Qed.

End Matching.

Lemma subnet_member_cluster_is_attributed_witness :
  Detailed.name_match (Detailed.get_resource_name Scenario.vpc1)
                      Scenario.blue = false
  /\ In Scenario.blue (Detailed.vpc_ecs Scenario.vpc1 [Scenario.blue]).
Proof.
  split; [reflexivity|].
  apply (subnet_member_cluster_is_attributed Scenario.vpc1 [Scenario.blue]
           Scenario.blue Scenario.api "subnet-a");
    simpl; auto.
Defined.
(** ** Pods of an EKS node *)

Section Pods.
Import Py Doc Detailed.

(** Replacing a character by a character changes just those characters. *)
Lemma replace_chars (old new : ascii) (s : string) :
  list_ascii_of_string (replace old (String new "") s)
  = map (fun c => if Ascii.eqb c old then new else c)
        (list_ascii_of_string s).
Proof.
  induction s as [|c s IH]; simpl.
  - reflexivity.
  - destruct (Ascii.eqb c old); simpl; now rewrite IH.
Qed.

(** For an instance with a private IP the pods are looked up under
    "ip-" + the IP with "." turned into "-" + "." + region +
    ".compute.internal", with the empty list as default; when
    [pods_by_node] has no such key the node has no pods, none to show, adds
    nothing to the pod count of its node group, and an instance whose name
    is a string gets the label of a node with 0 pods. *)
Theorem pods_looked_up_by_private_dns (pods_by_node : dict (list Pod.t))
    (inst : Instance.t) (region ip : string) :
  Instance.private_ip inst = Some ip ->
  let key :=
    ("ip-" ++ replace "." "-" ip ++ "." ++ region ++ ".compute.internal")%string
  in
  private_dns inst region = Ok key
  /\ node_pods pods_by_node inst region
     = Ok (get_default (dict_get pods_by_node key) [])
  /\ (dict_mem pods_by_node key = false ->
      node_pods pods_by_node inst region = Ok []
      /\ app_pods pods_by_node inst region = Ok []
      /\ (forall total,
             total_pods pods_by_node [inst] region total = Ok total)
      /\ (forall n,
             Instance.name inst = Some n ->
             node_label pods_by_node inst region
             = Ok (format_label n 15, ip, 0))).
Proof.
  intros P key.
  assert (D : private_dns inst region = Ok key).
  { unfold private_dns. now rewrite P. }
  assert (N : node_pods pods_by_node inst region
              = Ok (get_default (dict_get pods_by_node key) [])).
  { unfold node_pods. now rewrite D. }
  split; [exact D|]. split; [exact N|].
  intros A. unfold dict_mem in A.
  destruct (dict_get pods_by_node key) eqn:G; [discriminate|].
  simpl in N. repeat split.
  - exact N.
  - unfold app_pods. now rewrite N.
  - intros total. cbn [total_pods]. rewrite N. simpl.
    now rewrite Nat.add_0_r.
  - intros n Hn. unfold node_label, app_pods. now rewrite Hn, P, N.
Qed.

End Pods.

Lemma pods_looked_up_by_private_dns_witness :
  Detailed.private_dns Scenario.worker "eu-west-1"
  = Py.Ok "ip-10-0-1-5.eu-west-1.compute.internal"
  /\ Detailed.node_pods Scenario.custom_named_nodes Scenario.worker "eu-west-1"
     = Py.Ok []
  /\ Detailed.node_label Scenario.custom_named_nodes Scenario.worker
       "eu-west-1"
     = Py.Ok ("worker", "10.0.1.5", 0).
Proof.
  destruct (pods_looked_up_by_private_dns Scenario.custom_named_nodes
              Scenario.worker "eu-west-1" "10.0.1.5" eq_refl)
    as [D [_ A]].
  destruct (A eq_refl) as (N & _ & _ & L).
  split; [exact D|]. split; [exact N|]. apply (L "worker" eq_refl).
Defined.
(** ** The persisted format *)

Section JsonText.
Import Py Json.

Lemma skip_ws_spaces (n : nat) (s : string) :
  skip_ws (spaces n ++ s) = skip_ws s.
Proof. induction n as [|n IH]; simpl; auto. Qed.

Lemma skip_ws_indent (level : nat) (s : string) :
  skip_ws (newline_indent level ++ s) = skip_ws s.
Proof. unfold newline_indent. simpl. apply skip_ws_spaces. Qed.

Lemma skip_ws_value (s : string) :
  starts_value s = true -> skip_ws s = s.
Proof.
  destruct s as [|c s]; simpl; [discriminate|].
  destruct (is_ws c); simpl; [discriminate | reflexivity].
Qed.

(** *** Strings *)

Lemma parse_escape_char (c : ascii) (tail : string) :
  parse_string (escape_char c ++ tail) = cons_char c (parse_string tail).
Proof.
  destruct c as [[|] [|] [|] [|] [|] [|] [|] [|]]; reflexivity.
Qed.

Lemma parse_escape (s rest : string) :
  parse_string (escape s ++ String dquote rest) = Some (s, rest).
Proof.
  induction s as [|c s IH]; simpl.
  - reflexivity.
  - now rewrite append_assoc, parse_escape_char, IH.
Qed.

(** *** Integers *)

Lemma parse_digits_nondigit (rest : string) :
  ends_value rest = true -> parse_digits rest = (Decimal.Nil, rest).
Proof.
  destruct rest as [|c rest]; simpl; [reflexivity|].
  destruct (is_digit c); simpl; [discriminate | reflexivity].
Qed.

Lemma parse_digits_uint (u : Decimal.uint) (rest : string) :
  ends_value rest = true ->
  parse_digits (DecimalString.NilEmpty.string_of_uint u ++ rest) = (u, rest).
Proof.
  intros E. induction u; cbn [DecimalString.NilEmpty.string_of_uint append];
    [now apply parse_digits_nondigit | ..];
    cbn [parse_digits]; rewrite IHu; reflexivity.
Qed.

Lemma nzhead_no_zero_head (u u' : Decimal.uint) :
  Decimal.nzhead u <> Decimal.D0 u'.
Proof. induction u; simpl; auto; discriminate. Qed.

Lemma to_uint_no_zero_head (p : positive) (u : Decimal.uint) :
  Pos.to_uint p <> Decimal.D0 u.
Proof.
  intros E.
  assert (N : Decimal.unorm (Pos.to_uint p) = Pos.to_uint p).
  { rewrite <- (DecimalN.Unsigned.to_of (Pos.to_uint p)).
    unfold N.of_uint. now rewrite DecimalPos.Unsigned.of_to. }
  rewrite E in N. unfold Decimal.unorm in N.
  destruct (Decimal.nzhead (Decimal.D0 u)) eqn:H;
    try discriminate.
  - injection N as <-. now apply (DecimalPos.Unsigned.to_uint_nonzero p).
  - now apply (nzhead_no_zero_head (Decimal.D0 u) u0).
Qed.

Lemma digit_not_special (c : ascii) :
  is_digit c = true \/ c = "-"%char ->
  Ascii.eqb c dquote = false /\ Ascii.eqb c "{" = false
  /\ Ascii.eqb c "[" = false /\ Ascii.eqb c "n" = false
  /\ Ascii.eqb c "t" = false /\ Ascii.eqb c "f" = false
  /\ Ascii.eqb c "]" = false /\ Ascii.eqb c "}" = false
  /\ is_ws c = false.
Proof.
  intros H.
  assert (G : forall x, is_digit x = false -> x <> "-"%char ->
                        Ascii.eqb c x = false).
  { intros x D M. destruct (Ascii.eqb_spec c x) as [->|]; [|reflexivity].
    destruct H; congruence. }
  unfold is_ws. rewrite !G by (reflexivity || discriminate).
  repeat split; reflexivity.
Qed.

Lemma parse_number_pos (p : positive) (rest : string) :
  ends_value rest = true ->
  parse_nat (DecimalString.NilEmpty.string_of_uint (Pos.to_uint p) ++ rest)
  = Some (Npos p, rest)
  /\ exists c s,
      DecimalString.NilEmpty.string_of_uint (Pos.to_uint p) = String c s
      /\ is_digit c = true.
Proof.
  intros E.
  assert (F : starts_float_part rest = false).
  { destruct rest as [|c rest]; [reflexivity|]. simpl in E.
    apply andb_true_iff in E. destruct E as [_ E].
    now apply negb_true_iff in E. }
  unfold parse_nat. rewrite parse_digits_uint by exact E.
  pose proof (DecimalPos.Unsigned.of_to p) as O.
  pose proof (DecimalPos.Unsigned.to_uint_nonnil p) as NN.
  pose proof (to_uint_no_zero_head p) as NZ.
  destruct (Pos.to_uint p) as [|u|u|u|u|u|u|u|u|u|u] eqn:U;
    [ now destruct NN | now destruct (NZ u) | .. ];
    rewrite F; unfold N.of_uint; rewrite O;
    (split; [reflexivity | eexists; eexists; split; reflexivity]).
Qed.

Lemma parse_number_int (n : Z) (rest : string) :
  ends_value rest = true ->
  parse_number (encode_int n ++ rest) = Some (VInt n, rest)
  /\ exists c s,
      encode_int n = String c s /\ (is_digit c = true \/ c = "-"%char).
Proof.
  intros E.
  assert (F : starts_float_part rest = false).
  { destruct rest as [|c rest]; [reflexivity|]. simpl in E.
    apply andb_true_iff in E. destruct E as [_ E].
    now apply negb_true_iff in E. }
  destruct n as [|p|p]; cbn [encode_int].
  - split; [|exists "0"%char, ""; auto].
    cbn [append parse_number]. cbn [Ascii.eqb Bool.eqb].
    unfold parse_nat. cbn [parse_digits is_digit].
    rewrite (parse_digits_nondigit rest E). simpl. now rewrite F.
  - destruct (parse_number_pos p rest E) as [P [c [s [S D]]]].
    split; [|exists c, s; auto].
    unfold parse_number. rewrite S in *. cbn [append].
    assert (M : Ascii.eqb c "-" = false).
    { destruct (Ascii.eqb_spec c "-") as [->|]; [discriminate|reflexivity]. }
    rewrite M. cbn [append] in P. now rewrite P.
  - destruct (parse_number_pos p rest E) as [P _].
    split; [|eexists; eexists; split; [reflexivity|now right]].
    cbn [append parse_number]. cbn [Ascii.eqb Bool.eqb].
    now rewrite P.
Qed.

(** *** Values *)

Lemma value_nested_ind (P : value -> Prop) :
  P VNone -> (forall b, P (VBool b)) -> (forall n, P (VInt n)) ->
  (forall s, P (VStr s)) ->
  (forall l, Forall P l -> P (VList l)) ->
  (forall d, Forall (fun kv => P (snd kv)) d -> P (VDict d)) ->
  (forall r, P (VObj r)) ->
  forall v, P v.
Proof.
  intros HN HB HI HS HL HD HO. fix IH 1.
  intros [ |b|n|s|l|d|r];
    [exact HN | apply HB | apply HI | apply HS | | | apply HO].
  - apply HL. induction l as [|x l IHl]; constructor; [apply IH | exact IHl].
  - apply HD. induction d as [|[k x] d IHd]; constructor;
      [apply IH | exact IHd].
Qed.

Lemma encode_starts_value (level : nat) (v : value) (rest : string) :
  starts_value (encode level v ++ rest) = true.
Proof.
  destruct v as [ |[|]|n|s|l|d|r]; try reflexivity.
  - destruct (parse_number_int n "" eq_refl) as [_ [c [s [E D]]]].
    cbn [encode]. rewrite E. cbn [append starts_value].
    destruct (digit_not_special c D) as (_ & _ & _ & _ & _ & _ & A & B & C).
    now rewrite A, B, C.
  - cbn [encode]. destruct (map (encode (S level)) l); reflexivity.
  - cbn [encode]. unfold encode_members.
    destruct (map encode_member _); reflexivity.
Qed.

Lemma dict_set_fresh (acc : list (string * value)) (k : string) (v : value) :
  ~ In k (map fst acc) -> dict_set acc k v = acc ++ [(k, v)].
Proof.
  induction acc as [|[k' v'] acc IH]; simpl; intros N.
  - reflexivity.
  - destruct (String.eqb_spec k' k) as [->|D]; [tauto|].
    rewrite IH; tauto.
Qed.

Lemma distinct_iff (keys : list string) :
  distinct keys = true <-> NoDup keys.
Proof.
  induction keys as [|k keys IH]; simpl.
  - split; [constructor | reflexivity].
  - rewrite andb_true_iff, negb_true_iff, IH. split.
    + intros [M D]. constructor; [|exact D].
      intros I. apply mem_iff in I. congruence.
    + intros D. inversion D as [|? ? N D']. subst. split; [|exact D'].
      destruct (mem k keys) eqn:M; [|reflexivity].
      apply mem_iff in M. contradiction.
Qed.

Lemma dict_of_pairs_app (d acc : list (string * value)) :
  NoDup (map fst d) ->
  (forall k, In k (map fst d) -> ~ In k (map fst acc)) ->
  fold_left (fun d kv => dict_set d (fst kv) (snd kv)) d acc = acc ++ d.
Proof.
  revert acc. induction d as [|[k v] d IH]; intros acc D F; simpl.
  - now rewrite app_nil_r.
  - inversion D as [|? ? N D']. subst.
    rewrite dict_set_fresh by (apply F; now left).
    rewrite IH; [now rewrite <- app_assoc | exact D' |].
    intros k' I. rewrite map_app, in_app_iff. simpl.
    intros [J|[J|[]]]; [apply (F k'); auto; now right|].
    subst. contradiction.
Qed.

Lemma dict_of_distinct_pairs (d : list (string * value)) :
  distinct (map fst d) = true -> dict_of_pairs d = d.
Proof.
  intros D. unfold dict_of_pairs.
  rewrite dict_of_pairs_app; [reflexivity | now apply distinct_iff | auto].
Qed.

Lemma parse_items_step (fuel : nat) (s : string) (items : list value) :
  parse_items (S fuel) s items
  = match parse_value fuel s with
    | None => None
    | Some (v, rest) =>
      match skip_ws rest with
      | EmptyString => None
      | String c rest' =>
        if Ascii.eqb c ","
        then parse_items fuel (skip_ws rest') (items ++ [v])
        else if Ascii.eqb c "]" then Some (items ++ [v], rest')
        else None
      end
    end.
Proof. reflexivity. Qed.

Lemma items_read_back (level : nat) (l : list value) :
  Forall (fun x => native x = true -> reads_back x) l ->
  forallb native l = true ->
  forall x acc rest fuel,
    reads_back x ->
    S (cost x + fold_right (fun x n => S (cost x + n)) 0 l) <= fuel ->
    parse_items fuel
      (encode (S level) x
       ++ encode_rest (S level) (map (encode (S level)) l)
       ++ newline_indent level ++ String "]" rest) acc
    = Some (acc ++ x :: l, rest).
Proof.
  induction 1 as [|y l Hy F IH]; intros N x acc rest fuel Hx C;
    (destruct fuel as [|fuel]; [lia|]); rewrite parse_items_step.
  - cbn [map encode_rest append].
    rewrite Hx by (simpl in C; lia || reflexivity).
    rewrite skip_ws_indent. reflexivity.
  - cbn [map encode_rest]. cbn [forallb] in N.
    apply andb_true_iff in N. destruct N as [Ny N].
    cbn [fold_right] in C.
    rewrite !append_assoc. cbn [append].
    rewrite Hx by (lia || reflexivity).
    cbn [skip_ws is_ws Ascii.eqb Bool.eqb orb].
    rewrite skip_ws_indent, skip_ws_value by apply encode_starts_value.
    rewrite IH by (auto; lia).
    now rewrite <- app_assoc.
Qed.

Lemma parse_members_step (fuel : nat) (q : ascii) (rest : string)
    (pairs : list (string * value)) :
  parse_members (S fuel) (String q rest) pairs
  = if negb (Ascii.eqb q dquote) then None
    else
      match parse_string rest with
      | None => None
      | Some (key, rest1) =>
        match skip_ws rest1 with
        | EmptyString => None
        | String colon rest2 =>
          if negb (Ascii.eqb colon ":") then None
          else
            match parse_value fuel (skip_ws rest2) with
            | None => None
            | Some (v, rest3) =>
              match skip_ws rest3 with
              | EmptyString => None
              | String c rest4 =>
                if Ascii.eqb c "," then
                  parse_members fuel (skip_ws rest4) (pairs ++ [(key, v)])
                else if Ascii.eqb c "}" then Some (pairs ++ [(key, v)], rest4)
                else None
              end
            end
        end
      end.
Proof. reflexivity. Qed.

(** A member as it is written: the key, a colon, a blank, the value. *)
Lemma encode_member_text (k e tail : string) :
  (encode_member (k, e) ++ tail)%string
  = String dquote
      (escape k ++ String dquote (String ":" (String " " (e ++ tail)))).
Proof.
  unfold encode_member, encode_string. cbn [fst snd append].
  rewrite !append_assoc. reflexivity.
Qed.

Lemma members_read_back (level : nat) (d : list (string * value)) :
  Forall (fun kv => native (snd kv) = true -> reads_back (snd kv)) d ->
  forallb (fun kv => native (snd kv)) d = true ->
  forall k x acc rest fuel,
    reads_back x ->
    S (cost x + fold_right (fun kv n => S (cost (snd kv) + n)) 0 d) <= fuel ->
    parse_members fuel
      (encode_member (k, encode (S level) x)
       ++ encode_rest (S level)
            (map encode_member
                 (map (fun kv => (fst kv, encode (S level) (snd kv))) d))
       ++ newline_indent level ++ String "}" rest) acc
    = Some (acc ++ (k, x) :: d, rest).
Proof.
  induction 1 as [|[k' y] d Hy F IH]; intros N k x acc rest fuel Hx C;
    (destruct fuel as [|fuel]; [lia|]);
    rewrite encode_member_text, parse_members_step;
    cbn [negb Ascii.eqb Bool.eqb dquote]; rewrite parse_escape;
    cbn [skip_ws is_ws Ascii.eqb Bool.eqb orb negb];
    rewrite skip_ws_value by apply encode_starts_value.
  - cbn [map encode_rest append].
    rewrite Hx by (simpl in C; lia || reflexivity).
    rewrite skip_ws_indent. reflexivity.
  - cbn [map encode_rest]. cbn [forallb snd] in N.
    apply andb_true_iff in N. destruct N as [Ny N].
    cbn [fold_right snd] in C. cbn [snd] in Hy.
    rewrite !append_assoc. cbn [append].
    rewrite Hx by (lia || reflexivity).
    cbn [skip_ws is_ws Ascii.eqb Bool.eqb orb].
    rewrite skip_ws_indent.
    rewrite skip_ws_value.
    + cbn [fst snd]. rewrite IH by (auto; lia).
      now rewrite <- app_assoc.
    + rewrite encode_member_text. reflexivity.
Qed.

Lemma parse_value_number (fuel : nat) (c : ascii) (s : string) :
  is_digit c = true \/ c = "-"%char ->
  parse_value (S fuel) (String c s) = parse_number (String c s).
Proof.
  intros D.
  destruct (digit_not_special c D) as (A1 & A2 & A3 & A4 & A5 & A6 & _).
  cbn [parse_value]. now rewrite A1, A2, A3, A4, A5, A6.
Qed.

Lemma starts_value_inv (s : string) :
  starts_value s = true ->
  exists c rest,
    s = String c rest /\ Ascii.eqb c "]" = false /\ Ascii.eqb c "}" = false.
Proof.
  destruct s as [|c rest]; simpl; [discriminate|].
  intros H. apply andb_true_iff in H. destruct H as [H B].
  apply andb_true_iff in H. destruct H as [_ A].
  apply negb_true_iff in A, B. now exists c, rest.
Qed.

Lemma native_reads_back (v : value) : native v = true -> reads_back v.
Proof.
  induction v as [ |b|n|s|l IH|d IH|r] using value_nested_ind;
    intros N level rest fuel C E;
    (destruct fuel as [|fuel]; [simpl in C; lia|]).
  - reflexivity.
  - destruct b; reflexivity.
  - destruct (parse_number_int n rest E) as [P [c [s [S D]]]].
    cbn [encode]. rewrite S in *. cbn [append] in *.
    now rewrite parse_value_number.
  - cbn [encode]. unfold encode_string. cbn [append parse_value].
    rewrite Ascii.eqb_refl, append_assoc. cbn [append].
    now rewrite parse_escape.
  - cbn [encode]. destruct l as [|x l]; [reflexivity|].
    cbn [map encode_items]. rewrite !append_assoc. cbn [append parse_value].
    cbn [Ascii.eqb Bool.eqb dquote].
    rewrite skip_ws_indent, skip_ws_value by apply encode_starts_value.
    destruct (starts_value_inv _ (encode_starts_value (S level) x
                (encode_rest (S level) (map (encode (S level)) l)
                 ++ newline_indent level ++ String "]" rest)))
      as [c [tail [T [B _]]]].
    rewrite T, B, <- T.
    inversion IH as [|? ? Hx Hl]. subst.
    cbn [native forallb] in N. apply andb_true_iff in N.
    destruct N as [Nx Nl]. cbn [cost fold_right] in C.
    rewrite (items_read_back level l Hl Nl x [] rest fuel (Hx Nx))
      by lia.
    reflexivity.
  - cbn [encode native] in *. apply andb_true_iff in N.
    destruct N as [K N].
    destruct d as [|[k x] d]; [reflexivity|].
    unfold encode_members. cbn [map fst snd].
    rewrite !append_assoc. cbn [append parse_value].
    cbn [Ascii.eqb Bool.eqb dquote].
    rewrite skip_ws_indent.
    rewrite skip_ws_value by (rewrite encode_member_text; reflexivity).
    rewrite encode_member_text at 1.
    cbn [Ascii.eqb Bool.eqb dquote].
    rewrite <- encode_member_text.
    inversion IH as [|? ? Hx Hd]. subst. cbn [snd] in Hx.
    cbn [forallb snd] in N. apply andb_true_iff in N.
    destruct N as [Nx Nd]. cbn [cost fold_right snd] in C.
    rewrite (members_read_back level d Hd Nd k x [] rest fuel (Hx Nx))
      by lia.
    cbn [app]. now rewrite dict_of_distinct_pairs.
  - discriminate.
Qed.

(** *** Enough fuel: the text is longer than the reading is deep *)

Lemma length_encode_rest (level : nat) (l : list value)
    (f : value -> string) :
  Forall (fun x => cost x <= String.length (f x)) l ->
  fold_right (fun x n => S (cost x + n)) 0 l
  <= String.length (encode_rest level (map f l)).
Proof.
  induction 1 as [|x l Hx F IH]; cbn [map encode_rest fold_right].
  - apply Nat.le_0_l.
  - rewrite !length_append. simpl String.length. lia.
Qed.

Lemma length_encode_rest_members (level : nat) (d : list (string * value))
    (f : value -> string) :
  Forall (fun kv => cost (snd kv) <= String.length (f (snd kv))) d ->
  fold_right (fun kv n => S (cost (snd kv) + n)) 0 d
  <= String.length
       (encode_rest level
          (map encode_member (map (fun kv => (fst kv, f (snd kv))) d))).
Proof.
  induction 1 as [|[k x] d Hx F IH]; cbn [map encode_rest fold_right].
  - apply Nat.le_0_l.
  - unfold encode_member at 1. cbn [fst snd] in *.
    rewrite !length_append. simpl String.length. lia.
Qed.

Lemma cost_le_length (v : value) :
  forall level, cost v <= String.length (encode level v).
Proof.
  induction v as [ |b|n|s|l IH|d IH|r] using value_nested_ind; intros level.
  - simpl. lia.
  - destruct b; simpl; lia.
  - destruct (parse_number_int n "" eq_refl) as [_ [c [s [E _]]]].
    cbn [encode cost]. rewrite E. simpl. lia.
  - simpl. lia.
  - cbn [encode cost]. destruct l as [|x l]; [simpl; lia|].
    inversion IH as [|? ? Hx Hl]. subst.
    cbn [map encode_items fold_right].
    pose proof (length_encode_rest (S level) l (encode (S level))) as R.
    rewrite !length_append. simpl String.length.
    specialize (Hx (S level)).
    assert (Forall (fun x => cost x <= String.length (encode (S level) x)) l)
      as F by (eapply Forall_impl; [|exact Hl]; intros a Ha; apply Ha).
    specialize (R F). lia.
  - cbn [encode cost]. destruct d as [|[k x] d]; [simpl; lia|].
    inversion IH as [|? ? Hx Hd]. subst. cbn [snd] in Hx.
    unfold encode_members. cbn [map fold_right fst snd].
    pose proof (length_encode_rest_members (S level) d (encode (S level)))
      as R.
    unfold encode_member at 1. cbn [fst snd].
    rewrite !length_append. simpl String.length.
    specialize (Hx (S level)).
    assert (Forall (fun kv => cost (snd kv)
                              <= String.length (encode (S level) (snd kv))) d)
      as F by (eapply Forall_impl; [|exact Hd]; intros a Ha; apply Ha).
    specialize (R F). lia.
  - simpl. lia.
Qed.

(** Writing a native value and reading the text back gives the value. *)
Lemma loads_dumps (v : value) :
  native v = true -> loads (dumps v) = Some v.
Proof.
  intros N. unfold loads, dumps.
  assert (S : skip_ws (encode 0 v) = encode 0 v).
  { apply skip_ws_value. rewrite <- (append_nil_r (encode 0 v)).
    apply encode_starts_value. }
  rewrite S.
  pose proof (native_reads_back v N 0 "" (String.length (encode 0 v))
                (cost_le_length v 0) eq_refl) as R.
  rewrite append_nil_r in R. now rewrite R.
Qed.

(** An object written through [default=str] comes back as a string. *)
Example loads_dumps_object :
  loads (dumps (VDict [("created", VObj "2024-05-01 10:00:00+00:00")]))
  = Some (VDict [("created", VStr "2024-05-01 10:00:00+00:00")]).
Proof. reflexivity. Qed.

End JsonText.

(** ** The inventory document round-trips *)

Section Persisted.
Import Py Json Inventory.

Lemma native_dict_iff (d : dict value) :
  native (VDict d) = true <-> native_dict d.
Proof.
  unfold native_dict. cbn [native].
  rewrite andb_true_iff, distinct_iff, forallb_forall, Forall_forall.
  reflexivity.
Qed.

Lemma dict_set_keys {V : Type} (d : dict V) (k : string) (v : V) :
  map fst (dict_set d k v)
  = if mem k (map fst d) then map fst d else map fst d ++ [k].
Proof.
  induction d as [|[k' v'] d IH]; simpl.
  - reflexivity.
  - rewrite (String.eqb_sym k k').
    destruct (String.eqb_spec k' k) as [->|N]; simpl.
    + reflexivity.
    + rewrite IH. now destruct (mem k (map fst d)).
Qed.

Lemma dict_set_NoDup {V : Type} (d : dict V) (k : string) (v : V) :
  NoDup (map fst d) -> NoDup (map fst (dict_set d k v)).
Proof.
  intros D. rewrite dict_set_keys.
  destruct (mem k (map fst d)) eqn:M; [exact D|].
  apply NoDup_app; [exact D | repeat constructor; auto |].
  intros x I [<-|[]]. apply mem_iff in I. congruence.
Qed.

Lemma dict_set_native (d : dict value) (k : string) (v : value) :
  native_dict d -> native v = true -> native_dict (dict_set d k v).
Proof.
  intros [D F] N. split.
  - now apply dict_set_NoDup.
  - now apply dict_set_Forall.
Qed.

Lemma native_str_dict (d : dict string) :
  distinct (map fst d) = true -> native (str_dict d) = true.
Proof.
  intros D. unfold str_dict. cbn [native].
  assert (K : map fst (map (fun kv => (fst kv, VStr (snd kv))) d) = map fst d)
    by (rewrite map_map; apply map_ext; reflexivity).
  rewrite K, D. cbn [andb].
  apply forallb_forall. intros kv I. apply in_map_iff in I.
  now destruct I as [x [<- _]].
Qed.

Lemma native_opt_str (o : option string) : native (opt_str o) = true.
Proof. now destruct o. Qed.

Lemma native_str_list (l : list string) : native (str_list l) = true.
Proof.
  unfold str_list. cbn [native]. apply forallb_forall.
  intros v I. apply in_map_iff in I. now destruct I as [x [<- _]].
Qed.

Lemma native_subnet_to_dict (s : Models.SubnetModel.t) :
  native_subnet s = true -> native (Models.SubnetModel.to_dict s) = true.
Proof.
  intros N. unfold Models.SubnetModel.to_dict. cbn [native map fst snd forallb].
  rewrite native_opt_str, native_str_dict by exact N. reflexivity.
Qed.

Lemma native_vpc_to_dict (v : Models.VPCModel.t) :
  native_vpc v = true -> native (Models.VPCModel.to_dict v) = true.
Proof.
  unfold native_vpc. rewrite !andb_true_iff.
  intros [[[[[[T S] G1] G2] G3] G4] G5].
  unfold Models.VPCModel.to_dict. cbn [native map fst snd forallb].
  rewrite native_opt_str, native_str_dict, G1, G2, G3, G4, G5 by exact T.
  assert (forallb native
            (map Models.SubnetModel.to_dict (Models.VPCModel.subnets v))
          = true) as ->; [|reflexivity].
  apply forallb_forall. intros x I. apply in_map_iff in I.
  destruct I as [s [<- I]]. apply native_subnet_to_dict.
  rewrite forallb_forall in S. now apply S.
Qed.

(** The tag dictionary that [from_aws_response] builds has distinct keys. *)
Lemma tags_dict_distinct (tags : Models.aws_tags) :
  distinct (map fst (Models.tags_dict tags)) = true.
Proof.
  apply distinct_iff. unfold Models.tags_dict.
  assert (G : forall acc : dict string,
             NoDup (map fst acc) ->
             NoDup (map fst (fold_left
                               (fun d kv => dict_set d (fst kv) (snd kv))
                               tags acc))).
  { induction tags as [|t tags IH]; intros acc D; simpl; [exact D|].
    apply IH. now apply dict_set_NoDup. }
  apply G. constructor.
Qed.

Lemma try_collect_native sel k r e d :
  native_dict d -> native_result r = true -> native e = true ->
  native_dict (try_collect sel k r e d).
Proof.
  intros D R E. unfold try_collect.
  destruct sel; [|exact D]. destruct r; now apply dict_set_native.
Qed.

Lemma native_empty_list : native (VList []) = true.
Proof. reflexivity. Qed.

Lemma collect_vpc_ec2_native cs all services d :
  native_collectors cs = true -> native_dict d ->
  native_dict (collect_vpc_ec2 cs all services d).
Proof.
  unfold native_collectors. rewrite !andb_true_iff.
  intros [[[[[[[[V E] _] _] _] _] _] _] _] D.
  unfold collect_vpc_ec2.
  destruct (all || mem "vpc" services || mem "ec2" services); [|exact D].
  destruct (vpc_collect cs) as [vpcs|e].
  - assert (N : native (VList (map Models.VPCModel.to_dict vpcs)) = true).
    { cbn [native]. apply forallb_forall. intros x I.
      apply in_map_iff in I. destruct I as [v [<- I]].
      apply native_vpc_to_dict. rewrite forallb_forall in V. now apply V. }
    destruct (all || mem "ec2" services).
    + destruct (collect_ec2_instances cs);
        repeat apply dict_set_native; auto.
    + now apply dict_set_native.
  - repeat apply dict_set_native; auto.
Qed.

Lemma native_list_result_value (r : result (list value)) :
  native_list_result r = true -> native_result (list_result r) = true.
Proof. now destruct r. Qed.

Lemma collect_region_resources_native cs t region services :
  native_collectors cs = true ->
  native_dict (collect_region_resources cs t region services).
Proof.
  intros N. pose proof N as N'. unfold native_collectors in N'.
  rewrite !andb_true_iff in N'.
  destruct N' as [[[[[[[[_ _] C1] C2] C3] C4] C5] C6] C7].
  unfold collect_region_resources. cbv zeta.
  repeat (apply try_collect_native;
          [ | auto using native_list_result_value | reflexivity ]).
  apply collect_vpc_ec2_native; [exact N|].
  split; [repeat constructor; simpl; intuition discriminate|].
  repeat constructor.
Qed.

Lemma region_entry_native p services region :
  native_collectors (region_collectors p region) = true ->
  native_dict (region_entry p services region).
Proof.
  intros N. unfold region_entry. destruct (open_session p region).
  - now apply collect_region_resources_native.
  - split; [repeat constructor; simpl; intuition discriminate|].
    repeat constructor.
Qed.

Lemma collect_regions_native p services regions :
  (forall region, In region regions ->
                  native_collectors (region_collectors p region) = true) ->
  NoDup (map fst (collect_regions p services regions))
  /\ Forall (fun kv => native_dict (snd kv))
            (collect_regions p services regions).
Proof.
  unfold collect_regions.
  assert (G : forall acc : dict (dict value),
             (forall region, In region regions ->
                native_collectors (region_collectors p region) = true) ->
             NoDup (map fst acc) ->
             Forall (fun kv => native_dict (snd kv)) acc ->
             NoDup (map fst (fold_left
                (fun inv region =>
                   dict_set inv region (region_entry p services region))
                regions acc))
             /\ Forall (fun kv => native_dict (snd kv))
                  (fold_left
                     (fun inv region =>
                        dict_set inv region (region_entry p services region))
                     regions acc)).
  { induction regions as [|r regions IH]; intros acc N D F; simpl.
    - auto.
    - apply IH.
      + intros region I. apply N. now right.
      + now apply dict_set_NoDup.
      + apply dict_set_Forall; [exact F|].
        apply region_entry_native. apply N. now left. }
  intros N. apply G; [exact N | constructor | constructor].
Qed.

Lemma inventory_document_native p account_id generated_at role_arn cloudfront
    regions services :
  (forall region, In region regions ->
                  native_collectors (region_collectors p region) = true) ->
  native_result cloudfront = true ->
  native (inventory_document p account_id generated_at role_arn cloudfront
            regions services) = true.
Proof.
  intros N C. unfold inventory_document. cbv zeta.
  apply native_dict_iff. apply try_collect_native; [|exact C|reflexivity].
  destruct (collect_regions_native p services regions N) as [D F].
  split; [repeat constructor; simpl; intuition discriminate|].
  constructor; [|constructor; [|constructor]]; cbn [snd].
  - cbn [native map fst snd forallb distinct mem existsb String.eqb
             Ascii.eqb Bool.eqb negb andb orb].
    now rewrite native_str_list, native_str_list, native_opt_str.
  - apply native_dict_iff. split.
    + rewrite map_map. cbn [fst].
      erewrite map_ext; [exact D | reflexivity].
    + apply Forall_forall. intros kv I. apply in_map_iff in I.
      destruct I as [[r d] [<- I]]. cbn [snd].
      apply native_dict_iff. rewrite Forall_forall in F.
      apply (F (r, d) I).
Qed.

(** C7. When the VPC models have tag dictionaries with distinct keys and
    the entries handed over by the collectors are values that [json] writes
    natively, the inventory document of [main], written with
    [json.dump(..., indent=2, default=str)] and read with [json.load], comes
    back equal to itself. *)
Theorem inventory_round_trips p account_id generated_at role_arn cloudfront
    regions services :
  (forall region, In region regions ->
                  native_collectors (region_collectors p region) = true) ->
  native_result cloudfront = true ->
  loads (dumps (inventory_document p account_id generated_at role_arn
                  cloudfront regions services))
  = Some (inventory_document p account_id generated_at role_arn cloudfront
            regions services).
Proof.
  intros N C. apply loads_dumps. now apply inventory_document_native.
Qed.

Lemma inventory_round_trips_witness :
  loads (dumps Scenario.two_region_document)
  = Some Scenario.two_region_document.
Proof.
  apply (inventory_round_trips Scenario.two_regions "123456789012"
           "2024-05-01T10:00:02+00:00" None (Raise "AccessDenied")
           ["eu-west-1"; "us-east-1"] ["vpc"; "rds"]).
  - intros region _. reflexivity.
  - reflexivity.
Defined.

(** The same run, computed: the reader gives back the document. *)
Example two_region_document_computed :
  loads (dumps Scenario.two_region_document)
  = Some Scenario.two_region_document.
Proof. vm_compute. reflexivity. Qed.

End Persisted.
(** ** The region entry, key by key *)

Section RegionEntryKeys.
Import Py Inventory Orchestration.

Lemma try_collect_same sel k r e d :
  dict_get (try_collect sel k r e d) k
  = if sel then Some (match r with Ok v => v | Raise _ => e end)
    else dict_get d k.
Proof.
  unfold try_collect. destruct sel; [|reflexivity].
  destruct r; apply dict_get_set_same.
Qed.

Lemma collect_vpc_ec2_get_vpcs cs all services d :
  dict_get d "vpcs" = None ->
  dict_get (collect_vpc_ec2 cs all services d) "vpcs"
  = if all || mem "vpc" services || mem "ec2" services then
      Some (match vpc_collect cs with
            | Ok vpcs =>
              if (all || mem "ec2" services)
                 && is_raise (collect_ec2_instances cs)
              then VList []
              else VList (map Models.VPCModel.to_dict vpcs)
            | Raise _ => VList []
            end)
    else None.
Proof.
  intros D. unfold collect_vpc_ec2.
  destruct (all || mem "vpc" services || mem "ec2" services); [|exact D].
  destruct (vpc_collect cs) as [vpcs|e].
  - destruct (all || mem "ec2" services); cbn [andb].
    + destruct (collect_ec2_instances cs); cbn [is_raise];
        rewrite dict_get_set_other by discriminate;
        now rewrite dict_get_set_same.
    + now rewrite dict_get_set_same.
  - rewrite dict_get_set_other by discriminate.
    now rewrite dict_get_set_same.
Qed.

Lemma collect_vpc_ec2_get_instances cs all services d :
  dict_get d "ec2_instances" = None ->
  dict_get (collect_vpc_ec2 cs all services d) "ec2_instances"
  = if all || mem "vpc" services || mem "ec2" services then
      match vpc_collect cs with
      | Ok _ =>
        if all || mem "ec2" services then
          Some (match collect_ec2_instances cs with
                | Ok instances => instances
                | Raise _ => VList []
                end)
        else None
      | Raise _ => Some (VList [])
      end
    else None.
Proof.
  intros D. unfold collect_vpc_ec2.
  destruct (all || mem "vpc" services || mem "ec2" services); [|exact D].
  destruct (vpc_collect cs) as [vpcs|e].
  - destruct (all || mem "ec2" services).
    + destruct (collect_ec2_instances cs); now rewrite dict_get_set_same.
    + now rewrite dict_get_set_other by discriminate.
  - now rewrite dict_get_set_same.
Qed.

(** X2. Every key of a region entry depends on its own collection only: a
    selected service's key holds what its collector returned, or the empty
    document when it raised, whatever the other collectors did; a service
    that is not selected leaves no key.  The two keys of the VPC block are
    the exception: [vpcs] is also written when only [ec2] is selected, the
    collected VPCs are replaced by the empty list when the instance
    collection raises after them, and [ec2_instances] is written (empty)
    when the VPC collection raises even if [ec2] is not selected. *)
Theorem region_entry_key_by_key (cs : collectors) (t region : string)
    (services : list string) :
  let region_data := collect_region_resources cs t region services in
  let sel := selected services in
  dict_get region_data "region" = Some (VStr region)
  /\ dict_get region_data "collected_at" = Some (VStr t)
  /\ dict_get region_data "ecs_clusters"
     = (if sel "ecs"
        then Some (or_default (list_result (ecs_collect cs)) (VList []))
        else None)
  /\ dict_get region_data "eks_clusters"
     = (if sel "eks"
        then Some (or_default (list_result (eks_collect cs)) (VList []))
        else None)
  /\ dict_get region_data "rds"
     = (if sel "rds" then Some (or_default (rds_collect cs) rds_default)
        else None)
  /\ dict_get region_data "elasticache"
     = (if sel "elasticache"
        then Some (or_default (redis_collect cs) elasticache_default)
        else None)
  /\ dict_get region_data "load_balancers"
     = (if sel "elb"
        then Some (or_default (elb_collect cs) load_balancers_default)
        else None)
  /\ dict_get region_data "elasticbeanstalk"
     = (if sel "elasticbeanstalk"
        then Some (or_default (eb_collect cs) elasticbeanstalk_default)
        else None)
  /\ dict_get region_data "redshift"
     = (if sel "redshift"
        then Some (or_default (redshift_collect cs) redshift_default)
        else None)
  /\ dict_get region_data "vpcs"
     = (if sel "vpc" || sel "ec2" then
          Some (match vpc_collect cs with
                | Ok vpcs =>
                  if sel "ec2" && is_raise (collect_ec2_instances cs)
                  then VList []
                  else VList (map Models.VPCModel.to_dict vpcs)
                | Raise _ => VList []
                end)
        else None)
  /\ dict_get region_data "ec2_instances"
     = (if sel "vpc" || sel "ec2" then
          match vpc_collect cs with
          | Ok _ =>
            if sel "ec2"
            then Some (or_default (collect_ec2_instances cs) (VList []))
            else None
          | Raise _ => Some (VList [])
          end
        else None).
Proof.
  cbv zeta. unfold collect_region_resources, selected. cbv zeta.
  assert (S : mem "all" services || mem "vpc" services
              || (mem "all" services || mem "ec2" services)
              = mem "all" services || mem "vpc" services
                || mem "ec2" services).
  { destruct (mem "all" services), (mem "vpc" services); reflexivity. }
  repeat split;
    repeat first
      [ rewrite try_collect_other by discriminate
      | rewrite try_collect_same
      | rewrite collect_vpc_ec2_other by discriminate
      | rewrite collect_vpc_ec2_get_vpcs by reflexivity
      | rewrite collect_vpc_ec2_get_instances by reflexivity ];
    rewrite ?S; unfold or_default;
    repeat match goal with
           | |- context [if ?b then _ else _] => destruct b
           end; reflexivity.
Qed.

End RegionEntryKeys.

(** ** The region loop and the generators *)

Section Pipeline.
Import Py Inventory.

Lemma dict_get_In {V : Type} (d : dict V) (k : string) (v : V) :
  NoDup (map fst d) -> (In (k, v) d <-> dict_get d k = Some v).
Proof.
  induction d as [|[k' v'] d IH]; simpl; intros D.
  - split; [contradiction | discriminate].
  - inversion D as [|? ? N D']. subst.
    destruct (String.eqb_spec k' k) as [->|E].
    + split.
      * intros [I|I]; [congruence|].
        exfalso. apply N. apply in_map_iff. now exists (k, v).
      * intros [= <-]. now left.
    + rewrite <- (IH D'). split; [intros [I|I]; [congruence|exact I]|auto].
Qed.

Lemma collect_regions_fold_get p services regions
    (acc : dict (dict value)) (r : string) :
  dict_get
    (fold_left
       (fun inv region => dict_set inv region (region_entry p services region))
       regions acc) r
  = if mem r regions then Some (region_entry p services r)
    else dict_get acc r.
Proof.
  revert acc. induction regions as [|x regions IH]; intros acc; simpl.
  - reflexivity.
  - rewrite IH. change (existsb (String.eqb r) regions) with (mem r regions).
    destruct (mem r regions); [now rewrite orb_true_r|].
    rewrite orb_false_r. destruct (String.eqb_spec r x) as [->|N].
    + now rewrite dict_get_set_same.
    + now rewrite dict_get_set_other by congruence.
Qed.

Lemma collect_regions_NoDup p services regions :
  NoDup (dict_keys (collect_regions p services regions)).
Proof.
  unfold collect_regions, dict_keys.
  assert (G : forall acc : dict (dict value),
             NoDup (map fst acc) ->
             NoDup (map fst
               (fold_left
                  (fun inv region =>
                     dict_set inv region (region_entry p services region))
                  regions acc))).
  { induction regions as [|x regions IH]; intros acc D; simpl; [exact D|].
    apply IH. now apply dict_set_NoDup. }
  apply G. constructor.
Qed.

(** X3. After the region loop of [main] every scanned region has one
    entry, the one its turn of the loop built (a region scanned twice keeps
    one entry), and no other region has one; the entry has an [error] key
    exactly when opening the region's session raised; so the region loops
    of the diagram generators see exactly the scanned regions whose session
    opened, each with the collections of [collect_region_resources]. *)
Theorem scanned_regions_reach_the_generators (p : provider)
    (services regions : list string) :
  (forall r,
      dict_get (collect_regions p services regions) r
      = if mem r regions then Some (region_entry p services r) else None)
  /\ NoDup (dict_keys (collect_regions p services regions))
  /\ (forall r,
        dict_mem (region_entry p services r) "error"
        = is_raise (open_session p r))
  /\ (forall r e,
        In (r, e) (readable (collect_regions p services regions)) <->
        In r regions
        /\ is_raise (open_session p r) = false
        /\ e = collect_region_resources (region_collectors p r) (now p)
                 r services).
Proof.
  assert (G : forall r,
             dict_get (collect_regions p services regions) r
             = if mem r regions then Some (region_entry p services r)
               else None).
  { intros r. unfold collect_regions. now rewrite collect_regions_fold_get. }
  assert (E : forall r,
             dict_mem (region_entry p services r) "error"
             = is_raise (open_session p r)).
  { intros r. unfold region_entry. destruct (open_session p r); simpl.
    - apply collected_region_no_error.
    - reflexivity. }
  split; [exact G|]. split; [apply collect_regions_NoDup|].
  split; [exact E|].
  intros r e. unfold readable. rewrite filter_In. cbn [snd].
  rewrite (dict_get_In _ r e (collect_regions_NoDup p services regions)).
  rewrite G, negb_true_iff. split.
  - intros [H X]. destruct (mem r regions) eqn:M; [|discriminate].
    injection H as <-. rewrite E in X. apply mem_iff in M.
    split; [exact M|]. split; [exact X|].
    unfold region_entry. destruct (open_session p r); [reflexivity|].
    discriminate.
  - intros (I & X & ->). apply mem_iff in I. rewrite I.
    assert (R : region_entry p services r
                = collect_region_resources (region_collectors p r) (now p)
                    r services).
    { unfold region_entry. destruct (open_session p r); [reflexivity|].
      discriminate. }
    rewrite <- R. split; [reflexivity|]. now rewrite E.
Qed.

End Pipeline.
(** ** From the collector's instance entries to the categories *)

Section CollectedInstances.
Import Py Doc Detailed VPCCollector.

Lemma name_from_tags_none (tags : Models.aws_tags) :
  Models.get_name_from_tags tags = None
  <-> mem "Name" (map fst tags) = false.
Proof.
  unfold mem.
  induction tags as [|[k v] tags IH];
    cbn [Models.get_name_from_tags map fst existsb].
  - tauto.
  - rewrite (String.eqb_sym "Name" k).
    destruct (String.eqb k "Name"); cbn [orb];
      [split; discriminate | exact IH].
Qed.

Lemma simplified_running (i : aws_instance) :
  is_running (simplify_instance i)
  = match StateName i with
    | Some s => String.eqb s "running"
    | None => false
    end.
Proof. reflexivity. Qed.

Lemma categorize_loop_raises_attribute_error eksp ecsp instances c e :
  categorize_loop eksp ecsp instances c = Raise e -> e = "AttributeError".
Proof.
  revert c. induction instances as [|i instances IH]; intros c; simpl.
  - discriminate.
  - destruct (categorize_step eksp ecsp c i) as [c'|e'] eqn:E; simpl.
    + apply IH.
    + intros [= <-]. unfold categorize_step in E.
      destruct (negb (is_running i)); [discriminate|].
      destruct (Instance.name i); [|congruence].
      destruct (is_eks _ _ _); [discriminate|].
      destruct (is_ecs _ _ _); discriminate.
Qed.

(** X4. On the instance entries that the VPC collector writes, the
    categorization raises [AttributeError] exactly when some running
    instance has no Name tag; otherwise it returns the three filters of the
    entries. *)
Theorem categorize_collected_instances (raw : list aws_instance)
    (ecs_clusters : list ECSCluster.t) (eks_clusters : list EKSCluster.t) :
  categorize_ec2_instances (simplify_ec2_instances raw)
                           ecs_clusters eks_clusters
  = if existsb running_without_name raw then Raise "AttributeError"
    else
      Ok {| standalone :=
              filter (in_standalone (eks_patterns_of eks_clusters)
                                    (ecs_patterns_of ecs_clusters))
                     (simplify_ec2_instances raw);
            ecs :=
              filter (in_ecs (eks_patterns_of eks_clusters)
                             (ecs_patterns_of ecs_clusters))
                     (simplify_ec2_instances raw);
            eks :=
              filter (in_eks (eks_patterns_of eks_clusters))
                     (simplify_ec2_instances raw) |}.
Proof.
  destruct (existsb running_without_name raw) eqn:X.
  - apply existsb_exists in X. destruct X as [i [I R]].
    unfold running_without_name in R. apply andb_true_iff in R.
    destruct R as [R N]. apply negb_true_iff, name_from_tags_none in N.
    destruct (categorize_loop_nameless
                (eks_patterns_of eks_clusters) (ecs_patterns_of ecs_clusters)
                (simplify_ec2_instances raw)
                {| standalone := []; ecs := []; eks := [] |}
                (simplify_instance i)) as [e E].
    + unfold simplify_ec2_instances. now apply in_map.
    + now rewrite simplified_running.
    + exact N.
    + unfold categorize_ec2_instances. rewrite E.
      now rewrite (categorize_loop_raises_attribute_error _ _ _ _ _ E).
  - apply categorize_named. unfold all_named, simplify_ec2_instances.
    apply Forall_forall. intros j J R. apply in_map_iff in J.
    destruct J as [i [<- I]]. rewrite simplified_running in R.
    cbn [simplify_instance Instance.name]. intros N.
    apply name_from_tags_none in N.
    assert (running_without_name i = true) as W.
    { unfold running_without_name. rewrite N.
      destruct (StateName i); [now rewrite R | discriminate]. }
    assert (existsb running_without_name raw = true) as Y.
    { apply existsb_exists. now exists i. }
    congruence.
Qed.

End CollectedInstances.
(** ** Grouping with [setdefault(...).append(...)] *)

Section Grouping.
Import Py Helpers.

Context {A B : Type}.
Variable key : A -> option string.
Variable val : A -> B.

Let keyed (k : string) (x : A) : bool :=
  match key x with
  | Some k' => String.eqb k' k
  | None => false
  end.

Let step (d : dict (list B)) (x : A) : dict (list B) :=
  match key x with
  | Some k => setdefault_append d k (val x)
  | None => d
  end.

Lemma grouping_get (l : list A) (acc : dict (list B)) (k : string) :
  dict_get (fold_left step l acc) k
  = if dict_mem acc k || existsb (keyed k) l
    then Some (get_default (dict_get acc k) []
               ++ map val (filter (keyed k) l))
    else None.
Proof.
  revert acc. induction l as [|x l IH]; intros acc; cbn [fold_left].
  - cbn [existsb filter map]. rewrite orb_false_r, app_nil_r.
    unfold dict_mem. now destruct (dict_get acc k).
  - rewrite IH. cbn [existsb filter]. unfold step, keyed.
    destruct (key x) as [k'|]; [|reflexivity].
    unfold setdefault_append.
    destruct (String.eqb_spec k' k) as [->|N].
    + rewrite dict_mem_set, String.eqb_refl, dict_get_set_same.
      cbn [orb get_default map]. rewrite orb_true_r.
      now rewrite <- app_assoc.
    + rewrite dict_mem_set, dict_get_set_other by exact N.
      destruct (String.eqb_spec k' k); [contradiction|]. reflexivity.
Qed.

Lemma grouping_NoDup (l : list A) (acc : dict (list B)) :
  NoDup (map fst acc) -> NoDup (map fst (fold_left step l acc)).
Proof.
  revert acc. induction l as [|x l IH]; intros acc D; cbn [fold_left].
  - exact D.
  - apply IH. unfold step. destruct (key x); [|exact D].
    now apply dict_set_NoDup.
Qed.

Lemma grouping_from_empty (l : list A) (k : string) :
  dict_get (fold_left step l []) k
  = match filter (keyed k) l with
    | [] => None
    | members => Some (map val members)
    end.
Proof.
  rewrite grouping_get. cbn [dict_mem dict_get orb get_default app].
  induction l as [|x l IH]; cbn [existsb filter]; [reflexivity|].
  destruct (keyed k x); cbn [orb]; [reflexivity | exact IH].
Qed.

End Grouping.

Section NodeGroups.
Import Py Doc Helpers.

Lemma fold_left_same {S X : Type} (f g : S -> X -> S) (l : list X) (s : S) :
  (forall s x, f s x = g s x) -> fold_left f l s = fold_left g l s.
Proof.
  intros E. revert s. induction l as [|x l IH]; intros s; simpl.
  - reflexivity.
  - now rewrite E, IH.
Qed.

Lemma filter_none {X : Type} (p : X -> bool) (l : list X) :
  (forall x, p x = false) -> filter p l = [].
Proof.
  intros N. induction l as [|x l IH]; [reflexivity|].
  cbn [filter]. now rewrite N.
Qed.

(** X5. [get_eks_node_instances] groups the running instances tagged
    with the cluster's name by their node group tag: under a node group
    name it holds exactly those instances, in the order of the input; a
    name without such an instance is no key, and the empty name never
    is. *)
Theorem node_groups_hold_their_instances (ec2_list : list Instance.t)
    (cluster_name ng_name : string) :
  dict_get (get_eks_node_instances ec2_list cluster_name) ng_name
  = match filter (in_node_group cluster_name ng_name) ec2_list with
    | [] => None
    | members => Some members
    end
  /\ NoDup (dict_keys (get_eks_node_instances ec2_list cluster_name))
  /\ dict_get (get_eks_node_instances ec2_list cluster_name) "" = None.
Proof.
  set (key := fun inst : Instance.t =>
                if Detailed.is_running inst
                   && String.eqb (tag inst "eks:cluster-name") cluster_name
                   && Detailed.nonempty (tag inst "eks:nodegroup-name")
                then Some (tag inst "eks:nodegroup-name") else None).
  assert (E : get_eks_node_instances ec2_list cluster_name
              = fold_left
                  (fun d x => match key x with
                              | Some k => setdefault_append d k x
                              | None => d
                              end) ec2_list []).
  { unfold get_eks_node_instances. apply fold_left_same.
    intros d x. unfold key.
    destruct (Detailed.is_running x); cbn [negb andb]; [|reflexivity].
    now destruct (String.eqb _ _ && _). }
  assert (F : forall k,
             filter (fun x => match key x with
                              | Some k' => String.eqb k' k
                              | None => false
                              end) ec2_list
             = filter (in_node_group cluster_name k) ec2_list).
  { intros k. apply filter_ext. intros x. unfold key, in_node_group.
    destruct (Detailed.is_running x
              && String.eqb (tag x "eks:cluster-name") cluster_name
              && Detailed.nonempty (tag x "eks:nodegroup-name"));
      reflexivity. }
  assert (G : forall k,
             dict_get (get_eks_node_instances ec2_list cluster_name) k
             = match filter (in_node_group cluster_name k) ec2_list with
               | [] => None
               | members => Some members
               end).
  { intros k. rewrite E, (grouping_from_empty key (fun x => x)), F.
    destruct (filter (in_node_group cluster_name k) ec2_list);
      [reflexivity | now rewrite map_id]. }
  split; [apply G|]. split.
  - rewrite E. unfold dict_keys.
    apply (grouping_NoDup key (fun x => x)). constructor.
  - rewrite G. rewrite filter_none; [reflexivity|].
    intros x. unfold in_node_group, Detailed.nonempty.
    destruct (String.eqb_spec (tag x "eks:nodegroup-name") "");
      cbn [negb]; now rewrite ?andb_false_r.
Qed.

End NodeGroups.

Section PodsByNode.
Import Py Doc Helpers K8sCollector.

Lemma pods_by_node_as_grouping (items : list pod) :
  pods_by_node items
  = fold_left
      (fun d p => match Some (group_of p) with
                  | Some k => setdefault_append d k (pod_info p)
                  | None => d
                  end) items [].
Proof. reflexivity. Qed.

(** X6. The workload collector files every pod under one node name:
    its own, or "unscheduled" without one; under a name [pods_by_node]
    holds exactly the pods of that node, in the order of the API's list,
    and a name without pods is no key.  So the pods the detailed diagram
    finds for an instance are the pods whose node name is the instance's
    derived private DNS name. *)
Theorem pods_are_filed_by_node (items : list pod) :
  (forall node,
      dict_get (pods_by_node items) node
      = match filter (fun p => String.eqb (group_of p) node) items with
        | [] => None
        | members => Some (map pod_info members)
        end)
  /\ NoDup (dict_keys (pods_by_node items))
  /\ (forall inst region ip,
        Instance.private_ip inst = Some ip ->
        Detailed.node_pods (pods_by_node items) inst region
        = Ok (map pod_info
                (filter (fun p => String.eqb (group_of p) (dns_key ip region))
                        items))).
Proof.
  assert (G : forall node,
      dict_get (pods_by_node items) node
      = match filter (fun p => String.eqb (group_of p) node) items with
        | [] => None
        | members => Some (map pod_info members)
        end).
  { intros node. rewrite pods_by_node_as_grouping.
    apply (grouping_from_empty (fun p => Some (group_of p)) pod_info). }
  split; [exact G|]. split.
  - rewrite pods_by_node_as_grouping. unfold dict_keys.
    apply (grouping_NoDup (fun p => Some (group_of p)) pod_info).
    constructor.
  - intros inst region ip P. unfold Detailed.node_pods, Detailed.private_dns.
    rewrite P. cbn [rbind]. fold (dns_key ip region). rewrite G.
    now destruct (filter _ items).
Qed.

Lemma total_pods_step (pods_by_node : dict (list Pod.t))
    (insts : list Instance.t) (region : string) (total : nat) :
  Detailed.total_pods pods_by_node insts region total
  = if forallb has_private_ip insts
    then Ok (total + list_sum (map (pods_counted pods_by_node region) insts))
    else Raise "AttributeError".
Proof.
  revert total. induction insts as [|i insts IH]; intros total.
  - simpl. now rewrite Nat.add_0_r.
  - cbn [Detailed.total_pods forallb map list_sum].
    unfold Detailed.node_pods, Detailed.private_dns, has_private_ip,
      pods_counted at 1.
    destruct (Instance.private_ip i) as [ip|]; cbn [rbind andb];
      [|reflexivity].
    rewrite IH. fold (dns_key ip region).
    destruct (forallb _ insts); [|reflexivity].
    f_equal. unfold list_sum. cbn [fold_right]. lia.
Qed.

(** X7. The pod count of a node group is the sum, over its instances, of
    the pods filed under each instance's derived DNS name, and raises
    [AttributeError] when an instance has no private IP; without a workload
    document, with an empty one, or with one that does not list the cluster,
    [get_pods_for_cluster] is empty and the count is 0. *)
Theorem node_group_pod_count (k8s_workloads : option (dict workload))
    (cluster_name region : string) (insts : list Instance.t) :
  Detailed.total_pods (get_pods_for_cluster k8s_workloads cluster_name)
                      insts region 0
  = (if forallb has_private_ip insts
     then Ok (list_sum
                (map (pods_counted
                        (get_pods_for_cluster k8s_workloads cluster_name)
                        region) insts))
     else Raise "AttributeError")
  /\ (match k8s_workloads with
      | None => True
      | Some workloads => dict_mem workloads cluster_name = false
      end ->
      get_pods_for_cluster k8s_workloads cluster_name = []
      /\ (forallb has_private_ip insts = true ->
          Detailed.total_pods (get_pods_for_cluster k8s_workloads cluster_name)
                              insts region 0 = Ok 0)).
Proof.
  split; [apply total_pods_step|].
  intros H.
  assert (E : get_pods_for_cluster k8s_workloads cluster_name = []).
  { unfold get_pods_for_cluster. destruct k8s_workloads as [[|w ws]|]; auto.
    unfold dict_mem in H.
    now destruct (dict_get (w :: ws) cluster_name). }
  split; [exact E|]. intros I. rewrite total_pods_step, I, E.
  assert (Z : list_sum (map (pods_counted [] region) insts) = 0).
  { clear. induction insts as [|i insts IH]; [reflexivity|].
    unfold list_sum in *. cbn [map fold_right]. rewrite IH.
    unfold pods_counted. now destruct (Instance.private_ip i). }
  now rewrite Z.
Qed.

End PodsByNode.
(** ** Names of services and of output files *)

Section ServiceNames.
Import Py Helpers.

Lemma drop_prefix_app (w r : string) : drop_prefix w (w ++ r) = Some r.
Proof.
  induction w as [|c w IH]; simpl; [reflexivity|].
  now rewrite Ascii.eqb_refl.
Qed.

Lemma drop_prefix_some (w s r : string) :
  drop_prefix w s = Some r -> s = (w ++ r)%string.
Proof.
  revert s. induction w as [|c w IH]; intros s; simpl.
  - now intros [= ->].
  - destruct s as [|x s]; [discriminate|].
    destruct (Ascii.eqb_spec c x) as [->|]; [|discriminate].
    intros H. now rewrite (IH _ H).
Qed.

Lemma has_char_app (c : ascii) (a b : string) :
  has_char c (a ++ b) = has_char c a || has_char c b.
Proof.
  induction a as [|x a IH]; simpl; [reflexivity|].
  now rewrite IH, orb_assoc.
Qed.

Lemma until_stops (sep : ascii) (a rest : string) :
  has_char sep a = false -> until sep (a ++ String sep rest) = a.
Proof.
  induction a as [|x a IH]; simpl.
  - now rewrite Ascii.eqb_refl.
  - intros H. apply orb_false_iff in H. destruct H as [X H].
    now rewrite X, IH.
Qed.

Lemma until_all (sep : ascii) (a : string) :
  has_char sep a = false -> until sep a = a.
Proof.
  induction a as [|x a IH]; simpl; [reflexivity|].
  intros H. apply orb_false_iff in H. destruct H as [X H].
  now rewrite X, IH.
Qed.

(** No match starts inside a text without "/" that is put in front. *)
Lemma no_match_before (b x : string) :
  b <> "" -> has_char "/" b = false ->
  match_here (b ++ "task-definition/" ++ x) = None.
Proof.
  intros N H. unfold match_here.
  destruct (drop_prefix "task-definition/" (b ++ "task-definition/" ++ x))
    as [r|] eqn:D; [|reflexivity].
  exfalso. apply drop_prefix_some in D.
  assert (L : until "/" (b ++ "task-definition/" ++ x)
              = (b ++ "task-definition")%string).
  { change ("task-definition/" ++ x)%string
      with ("task-definition" ++ String "/" x)%string.
    rewrite <- append_assoc. apply until_stops.
    rewrite has_char_app, H. reflexivity. }
  rewrite D in L. cbn in L.
  apply (f_equal String.length) in L.
  rewrite length_append in L. destruct b; [now apply N|].
  simpl in L. lia.
Qed.

Lemma search_eq (s : string) :
  search s
  = match match_here s with
    | Some group => Some group
    | None =>
      match s with
      | EmptyString => None
      | String _ s' => search s'
      end
    end.
Proof. now destruct s. Qed.

Lemma search_finds (prefix x : string) (group : string) :
  has_char "/" prefix = false ->
  match_here ("task-definition/" ++ x) = Some group ->
  search (prefix ++ "task-definition/" ++ x) = Some group.
Proof.
  intros H M. induction prefix as [|c p IH].
  - change ("" ++ "task-definition/" ++ x)%string
      with ("task-definition/" ++ x)%string.
    now rewrite search_eq, M.
  - pose proof H as H'. cbn [has_char] in H'.
    apply orb_false_iff in H'. destruct H' as [_ H'].
    rewrite search_eq.
    rewrite no_match_before; [now apply IH | discriminate | exact H].
Qed.

Lemma search_needs_slash (s : string) :
  has_char "/" s = false -> search s = None.
Proof.
  induction s as [|c s IH]; intros H; rewrite search_eq.
  - reflexivity.
  - assert (M : match_here (String c s) = None).
    { unfold match_here.
      destruct (drop_prefix "task-definition/" (String c s)) as [r|] eqn:D;
        [|reflexivity].
      apply drop_prefix_some in D. rewrite D in H.
      change ("task-definition/" ++ r)%string
        with ("task-definition" ++ String "/" r)%string in H.
      rewrite has_char_app in H. cbn in H. discriminate H. }
    rewrite M. apply IH. cbn [has_char] in H.
    apply orb_false_iff in H. tauto.
Qed.

Lemma after_last_all (sep : ascii) (s : string) :
  has_char sep s = false -> after_last sep s = s.
Proof.
  destruct s as [|c s]; [reflexivity|]. cbn [has_char after_last].
  intros H. apply orb_false_iff in H. destruct H as [X H].
  now rewrite H, X.
Qed.

(** X8. From a task definition ARN, a text without "/" followed by
    "task-definition/", a family name without ":" and maybe ":" and a
    revision, [extract_service_name] returns the family name; from a text
    without "/" it returns what stands before the first ":"; without an ARN
    it returns "unknown". *)
Theorem extract_service_name_of_arn (prefix name revision : string) :
  has_char "/" prefix = false ->
  name <> "" ->
  has_char ":" name = false ->
  extract_service_name
    (Some (prefix ++ "task-definition/" ++ name ++ String ":" revision)%string)
  = name
  /\ extract_service_name
       (Some (prefix ++ "task-definition/" ++ name)%string)
     = name
  /\ (forall s, has_char "/" s = false -> s <> "" ->
                extract_service_name (Some s) = until ":" s)
  /\ extract_service_name None = "unknown"
  /\ extract_service_name (Some "") = "unknown".
Proof.
  intros P N C.
  assert (M : forall rest,
             until ":" (name ++ rest) = name ->
             extract_service_name
               (Some (prefix ++ "task-definition/" ++ name ++ rest)%string)
             = name).
  { intros rest U. unfold extract_service_name.
    rewrite (search_finds prefix (name ++ rest) name P).
    - destruct (prefix ++ _)%string eqn:E; [|reflexivity].
      destruct prefix; discriminate.
    - unfold match_here. rewrite drop_prefix_app, U.
      destruct name; [now destruct N | reflexivity]. }
  split; [apply M; now apply until_stops|].
  split.
  - rewrite <- (append_nil_r name) at 1. apply M.
    rewrite append_nil_r. now apply until_all.
  - split; [|split; reflexivity].
    intros s S E. unfold extract_service_name.
    rewrite search_needs_slash, after_last_all by exact S.
    destruct s; [now destruct E | reflexivity].
Qed.

End ServiceNames.

Lemma extract_service_name_of_arn_witness :
  Helpers.extract_service_name
    (Some "arn:aws:ecs:eu-west-1:123456789012:task-definition/checkout-api:42")
  = "checkout-api".
Proof.
  apply (extract_service_name_of_arn
           "arn:aws:ecs:eu-west-1:123456789012:" "checkout-api" "42");
    [reflexivity | discriminate | reflexivity].
Defined.

Section OutputFiles.
Import Py Doc Helpers.

Lemma length_replace_char (old new : ascii) (s : string) :
  String.length (replace old (String new "") s) = String.length s.
Proof.
  induction s as [|c s IH]; simpl; [reflexivity|].
  destruct (Ascii.eqb c old); simpl; now rewrite IH.
Qed.

Lemma replace_removes (old new : ascii) (s : string) :
  old <> new -> has_char old (replace old (String new "") s) = false.
Proof.
  intros N. induction s as [|c s IH]; simpl; [reflexivity|].
  destruct (Ascii.eqb_spec c old) as [->|D]; simpl; rewrite IH.
  - destruct (Ascii.eqb_spec new old); [congruence | reflexivity].
  - destruct (Ascii.eqb_spec c old); [congruence | reflexivity].
Qed.

Lemma replace_keeps_absent (c old new : ascii) (s : string) :
  c <> new -> has_char c s = false ->
  has_char c (replace old (String new "") s) = false.
Proof.
  intros N. induction s as [|x s IH]; simpl; [reflexivity|].
  intros H. apply orb_false_iff in H. destruct H as [X H].
  destruct (Ascii.eqb x old); simpl; rewrite (IH H).
  - destruct (Ascii.eqb_spec new c); [congruence | reflexivity].
  - now rewrite X.
Qed.

Lemma get_resource_name_length (vpc : Vpc.t) :
  String.length (Detailed.get_resource_name vpc) <= 35.
Proof.
  unfold Detailed.get_resource_name. cbv zeta.
  destruct (Detailed.py_or _ _) as [n|];
    [destruct (Detailed.truthy _)|]; rewrite length_take; lia.
Qed.

(** X9. [safe_name] turns every space, "/" and "-" of the VPC name into
    "_" and leaves the other characters where they are: the result has the
    length of the name and holds none of the three characters; for the
    display name of a VPC it is at most 35 characters long. *)
Theorem safe_name_characters (vpc_name : string) :
  list_ascii_of_string (safe_name vpc_name)
  = map (fun c => if unsafe_char c then "_"%char else c)
        (list_ascii_of_string vpc_name)
  /\ String.length (safe_name vpc_name) = String.length vpc_name
  /\ has_char " " (safe_name vpc_name) = false
  /\ has_char "/" (safe_name vpc_name) = false
  /\ has_char "-" (safe_name vpc_name) = false
  /\ (forall vpc,
        String.length (safe_name (Detailed.get_resource_name vpc)) <= 35).
Proof.
  assert (L : forall s, String.length (safe_name s) = String.length s).
  { intros s. unfold safe_name. now rewrite !length_replace_char. }
  split.
  - unfold safe_name. rewrite !replace_chars, !map_map.
    apply map_ext. intros c. unfold unsafe_char.
    destruct (Ascii.eqb_spec c " ") as [->|N1]; [reflexivity|].
    destruct (Ascii.eqb_spec c "/") as [->|N2]; [reflexivity|].
    destruct (Ascii.eqb_spec c "-") as [->|N3]; reflexivity.
  - split; [apply L|]. unfold safe_name. repeat split.
    + apply replace_keeps_absent; [discriminate|].
      apply replace_keeps_absent; [discriminate|].
      apply replace_removes. discriminate.
    + apply replace_keeps_absent; [discriminate|].
      apply replace_removes. discriminate.
    + apply replace_removes. discriminate.
    + intros vpc. fold (safe_name (Detailed.get_resource_name vpc)).
      rewrite L. apply get_resource_name_length.
Qed.

(** X10. With a budget of at least 2, a label is never longer than the
    name it was made from, and formatting a label again at the same budget
    changes nothing. *)
Theorem format_label_idempotent (name : string) (max_len : Z) :
  (2 <= max_len)%Z ->
  String.length (Detailed.format_label name max_len) <= String.length name
  /\ Detailed.format_label (Detailed.format_label name max_len) max_len
     = Detailed.format_label name max_len
  /\ Drawio.format_label (Drawio.format_label name max_len) max_len
     = Drawio.format_label name max_len.
Proof.
  intros H.
  destruct (truncate_spec name max_len H) as (A & B & C).
  destruct (truncate_spec (Detailed.format_label name max_len) max_len H)
    as (A' & _ & _).
  change (Drawio.format_label) with (Detailed.format_label).
  fold (Detailed.format_label name max_len) in A, B, C.
  split; [|split; apply A'; exact C].
  destruct (Z.leb_spec (Z.of_nat (String.length name)) max_len) as [Le|Gt].
  - rewrite (A Le). lia.
  - destruct (B Gt) as [h (_ & _ & _ & E)]. lia.
Qed.

Lemma format_label_idempotent_witness :
  Detailed.format_label (Detailed.format_label "payments-production" 12) 12
  = Detailed.format_label "payments-production" 12.
Proof.
  apply (format_label_idempotent "payments-production" 12). lia.
Defined.

End OutputFiles.
(** ** The two detailed generators on ECS clusters *)

Section TwoGenerators.
Import Py Doc DrawioFilters.

Lemma rev_string_twice (s acc : string) :
  rev_string "" (rev_string acc s) = rev_string s acc.
Proof.
  revert acc. induction s as [|c s IH]; intros acc; simpl.
  - reflexivity.
  - now rewrite IH.
Qed.

Lemma rev_string_empty (s acc : string) :
  rev_string acc s = "" -> acc = "" /\ s = "".
Proof.
  revert acc. induction s as [|c s IH]; intros acc; simpl.
  - auto.
  - intros H. destruct (IH _ H). discriminate.
Qed.

Lemma split_loop_no_blank (s cur : string) (out : list string) :
  no_blank s = true -> split_loop s cur out = flush (rev_string cur s) out.
Proof.
  revert cur. induction s as [|c s IH]; intros cur; simpl.
  - reflexivity.
  - intros H. apply andb_true_iff in H. destruct H as [C H].
    apply negb_true_iff in C. rewrite C. now apply IH.
Qed.

Lemma split_no_blank (s : string) :
  no_blank s = true ->
  split s = match s with EmptyString => [] | _ => [s] end.
Proof.
  intros H. unfold split. rewrite split_loop_no_blank by exact H.
  unfold flush. destruct (rev_string "" s) eqn:E.
  - apply rev_string_empty in E. destruct E as [_ ->]. reflexivity.
  - rewrite <- E, rev_string_twice. simpl.
    destruct s; [discriminate | reflexivity].
Qed.

Lemma is_space_lower (c : ascii) : is_space (lower_char c) = is_space c.
Proof. destruct c as [[|] [|] [|] [|] [|] [|] [|] [|]]; reflexivity. Qed.

Lemma no_blank_lower (s : string) : no_blank (lower s) = no_blank s.
Proof.
  induction s as [|c s IH]; simpl; [reflexivity|].
  now rewrite is_space_lower, IH.
Qed.

Lemma no_blank_strip (c : ascii) (s : string) :
  no_blank s = true -> no_blank (Detailed.strip c s) = true.
Proof.
  unfold Detailed.strip. induction s as [|x s IH]; simpl; [reflexivity|].
  intros H. apply andb_true_iff in H. destruct H as [X H].
  destruct (Ascii.eqb x c); simpl; [now apply IH|].
  now rewrite X, IH.
Qed.

Lemma strip_blank_free (s : string) :
  no_blank s = true -> Detailed.strip " " s = s.
Proof.
  unfold Detailed.strip. induction s as [|x s IH]; simpl; [reflexivity|].
  intros H. apply andb_true_iff in H. destruct H as [X H].
  destruct (Ascii.eqb_spec x " ") as [->|N]; [discriminate|].
  now rewrite IH.
Qed.

Lemma no_blank_name_lower (s : string) :
  no_blank s = true -> no_blank (Detailed.name_lower s) = true.
Proof.
  intros H. unfold Detailed.name_lower.
  apply no_blank_strip, no_blank_strip. now rewrite no_blank_lower.
Qed.

Lemma name_match_agree (vpc_name : string) (cluster : ECSCluster.t) :
  no_blank vpc_name = true ->
  no_blank (ECSCluster.cluster_name cluster) = true ->
  Detailed.name_match vpc_name cluster = name_match vpc_name cluster.
Proof.
  intros V C. unfold Detailed.name_match, name_match, name_lower.
  fold (Detailed.name_lower vpc_name).
  fold (Detailed.name_lower (ECSCluster.cluster_name cluster)).
  cbv zeta.
  rewrite !strip_blank_free by now apply no_blank_name_lower.
  rewrite split_no_blank by now apply no_blank_name_lower.
  destruct (contains (Detailed.name_lower vpc_name)
              (Detailed.name_lower (ECSCluster.cluster_name cluster))) eqn:K.
  - now rewrite !orb_true_r.
  - rewrite orb_false_r. destruct (Detailed.name_lower vpc_name) eqn:E.
    + cbn [filter existsb]. now rewrite orb_false_r.
    + cbn [filter]. destruct (3 <? _)%nat; cbn [existsb];
        rewrite ?K; now rewrite !orb_false_r.
Qed.

(** X11. When the display name of the VPC and the names of the clusters
    hold no whitespace character, the detailed generator and the draw.io
    generator attribute the same ECS clusters to the VPC, in the same
    order. *)
Theorem generators_agree_on_ecs (vpc_data : Vpc.t)
    (ecs_clusters : list ECSCluster.t) :
  no_blank (Detailed.get_resource_name vpc_data) = true ->
  forallb (fun c => no_blank (ECSCluster.cluster_name c)) ecs_clusters = true ->
  Detailed.vpc_ecs vpc_data ecs_clusters = vpc_ecs vpc_data ecs_clusters.
Proof.
  intros V C. unfold Detailed.vpc_ecs, vpc_ecs. cbv zeta.
  rewrite forallb_forall in C.
  induction ecs_clusters as [|c l IH]; [reflexivity|].
  cbn [filter]. rewrite name_match_agree; [|exact V|apply C; now left].
  change (Detailed.subnet_match (Detailed.vpc_subnet_ids vpc_data) c)
    with (subnet_match (Detailed.vpc_subnet_ids vpc_data) c).
  rewrite IH; [reflexivity|]. intros x I. apply C. now right.
Qed.

End TwoGenerators.

Lemma generators_agree_on_ecs_witness :
  Detailed.vpc_ecs Scenario.vpc1 [Scenario.blue]
  = DrawioFilters.vpc_ecs Scenario.vpc1 [Scenario.blue].
Proof.
  apply (generators_agree_on_ecs Scenario.vpc1 [Scenario.blue]);
    reflexivity.
Defined.

(** With a space in the VPC's name the two generators can differ: the
    detailed one finds the part "prod" in the cluster's name, the draw.io
    one compares the names with the spaces removed. *)
Example generators_differ_with_blanks :
  Detailed.name_match "prod main"
    {| Doc.ECSCluster.cluster_name := "prod-api";
       Doc.ECSCluster.services := [] |} = true
  /\ DrawioFilters.name_match "prod main"
       {| Doc.ECSCluster.cluster_name := "prod-api";
          Doc.ECSCluster.services := [] |} = false.
Proof. split; reflexivity. Qed.
(** ** What the persisted format keeps *)

Section StringifyLaws.
Import Py Json JsonLaws.

Lemma map_ext_Forall' {X Y : Type} (f g : X -> Y) (l : list X) :
  Forall (fun x => f x = g x) l -> map f l = map g l.
Proof. induction 1; simpl; congruence. Qed.

Lemma encode_stringify (v : value) :
  forall level, encode level (stringify v) = encode level v.
Proof.
  induction v as [ |b|n|s|l IH|d IH|r] using value_nested_ind;
    intros level; try reflexivity.
  - cbn [stringify encode]. rewrite map_map. f_equal.
    apply map_ext_Forall'. eapply Forall_impl; [|exact IH].
    intros x Hx. apply Hx.
  - cbn [stringify encode]. rewrite map_map. f_equal.
    apply map_ext_Forall'. eapply Forall_impl; [|exact IH].
    intros [k x] Hx. cbn [fst snd] in *. now rewrite Hx.
Qed.

Lemma native_stringify (v : value) :
  native (stringify v) = distinct_keys v.
Proof.
  induction v as [ |b|n|s|l IH|d IH|r] using value_nested_ind;
    try reflexivity.
  - cbn [stringify native distinct_keys]. induction IH as [|x l Hx F IHl].
    + reflexivity.
    + cbn [map forallb]. now rewrite Hx, IHl.
  - cbn [stringify native distinct_keys].
    assert (K : map fst (map (fun kv => (fst kv, stringify (snd kv))) d)
                = map fst d)
      by (rewrite map_map; apply map_ext; reflexivity).
    rewrite K. f_equal.
    induction IH as [|[k x] d Hx F IHd].
    + reflexivity.
    + cbn [map forallb snd] in *. rewrite Hx. f_equal. apply IHd.
      rewrite map_map. apply map_ext. reflexivity.
Qed.

Lemma stringify_native (v : value) : native v = true -> stringify v = v.
Proof.
  induction v as [ |b|n|s|l IH|d IH|r] using value_nested_ind;
    try reflexivity; cbn [native stringify]; intros N.
  - f_equal. rewrite <- (map_id l) at 2. apply map_ext_Forall'.
    rewrite forallb_forall in N. rewrite Forall_forall in *.
    intros x I. apply IH; auto.
  - apply andb_true_iff in N. destruct N as [_ N].
    f_equal. rewrite <- (map_id d) at 2. apply map_ext_Forall'.
    rewrite forallb_forall in N. rewrite Forall_forall in *.
    intros [k x] I. cbn [fst snd]. f_equal. apply (IH (k, x) I).
    apply (N (k, x) I).
  - discriminate.
Qed.

(** X12. Writing a value whose dictionaries have distinct keys with
    [json.dump(..., default=str)] and reading it back gives the value with
    every object that [json] does not know replaced by its [str()]: the
    loss is exactly that replacement.  What was read back writes the same
    text and reads back as itself, and a value without such objects is not
    changed at all. *)
Theorem round_trip_up_to_str (v : value) :
  distinct_keys v = true ->
  loads (dumps v) = Some (stringify v)
  /\ dumps (stringify v) = dumps v
  /\ loads (dumps (stringify v)) = Some (stringify v)
  /\ (native v = true -> stringify v = v).
Proof.
  intros D.
  assert (E : dumps (stringify v) = dumps v) by apply encode_stringify.
  assert (L : loads (dumps (stringify v)) = Some (stringify v)).
  { apply loads_dumps. now rewrite native_stringify. }
  split; [now rewrite <- E|]. split; [exact E|]. split; [exact L|].
  apply stringify_native.
Qed.

Lemma round_trip_up_to_str_witness :
  loads (dumps (VDict [("launched", VObj "2024-05-01 10:00:00+00:00");
                       ("count", VInt 3)]))
  = Some (VDict [("launched", VStr "2024-05-01 10:00:00+00:00");
                 ("count", VInt 3)]).
Proof.
  apply (round_trip_up_to_str
           (VDict [("launched", VObj "2024-05-01 10:00:00+00:00");
                   ("count", VInt 3)])).
  reflexivity.
Defined.

End StringifyLaws.

(** ** The ECS collector *)

Section ECSCollect.

Import ECSClient ECSModels ECSCollector.

Variable list_clusters : list string.
Variable list_services : string -> list string.
Variable respond_clusters : api_call -> option (list aws_cluster).
Variable respond_services : api_call -> option (list aws_service).

Lemma collect_cluster_run (region : string) (raw : aws_cluster)
    (clusters : list ECSClusterModel) (log : list api_call) :
  collect_cluster list_services respond_services region raw clusters log
  = (clusters ++ [collected_cluster list_services respond_services region raw],
     log ++ service_calls list_services raw).
Proof.
  unfold collect_cluster, collected_cluster, service_calls,
    described_services.
  cbn [cluster_from_aws_response cluster_arn].
  destruct (list_services (clusterArn raw)) as [|a ids] eqn:E.
  - rewrite batches_nil by lia. cbn [flat_map map].
    unfold ret. now rewrite app_nil_r.
  - unfold bind. rewrite describe_services_run. reflexivity.
Qed.

Lemma collect_loop_run (region : string) (raws : list aws_cluster)
    (clusters : list ECSClusterModel) (log : list api_call) :
  for_each raws (collect_cluster list_services respond_services region)
    clusters log
  = (clusters
     ++ map (collected_cluster list_services respond_services region) raws,
     log ++ flat_map (service_calls list_services) raws).
Proof.
  revert clusters log.
  induction raws as [|raw raws IH]; intros clusters log.
  - cbn [for_each map flat_map]. unfold ret. now rewrite !app_nil_r.
  - cbn [for_each map flat_map]. unfold bind at 1.
    rewrite collect_cluster_run, IH.
    now rewrite <- !app_assoc.
Qed.

Lemma service_calls_bounded (raws : list aws_cluster) :
  Forall (fun c => 0 < length (call_ids c) <= cap c)
         (flat_map (service_calls list_services) raws).
Proof.
  rewrite Forall_forall. intros c Hc.
  apply in_flat_map in Hc. destruct Hc as [raw [_ Hc]].
  unfold service_calls in Hc. apply in_map_iff in Hc.
  destruct Hc as [b [<- Hb]].
  pose proof (batches_bounded 10 (list_services (clusterArn raw))
                ltac:(lia)) as B.
  rewrite Forall_forall in B. exact (B b Hb).
Qed.

(** X13. What [ECSCollector.collect] does in a region: it describes the
    listed clusters in batches of at most 100, then, for each cluster the
    provider described and in that order, the cluster's listed services in
    batches of at most 10 under the cluster's ARN; it makes no other
    describe call, and none for a cluster without services or when no
    cluster is listed.  It returns one model per described cluster, in
    order, whose services are the models of the descriptions returned for
    that cluster.  Every call carries at least one identifier and no more
    than the provider's cap. *)
Theorem ecs_collect_calls_and_result (region : string)
    (log : list api_call) :
  let raws := described_clusters list_clusters respond_clusters in
  let calls :=
    map DescribeClusters (batches 100 list_clusters)
    ++ flat_map (service_calls list_services) raws in
  collect list_clusters list_services respond_clusters respond_services
    region log
  = (map (collected_cluster list_services respond_services region) raws,
     log ++ calls)
  /\ Forall (fun c => 0 < length (call_ids c) <= cap c) calls
  /\ (list_clusters = [] -> calls = []).
Proof.
  cbv zeta. split; [|split].
  - unfold collect, described_clusters.
    destruct list_clusters as [|a ids] eqn:E.
    + rewrite batches_nil by lia. cbn [flat_map map app].
      unfold ret. now rewrite app_nil_r.
    + unfold bind. rewrite describe_clusters_run, collect_loop_run.
      cbn [app]. now rewrite <- app_assoc.
  - apply Forall_app. split.
    + rewrite Forall_forall. intros c Hc. apply in_map_iff in Hc.
      destruct Hc as [b [<- Hb]].
      pose proof (batches_bounded 100 list_clusters ltac:(lia)) as B.
      rewrite Forall_forall in B. exact (B b Hb).
    + apply service_calls_bounded.
  - intros E. unfold described_clusters. rewrite E.
    rewrite batches_nil by lia. reflexivity.
Qed.

End ECSCollect.

(** ** From the VPC collector to the diagram's VPC *)

Section CollectedVPC.

Import Py Models VPCCollect.

Lemma tags_fold_get (tags : aws_tags) (acc : dict string) (k : string) :
  NoDup (map fst tags) ->
  dict_get (fold_left (fun d kv => dict_set d (fst kv) (snd kv)) tags acc) k
  = match find (fun kv => String.eqb (fst kv) k) tags with
    | Some kv => Some (snd kv)
    | None => dict_get acc k
    end.
Proof.
  revert acc. induction tags as [|[k' v'] tags IH]; intros acc D.
  - reflexivity.
  - cbn [map fst] in D. inversion D as [|? ? NI D']; subst.
    cbn [fold_left find fst snd]. rewrite (IH _ D').
    destruct (String.eqb_spec k' k) as [->|N].
    + destruct (find _ tags) as [[k0 v0]|] eqn:F.
      * apply find_some in F. destruct F as [I E]. cbn [fst] in E.
        apply String.eqb_eq in E. subst k0.
        exfalso. apply NI. apply in_map_iff.
        now exists (k, v0).
      * apply dict_get_set_same.
    + destruct (find _ tags); [reflexivity|].
      now apply dict_get_set_other.
Qed.

Lemma name_from_tags_find (tags : aws_tags) :
  get_name_from_tags tags
  = option_map snd (find (fun kv => String.eqb (fst kv) "Name") tags).
Proof.
  induction tags as [|[k v] tags IH]; cbn [get_name_from_tags find fst].
  - reflexivity.
  - destruct (String.eqb k "Name"); [reflexivity | exact IH].
Qed.

Lemma name_is_name_tag (tags : aws_tags) :
  NoDup (map fst tags) ->
  dict_get (tags_dict tags) "Name" = get_name_from_tags tags.
Proof.
  intros D. unfold tags_dict. rewrite (tags_fold_get _ _ _ D).
  rewrite name_from_tags_find.
  now destruct (find _ tags).
Qed.

Variable describe_subnets : string -> list SubnetModel.aws_response.
Variable simplified_igws : string -> list value.
Variable simplified_nat_gws : string -> list value.
Variable simplified_route_tables : string -> list value.
Variable simplified_security_groups : string -> list value.
Variable simplified_vpc_endpoints : string -> list value.

(** X14. A VPC as the collector builds it and as the diagram generator
    then reads it.  Its subnets are the ones AWS lists for its identifier,
    in order.  When the tag keys of the VPC are distinct, as AWS has them,
    its display name is the first 35 characters of the Name tag, or of the
    VPC identifier when there is no Name tag or the Name tag is empty. *)
Theorem collected_vpc_name_and_subnets (region : string)
    (raw_vpc : aws_vpc) :
  NoDup (map fst (Tags raw_vpc)) ->
  let vpc :=
    document
      (collect_vpc describe_subnets simplified_igws simplified_nat_gws
         simplified_route_tables simplified_security_groups
         simplified_vpc_endpoints region raw_vpc) in
  Detailed.vpc_subnet_ids vpc
  = map SubnetModel.SubnetId (describe_subnets (VpcId raw_vpc))
  /\ Detailed.get_resource_name vpc
     = take 35 (name_or_id (Tags raw_vpc) (VpcId raw_vpc)).
Proof.
  intros D. cbv zeta. split.
  - unfold Detailed.vpc_subnet_ids, document, collect_vpc.
    cbn [Doc.Vpc.subnets VPCModel.subnets VPCModel.vpc_id from_aws_response].
    rewrite !map_map. reflexivity.
  - unfold Detailed.get_resource_name, document, collect_vpc, name_or_id.
    cbn [Doc.Vpc.name Doc.Vpc.tags Doc.Vpc.vpc_id VPCModel.name VPCModel.tags
         VPCModel.vpc_id from_aws_response].
    rewrite (name_is_name_tag _ D).
    unfold Detailed.py_or.
    destruct (get_name_from_tags (Tags raw_vpc)) as [[|c n]|];
      reflexivity.
Qed.

End CollectedVPC.

(** The VPC of [Provider.vpc_response] with one subnet. *)
Lemma collected_vpc_name_and_subnets_witness :
  let vpc :=
    VPCCollect.document
      (VPCCollect.collect_vpc (fun _ => [Provider.subnet_a_response])
         (fun _ => []) (fun _ => []) (fun _ => []) (fun _ => [])
         (fun _ => []) "eu-west-1" Provider.vpc_response) in
  Detailed.vpc_subnet_ids vpc = ["subnet-a"]
  /\ Detailed.get_resource_name vpc = "payments".
Proof.
  cbv zeta.
  apply (collected_vpc_name_and_subnets
           (fun _ => [Provider.subnet_a_response])
           (fun _ => []) (fun _ => []) (fun _ => []) (fun _ => [])
           (fun _ => []) "eu-west-1" Provider.vpc_response).
  cbn. repeat constructor; cbn; intuition discriminate.
Defined.

(** ** The workload document *)

Section WorkloadDocument.

Import Py K8sWorkloads.

Variable collect_cluster_workloads : cluster -> result (dict (list Doc.Pod.t)).

Lemma find_last {A : Type} (p : A -> bool) (l : list A) (x : A) :
  find p (l ++ [x])
  = match find p l with
    | Some y => Some y
    | None => if p x then Some x else None
    end.
Proof.
  induction l as [|y l IH]; cbn [app find].
  - reflexivity.
  - destruct (p y); [reflexivity | exact IH].
Qed.

Lemma collect_loop_get (eks : list cluster) (acc : dict Helpers.workload)
    (name : string) :
  dict_get (collect_loop collect_cluster_workloads eks acc) name
  = match last_named name eks with
    | Some c => Some (entry_of collect_cluster_workloads c)
    | None => dict_get acc name
    end.
Proof.
  unfold collect_loop, last_named. revert acc.
  induction eks as [|c eks IH]; intros acc.
  - reflexivity.
  - cbn [fold_left rev]. rewrite IH, find_last.
    destruct (find _ (rev eks)); [reflexivity|].
    destruct (String.eqb_spec (key_of c) name) as [<-|N].
    + apply dict_get_set_same.
    + now apply dict_get_set_other.
Qed.

Lemma collect_loop_NoDup (eks : list cluster) (acc : dict Helpers.workload) :
  NoDup (dict_keys acc) ->
  NoDup (dict_keys (collect_loop collect_cluster_workloads eks acc)).
Proof.
  unfold collect_loop. revert acc.
  induction eks as [|c eks IH]; intros acc D.
  - exact D.
  - cbn [fold_left]. apply IH. now apply dict_set_NoDup.
Qed.

Lemma inner_loop_app (region_name : string) (names : list (option string))
    (clusters : list cluster) :
  fold_left
    (fun clusters name =>
       clusters ++ [{| cluster_name := name; region := region_name |}])
    names clusters
  = clusters
    ++ map (fun name => {| cluster_name := name; region := region_name |})
           names.
Proof.
  revert clusters. induction names as [|n names IH]; intros clusters.
  - cbn. now rewrite app_nil_r.
  - cbn [fold_left map]. rewrite IH. now rewrite <- app_assoc.
Qed.

Lemma get_eks_clusters_listed (regions : dict region_data) :
  get_eks_clusters_from_inventory regions = listed_clusters regions.
Proof.
  unfold get_eks_clusters_from_inventory, listed_clusters.
  enough (G : forall acc,
             fold_left
               (fun clusters (item : string * region_data) =>
                  if has_error (snd item) then clusters
                  else
                    fold_left
                      (fun clusters name =>
                         clusters
                         ++ [{| cluster_name := name; region := fst item |}])
                      (get_default (eks_clusters (snd item)) [])
                      clusters)
               regions acc
             = acc
               ++ flat_map
                    (fun item : string * region_data =>
                       if has_error (snd item) then []
                       else map (fun name =>
                                   {| cluster_name := name;
                                      region := fst item |})
                                (get_default (eks_clusters (snd item)) []))
                    regions)
    by apply (G []).
  induction regions as [|[r rd] regions IH]; intros acc.
  - cbn. now rewrite app_nil_r.
  - cbn [fold_left flat_map fst snd]. rewrite IH.
    destruct (has_error rd).
    + reflexivity.
    + rewrite inner_loop_app. now rewrite <- app_assoc.
Qed.

(** X15. The workload collection visits the EKS clusters of the regions
    without an error entry, region by region, each with its region set, and
    with [--clusters] only those whose name is among the given ones; with no
    cluster left it writes nothing.  The document is keyed by cluster name
    alone: each name has one entry, the one of the last visited cluster
    filed under it (a cluster without a name is filed under "unknown"), so
    of two clusters with one name in two regions the first one's workloads
    are replaced.  The pods a diagram then gets for a cluster name are those
    collected from that last cluster, and none when collecting from it
    raised. *)
Theorem workloads_are_keyed_by_cluster_name
    (args_clusters : option (list string)) (regions : dict region_data) :
  let visited :=
    filter_clusters args_clusters (listed_clusters regions) in
  (forall c, In c (listed_clusters regions) <->
             exists rd names,
               In (region c, rd) regions /\ has_error rd = false
               /\ eks_clusters rd = Some names /\ In (cluster_name c) names)
  /\ (forall names c, names <> [] ->
        (In c (filter_clusters (Some names) (listed_clusters regions)) <->
         In c (listed_clusters regions)
         /\ exists n, cluster_name c = Some n /\ In n names))
  /\ match main collect_cluster_workloads args_clusters regions with
     | None => visited = []
     | Some all_workloads =>
       visited <> []
       /\ NoDup (dict_keys all_workloads)
       /\ (forall name,
             dict_get all_workloads name
             = option_map (entry_of collect_cluster_workloads)
                          (last_named name visited))
       /\ (forall name,
             Helpers.get_pods_for_cluster (Some all_workloads) name
             = match last_named name visited with
               | Some c =>
                 match collect_cluster_workloads c with
                 | Ok pods_by_node => pods_by_node
                 | Raise _ => []
                 end
               | None => []
               end)
     end.
Proof.
  cbv zeta. split; [|split].
  - intros c. unfold listed_clusters. rewrite in_flat_map. split.
    + intros [[r rd] [I H]]. cbn [fst snd] in H.
      destruct (has_error rd) eqn:E; [contradiction|].
      apply in_map_iff in H. destruct H as [n [<- Hn]].
      destruct (eks_clusters rd) as [names|] eqn:K; [|contradiction].
      exists rd, names. cbn [region cluster_name]. auto.
    + intros [rd [names [I [E [K Hn]]]]].
      exists (region c, rd). split; [exact I|].
      cbn [fst snd]. rewrite E, K. cbn [get_default].
      apply in_map_iff. exists (cluster_name c). split; [|exact Hn].
      now destruct c.
  - intros names c N. destruct names as [|n0 names]; [congruence|].
    cbn [filter_clusters]. rewrite filter_In. unfold requested.
    split.
    + intros [I R]. split; [exact I|].
      destruct (cluster_name c) as [n|]; [|discriminate].
      exists n. split; [reflexivity|]. now apply mem_iff.
    + intros [I [n [E Hn]]]. split; [exact I|].
      rewrite E. now apply mem_iff.
  - unfold main. rewrite get_eks_clusters_listed.
    destruct (filter_clusters args_clusters (listed_clusters regions))
      as [|c0 eks] eqn:V; [reflexivity|].
    assert (G : forall name,
               dict_get (collect_loop collect_cluster_workloads (c0 :: eks) [])
                        name
               = option_map (entry_of collect_cluster_workloads)
                            (last_named name (c0 :: eks))).
    { intros name. rewrite collect_loop_get.
      now destruct (last_named name (c0 :: eks)). }
    split; [discriminate|]. split; [|split].
    + apply collect_loop_NoDup. constructor.
    + exact G.
    + intros name. unfold Helpers.get_pods_for_cluster.
      destruct (collect_loop collect_cluster_workloads (c0 :: eks) [])
        as [|e all] eqn:L.
      * specialize (G name). cbn [dict_get] in G.
        destruct (last_named name (c0 :: eks)) as [c|]; [|reflexivity].
        discriminate G.
      * rewrite G.
        destruct (last_named name (c0 :: eks)) as [c|]; [|reflexivity].
        cbn [option_map]. unfold entry_of.
        now destruct (collect_cluster_workloads c).
Qed.

End WorkloadDocument.

(** ** The label of an EKS worker without a Name tag *)

Section NamelessWorker.
Import Py Doc Detailed VPCCollector.

Lemma nameless_label_raises (pods_by_node : dict (list Pod.t))
    (inst : Instance.t) (region : string) :
  Instance.name inst = None ->
  node_label pods_by_node inst region = Raise "TypeError".
Proof. intros N. unfold node_label. now rewrite N. Qed.

(** C8. An EKS worker without a Name tag, as the collector writes it, and
    a workload document that has no entry under the worker's derived DNS
    name: the lookup gives no pods and the node group counts 0 pods, but
    the label of the node raises [TypeError] instead of showing the
    instance with 0 pods.  The label raises for every instance that the
    collector writes without a Name tag, whatever the pods and the
    region. *)
Theorem nameless_worker_label_raises :
  let inst := simplify_instance Provider.nameless_worker in
  let key := "ip-10-0-1-5.eu-west-1.compute.internal" in
  Instance.name inst = None
  /\ private_dns inst "eu-west-1" = Ok key
  /\ dict_mem Scenario.custom_named_nodes key = false
  /\ node_pods Scenario.custom_named_nodes inst "eu-west-1" = Ok []
  /\ total_pods Scenario.custom_named_nodes [inst] "eu-west-1" 0 = Ok 0
  /\ node_label Scenario.custom_named_nodes inst "eu-west-1"
     = Raise "TypeError"
  /\ (forall raw pods_by_node region,
        mem "Name" (map fst (Tags raw)) = false ->
        node_label pods_by_node (simplify_instance raw) region
        = Raise "TypeError").
Proof.
  cbv zeta. repeat split; try reflexivity.
  intros raw pods_by_node region N.
  apply nameless_label_raises. cbn [simplify_instance Instance.name].
  now apply name_from_tags_none.
Qed.

End NamelessWorker.
